(** * FoundationDB Kubernetes operator: the reconciliation engine

  A shallow embedding of the operator's reconciliation steps and of the
  pure builders they rely on, together with the properties stated in the
  specification of the reconciliation engine.

  Layout:
  - [Go]         values and control flow shared by all the Go code
                 (errors, early return, panics, formatting of integers);
  - [Naming]     the instance identifier scheme;
  - [Legacy]     pkg/controller/foundationdbcluster (the first controller:
                 one [Reconcile] function and five steps);
  - [Controllers] controllers/ (the step-based controller:
                 [UpdateConfigMap], [ReplaceMisconfiguredPods]);
  - [Builder]    the layered override rules of the desired-state builder;
  - [Pipeline], [Bootstrap], [Terms], [Rule], [Conditions]
                 the vocabulary of the statements;
  - [Scenario], [StepScenario], [BuilderScenario]
                 in-memory doubles of the collaborators and concrete
                 clusters on which the statements are evaluated.

  The platform (resource store, pod side-cars, database admin client) is
  an external collaborator: it is modelled as an oracle over an abstract
  world, and every call made to it is recorded in a log, so that the
  statements can speak about which calls a step makes and in which
  order. *)

From Stdlib Require Import ZArith Ascii String List Lia Bool.
From Stdlib Require Import DecimalString DecimalPos DecimalN DecimalZ.
From stdpp Require Import base option list gmap strings sorting.

Local Open Scope string_scope.
Local Open Scope list_scope.
Local Open Scope Z_scope.

(* ===================================================================== *)
(** ** Go values and control flow *)
(* ===================================================================== *)

Module Go.

(** Go [error] values.  Only the distinctions the code makes are kept:
    [k8serrors.IsNotFound], the sentinel [fdbPodClientErrorNoIP], the
    identifier-parsing failure, and messages built by [errors.New] or
    returned by a collaborator. *)
Inductive error : Type :=
| NotFound
| fdbPodClientErrorNoIP
| MalformedIdentifier (id : string)
| ErrorString (msg : string).

#[global] Instance error_eq_dec : EqDecision error.
Proof. solve_decision. Defined.

Definition IsNotFound (e : error) : bool :=
  match e with NotFound => true | _ => false end.

(** The result of running a piece of a Go function body:
    - [Next a]: fell through, with the value [a];
    - [Return r]: executed a [return r] statement of the enclosing
      function;
    - [Panic]: a run-time panic (nil dereference, bad channel size);
    - [Blocked]: the function is still waiting (a retry loop that ran out
      of fuel, a receive on a channel nobody sends on). *)
Inductive outcome (R A : Type) : Type :=
| Next (a : A)
| Return (r : R)
| Panic (msg : string)
| Blocked.
Arguments Next {R A} a.
Arguments Return {R A} r.
Arguments Panic {R A} msg.
Arguments Blocked {R A}.

(** A function body over a state [S] (the world, the objects reachable
    through pointers, the call log).  The state is threaded through
    every exit, also the abnormal ones: side effects made before an
    early return are kept. *)
Definition M (S R A : Type) : Type := S -> S * outcome R A.

Definition ret {S R A} (a : A) : M S R A := fun s => (s, Next a).

Definition bind {S R A B} (m : M S R A) (k : A -> M S R B) : M S R B :=
  fun s =>
    match m s with
    | (s', Next a) => k a s'
    | (s', Return r) => (s', Return r)
    | (s', Panic msg) => (s', Panic msg)
    | (s', Blocked) => (s', Blocked)
    end.

(** [return r] *)
Definition exit {S R A} (r : R) : M S R A := fun s => (s, Return r).
Definition panic {S R A} (msg : string) : M S R A := fun s => (s, Panic msg).
Definition block {S R A} : M S R A := fun s => (s, Blocked).

Definition get {S R} : M S R S := fun s => (s, Next s).
Definition put {S R} (s : S) : M S R unit := fun _ => (s, Next tt).
Definition modify {S R} (f : S -> S) : M S R unit := fun s => (f s, Next tt).
Definition gets {S R A} (f : S -> A) : M S R A := fun s => (s, Next (f s)).

(** What a caller sees of a function whose body is [m]: the value it
    returned (by [return] or by falling through to its last expression),
    a panic, or nothing yet. *)
Inductive result (R : Type) : Type :=
| Returned (r : R)
| Panicked (msg : string)
| Waiting.
Arguments Returned {R} r.
Arguments Panicked {R} msg.
Arguments Waiting {R}.

Definition run {S R} (m : M S R R) (s : S) : S * result R :=
  match m s with
  | (s', Next r) => (s', Returned r)
  | (s', Return r) => (s', Returned r)
  | (s', Panic msg) => (s', Panicked msg)
  | (s', Blocked) => (s', Waiting)
  end.

(** A call inside another body: the callee's [return] is the value of
    the call. *)
Definition call {S R R'} (m : M S R' R') : M S R R' :=
  fun s =>
    match run m s with
    | (s', Returned r) => (s', Next r)
    | (s', Panicked msg) => (s', Panic msg)
    | (s', Waiting) => (s', Blocked)
    end.

(** [for _, x := range l { body x }] *)
Fixpoint for_range {S R X} (l : list X) (body : X -> M S R unit) : M S R unit :=
  match l with
  | [] => ret tt
  | x :: l' => bind (body x) (fun _ => for_range l' body)
  end.

(** Go's [int] on the 64-bit platforms the operator is built for. *)
Definition int_min : Z := - 2 ^ 63.
Definition int_max : Z := 2 ^ 63 - 1.
Definition wrap (z : Z) : Z := (z + 2 ^ 63) mod 2 ^ 64 - 2 ^ 63.
Definition int_add (a b : Z) : Z := wrap (a + b).
Definition int_sub (a b : Z) : Z := wrap (a - b).

(** [strconv.Itoa] and the [%d] verb. *)
Definition Itoa (n : Z) : string := NilZero.string_of_int (Z.to_int n).

(** [strings.Join] *)
Fixpoint Join (l : list string) (sep : string) : string :=
  match l with
  | [] => EmptyString
  | [x] => x
  | x :: l' => x +:+ sep +:+ Join l' sep
  end.

End Go.
Export Go.

(** The body monad is used through stdpp's [x ← m; k] notation. *)
#[global] Instance M_ret {S R} : MRet (M S R) := fun A a => ret a.
#[global] Instance M_bind {S R} : MBind (M S R) := fun A B k m => bind m k.

(* ===================================================================== *)
(** ** Resource naming: instance identifiers *)
(* ===================================================================== *)

Module Naming.

(** Splitting a string at every occurrence of a separator character.
    The result is never empty: a string without separator is its own
    single component. *)
Fixpoint split (sep : ascii) (s : string) : list string :=
  match s with
  | EmptyString => [EmptyString]
  | String c r =>
      if Ascii.eqb c sep then EmptyString :: split sep r
      else match split sep r with
           | h :: t => String c h :: t
           | [] => [String c EmptyString]
           end
  end.

Fixpoint contains (sep : ascii) (s : string) : bool :=
  match s with
  | EmptyString => false
  | String c r => Ascii.eqb c sep || contains sep r
  end.

Definition hyphen : ascii := "-"%char.

(** Modelled from the spec: [InstanceID] (the function is not among the
    sources; the tests of GetPod show its results, "storage-1" and
    "dc1-storage-1").  Section 4.1: "{prefix-}{processClass}-{n}" when
    the prefix is set, else "{processClass}-{n}". *)
Definition InstanceID (prefix processClass : string) (n : Z) : string :=
  if decide (prefix = EmptyString) then processClass +:+ "-" +:+ Itoa n
  else prefix +:+ "-" +:+ processClass +:+ "-" +:+ Itoa n.

(** A decimal numeral denoting a positive integer, as a parser sees it:
    digits only, at least one of them, and a value above zero. *)
Definition parse_positive (s : string) : option Z :=
  match NilEmpty.uint_of_string s with
  | Some d => let n := Z.of_uint d in if 0 <? n then Some n else None
  | None => None
  end.

(** The trailing component of an identifier and the one before it. *)
Definition trailing_component (id : string) : string :=
  match rev (split hyphen id) with
  | t :: _ => t
  | [] => EmptyString
  end.

Definition class_component (id : string) : string :=
  match rev (split hyphen id) with
  | _ :: c :: _ => c
  | _ => EmptyString
  end.

(** Modelled from the spec: [ParseInstanceID] (not among the sources,
    only its call sites in ReplaceMisconfiguredPods are).  Section 4.1:
    returns (processClass, n) and "fails with MalformedIdentifier if
    the trailing component is not a positive integer". *)
Definition ParseInstanceID (id : string) : string * Z * option error :=
  match parse_positive (trailing_component id) with
  | Some n => (class_component id, n, None)
  | None => (EmptyString, 0, Some (MalformedIdentifier id))
  end.

(** What "a positive integer" means for a piece of text, stated on the
    characters and independently of the parser. *)
Definition is_digit (c : ascii) : bool :=
  let n := N_of_ascii c in (48 <=? n)%N && (n <=? 57)%N.

Fixpoint all_digits (s : string) : bool :=
  match s with
  | EmptyString => true
  | String c r => is_digit c && all_digits r
  end.

Fixpoint has_nonzero_digit (s : string) : bool :=
  match s with
  | EmptyString => false
  | String c r => negb (Ascii.eqb c "0"%char) || has_nonzero_digit r
  end.

Definition positive_integer_text (s : string) : bool :=
  all_digits s && has_nonzero_digit s.

End Naming.

(* ===================================================================== *)
(** ** pkg/controller/foundationdbcluster: data model and builders *)
(* ===================================================================== *)

Module Legacy.

(** *** API objects (the fields the controller reads or writes) *)

Record NamespacedName : Type := {
  nnNamespace : string;
  nnName : string;
}.

Record OwnerReference : Type := {
  refAPIVersion : string;
  refKind : string;
  refName : string;
  refUID : string;
  refController : option bool;
}.

Record ObjectMeta : Type := {
  Name : string;
  Namespace : string;
  UID : string;
  Labels : gmap string string;
  OwnerReferences : list OwnerReference;
}.

(** [ProcessCounts] stands for the fields of the API type that only the
    methods [DesiredProcessCount] and [DesiredCoordinatorCount] read;
    the API package is not among the sources. *)
Record FoundationDBClusterSpec : Type := {
  Version : string;
  ProcessCounts : gmap string Z;
  ConnectionString : string;
  NextInstanceID : Z;
  ReplicationMode : string;
  StorageEngine : string;
  Configured : bool;
}.

Record FoundationDBCluster : Type := {
  APIVersion : string;
  Kind : string;
  ClusterMeta : ObjectMeta;
  Spec : FoundationDBClusterSpec;
}.

Record EnvVar : Type := { envName : string; envValue : string }.
Record VolumeMount : Type := { mountName : string; MountPath : string }.

Record Container : Type := {
  containerName : string;
  Image : string;
  Command : list string;
  Args : list string;
  Env : list EnvVar;
  VolumeMounts : list VolumeMount;
}.

Record KeyToPath : Type := { Key : string; Path : string }.

Inductive VolumeSource : Type :=
| EmptyDir
| ConfigMapSource (LocalObjectReference : string) (Items : list KeyToPath).

Record Volume : Type := { volumeName : string; Source : VolumeSource }.

Record PodSpec : Type := {
  InitContainers : list Container;
  Containers : list Container;
  Volumes : list Volume;
}.

Record Pod : Type := {
  PodMeta : ObjectMeta;
  PodSpecOf : PodSpec;
  PodIP : string;                     (* pod.Status.PodIP *)
}.

Record ConfigMap : Type := {
  ConfigMapMeta : ObjectMeta;
  Data : gmap string string;
}.

Record ListOptions : Type := {
  InNamespace : string;
  MatchingLabels : gmap string string;
}.

Record DatabaseConfiguration : Type := {
  confReplicationMode : string;
  confStorageEngine : string;
}.

(** The zero value [fdbtypes.FoundationDBCluster{}]. *)
Definition zeroMeta : ObjectMeta :=
  {| Name := ""; Namespace := ""; UID := ""; Labels := ∅; OwnerReferences := [] |}.

Definition zeroCluster : FoundationDBCluster :=
  {| APIVersion := ""; Kind := ""; ClusterMeta := zeroMeta;
     Spec := {| Version := ""; ProcessCounts := ∅; ConnectionString := "";
                NextInstanceID := 0; ReplicationMode := ""; StorageEngine := "";
                Configured := false |} |}.

(** Field assignments through the [cluster] pointer. *)
Definition withSpec (c : FoundationDBCluster) (s : FoundationDBClusterSpec) : FoundationDBCluster :=
  {| APIVersion := APIVersion c; Kind := Kind c; ClusterMeta := ClusterMeta c; Spec := s |}.

Definition setReplicationMode (v : string) (c : FoundationDBCluster) : FoundationDBCluster :=
  let s := Spec c in
  withSpec c {| Version := Version s; ProcessCounts := ProcessCounts s;
                ConnectionString := ConnectionString s; NextInstanceID := NextInstanceID s;
                ReplicationMode := v; StorageEngine := StorageEngine s;
                Configured := Configured s |}.

Definition setStorageEngine (v : string) (c : FoundationDBCluster) : FoundationDBCluster :=
  let s := Spec c in
  withSpec c {| Version := Version s; ProcessCounts := ProcessCounts s;
                ConnectionString := ConnectionString s; NextInstanceID := NextInstanceID s;
                ReplicationMode := ReplicationMode s; StorageEngine := v;
                Configured := Configured s |}.

Definition setConnectionString (v : string) (c : FoundationDBCluster) : FoundationDBCluster :=
  let s := Spec c in
  withSpec c {| Version := Version s; ProcessCounts := ProcessCounts s;
                ConnectionString := v; NextInstanceID := NextInstanceID s;
                ReplicationMode := ReplicationMode s; StorageEngine := StorageEngine s;
                Configured := Configured s |}.

Definition setNextInstanceID (v : Z) (c : FoundationDBCluster) : FoundationDBCluster :=
  let s := Spec c in
  withSpec c {| Version := Version s; ProcessCounts := ProcessCounts s;
                ConnectionString := ConnectionString s; NextInstanceID := v;
                ReplicationMode := ReplicationMode s; StorageEngine := StorageEngine s;
                Configured := Configured s |}.

Definition setConfigured (v : bool) (c : FoundationDBCluster) : FoundationDBCluster :=
  let s := Spec c in
  withSpec c {| Version := Version s; ProcessCounts := ProcessCounts s;
                ConnectionString := ConnectionString s; NextInstanceID := NextInstanceID s;
                ReplicationMode := ReplicationMode s; StorageEngine := StorageEngine s;
                Configured := v |}.

(** *** Package variables *)

Definition processClasses : list string := ["storage"].

Definition DockerImageRoot : string := "foundationdb".

(** [connectionStringNameRegex], the character class [[^A-Za-z0-9_]].
    Resource names are restricted by the platform to ASCII, so a
    character of the name is one byte here. *)
Definition connectionStringNameRegex (c : ascii) : bool :=
  let n := N_of_ascii c in
  negb (((65 <=? n)%N && (n <=? 90)%N) || ((97 <=? n)%N && (n <=? 122)%N)
        || ((48 <=? n)%N && (n <=? 57)%N) || (n =? 95)%N).

(** [regexp.ReplaceAllString] for a regular expression that is one
    character class. *)
Fixpoint ReplaceAllString (class : ascii -> bool) (src repl : string) : string :=
  match src with
  | EmptyString => EmptyString
  | String c r =>
      (if class c then repl else String c EmptyString) +:+ ReplaceAllString class r repl
  end.

(** [strings.NewReplacer(pairs...).Replace]: matches are replaced in the
    order they appear in the target, without overlap; at a position the
    old strings are compared in argument order.  [skip] counts the
    characters of a match still to be dropped.  All old strings of the
    callers are non-empty. *)
Definition matchAt (pairs : list (string * string)) (s : string) : option (string * string) :=
  List.find (fun p => String.prefix (fst p) s) pairs.

Fixpoint ReplacerReplace (pairs : list (string * string)) (skip : nat) (s : string) : string :=
  match s with
  | EmptyString => EmptyString
  | String c r =>
      match skip with
      | S k => ReplacerReplace pairs k r
      | O =>
          match matchAt pairs s with
          | Some (old, new) => new +:+ ReplacerReplace pairs (String.length old - 1) r
          | None => String c (ReplacerReplace pairs 0 r)
          end
      end
  end.

(** *** Builders *)

Definition buildOwnerReference (cluster : FoundationDBCluster) : list OwnerReference :=
  let isController := true in
  [ {| refAPIVersion := APIVersion cluster;
       refKind := Kind cluster;
       refName := Name (ClusterMeta cluster);
       refUID := UID (ClusterMeta cluster);
       refController := Some isController |} ].

Definition getPodLabels (cluster : FoundationDBCluster) (processClass : string) : gmap string string :=
  let labels : gmap string string := {[ "fdb-cluster-name" := Name (ClusterMeta cluster) ]} in
  if decide (processClass ≠ "") then <[ "fdb-process-class" := processClass ]> labels
  else labels.

Definition getPodListOptions (cluster : FoundationDBCluster) (processClass : string) : ListOptions :=
  {| InNamespace := Namespace (ClusterMeta cluster);
     MatchingLabels := getPodLabels cluster processClass |}.

(** [GetMonitorConf] builds the monitor conf template. *)
Definition GetMonitorConf (cluster : FoundationDBCluster) (processClass : string) : string :=
  let confLines : list string := [] in
  let confLines := confLines ++
    [ "[general]";
      "kill_on_configuration_change = false";
      "restart_delay = 60" ] in
  let confLines := confLines ++
    [ "[fdbserver.1]";
      "command = /var/dynamic-conf/bin/" +:+ Version (Spec cluster) +:+ "/fdbserver";
      "cluster_file = /var/fdb/data/fdb.cluster";
      "seed_cluster_file = /var/dynamic-conf/fdb.cluster";
      "public_address = $FDB_PUBLIC_IP:4500";
      "class = " +:+ processClass;
      "datadir = /var/fdb/data";
      "logdir = /var/log/fdb-trace-logs";
      "loggroup = " +:+ Name (ClusterMeta cluster);
      "locality_machineid = $HOSTNAME";
      "locality_zoneid = $HOSTNAME" ] in
  Join confLines (String (ascii_of_N 10) EmptyString).

(** [GetPodMonitorConf] builds the monitor conf for a specific pod. *)
Definition GetPodMonitorConf (cluster : FoundationDBCluster) (pod : Pod) : string :=
  let template :=
    GetMonitorConf cluster (default "" (Labels (PodMeta pod) !! "fdb-process-class")) in
  ReplacerReplace [("$FDB_PUBLIC_IP", PodIP pod); ("$HOSTNAME", Name (PodMeta pod))] 0 template.

(** [encoding/json]: the values [GetConfigMap] marshals are strings and
    slices of strings without any character that needs escaping.
    A Go map has no iteration order; [json.Marshal] writes its keys in
    sorted order. *)
Inductive JSONValue : Type :=
| JSONString (s : string)
| JSONStrings (l : list string).

Definition doubleQuote : string := String (ascii_of_N 34) EmptyString.

Definition jsonQuote (s : string) : string := doubleQuote +:+ s +:+ doubleQuote.

Definition jsonValue (v : JSONValue) : string :=
  match v with
  | JSONString s => jsonQuote s
  | JSONStrings l => "[" +:+ Join (map jsonQuote l) "," +:+ "]"
  end.

Definition keyLe (a b : string * JSONValue) : Prop := Is_true (String.leb (fst a) (fst b)).

#[global] Instance keyLe_dec : RelDecision keyLe.
Proof. intros a b. unfold keyLe. apply _. Defined.

Definition jsonMarshal (m : gmap string JSONValue) : string * option error :=
  ("{" +:+ Join (map (fun kv => jsonQuote (fst kv) +:+ ":" +:+ jsonValue (snd kv))
                     (merge_sort keyLe (map_to_list m))) ","
       +:+ "}", None).

(** The loop of [GetConfigMap] over [processClasses]. *)
Fixpoint monitorConfEntries (cluster : FoundationDBCluster) (connectionString : string)
    (classes : list string) (data : gmap string string) : gmap string string :=
  match classes with
  | [] => data
  | processClass :: rest =>
      let filename := "fdbmonitor-conf-" +:+ processClass in
      let data :=
        if decide (connectionString = "") then <[ filename := "" ]> data
        else <[ filename := GetMonitorConf cluster processClass ]> data in
      monitorConfEntries cluster connectionString rest data
  end.

(** [GetConfigMap] builds a config map for a cluster's dynamic config. *)
Definition GetConfigMap (cluster : FoundationDBCluster) : option ConfigMap * option error :=
  let data : gmap string string := ∅ in
  let connectionString := ConnectionString (Spec cluster) in
  let data := <[ "cluster-file" := connectionString ]> data in
  let data := monitorConfEntries cluster connectionString processClasses data in
  let sidecarConf : gmap string JSONValue :=
    {[ "COPY_BINARIES" := JSONStrings ["fdbserver"; "fdbcli"];
       "COPY_FILES" := JSONStrings ["fdb.cluster"];
       "COPY_LIBRARIES" := JSONStrings [];
       "INPUT_MONITOR_CONF" := JSONString "fdbmonitor.conf" ]} in
  let '(sidecarConfData, err) := jsonMarshal sidecarConf in
  match err with
  | Some e => (None, Some e)
  | None =>
      let data := <[ "sidecar-conf" := sidecarConfData ]> data in
      (Some {| ConfigMapMeta :=
                 {| Namespace := Namespace (ClusterMeta cluster);
                    Name := Name (ClusterMeta cluster) +:+ "-config";
                    UID := "";
                    Labels := {[ "fdb-cluster-name" := Name (ClusterMeta cluster) ]};
                    OwnerReferences := buildOwnerReference cluster |};
               Data := data |}, None)
  end.

(** [GetPodSpec] builds a pod spec for a FoundationDB pod. *)
Definition GetPodSpec (cluster : FoundationDBCluster) (processClass : string) : PodSpec :=
  let mainContainer :=
    {| containerName := "foundationdb";
       Image := DockerImageRoot +:+ "/foundationdb:" +:+ Version (Spec cluster);
       Env := [ {| envName := "FDB_CLUSTER_FILE"; envValue := "/var/dynamic-conf/fdb.cluster" |} ];
       Command := ["sh"; "-c"];
       Args := [ "fdbmonitor --conffile /var/dynamic-conf/fdbmonitor.conf"
                 +:+ " --lockfile /var/fdb/fdbmonitor.lockfile" ];
       VolumeMounts :=
         [ {| mountName := "data"; MountPath := "/var/fdb/data" |};
           {| mountName := "dynamic-conf"; MountPath := "/var/dynamic-conf" |};
           {| mountName := "fdb-trace-logs"; MountPath := "/var/log/fdb-trace-logs" |} ] |} in
  let initContainer :=
    {| containerName := "foundationdb-kubernetes-init";
       Image := DockerImageRoot +:+ "/foundationdb-kubernetes-sidecar:" +:+ Version (Spec cluster);
       Env := [ {| envName := "COPY_ONCE"; envValue := "1" |};
                {| envName := "SIDECAR_CONF_DIR"; envValue := "/var/input-files" |} ];
       Command := [];
       Args := [];
       VolumeMounts :=
         [ {| mountName := "config-map"; MountPath := "/var/input-files" |};
           {| mountName := "dynamic-conf"; MountPath := "/var/output-files" |} ] |} in
  let sidecarContainer :=
    {| containerName := "foundationdb-kubernetes-sidecar";
       Image := Image initContainer;
       Env := drop 1 (Env initContainer);
       Command := [];
       Args := [];
       VolumeMounts := VolumeMounts initContainer |} in
  let volumes :=
    [ {| volumeName := "data"; Source := EmptyDir |};
      {| volumeName := "dynamic-conf"; Source := EmptyDir |};
      {| volumeName := "config-map";
         Source := ConfigMapSource (Name (ClusterMeta cluster) +:+ "-config")
           [ {| Key := "fdbmonitor-conf-" +:+ processClass; Path := "fdbmonitor.conf" |};
             {| Key := "cluster-file"; Path := "fdb.cluster" |};
             {| Key := "sidecar-conf"; Path := "config.json" |} ] |};
      {| volumeName := "fdb-trace-logs"; Source := EmptyDir |} ] in
  {| InitContainers := [initContainer];
     Containers := [mainContainer; sidecarContainer];
     Volumes := volumes |}.

(** [GetPod] builds a pod for a new instance. *)
Definition GetPod (cluster : FoundationDBCluster) (processClass : string) (id : Z) : Pod :=
  let name := Name (ClusterMeta cluster) +:+ "-" +:+ Itoa id in
  let podLabels : gmap string string :=
    {[ "fdb-cluster-name" := Name (ClusterMeta cluster);
       "fdb-process-class" := processClass;
       "fdb-instance-id" := Itoa id ]} in
  {| PodMeta := {| Name := name;
                   Namespace := Namespace (ClusterMeta cluster);
                   UID := "";
                   Labels := podLabels;
                   OwnerReferences := buildOwnerReference cluster |};
     PodSpecOf := GetPodSpec cluster processClass;
     PodIP := "" |}.

(** *** The reconciler and its collaborators *)

Inductive Object : Type :=
| ClusterObject (c : FoundationDBCluster)
| ConfigMapObject (m : ConfigMap)
| PodObject (p : Pod).

Inductive ObjectKind : Type := ClusterKind | ConfigMapKind | PodKind.

(** One entry of the call log: a request made to the platform client
    ([client.Client]), to one of the reconciler's providers, or to a
    collaborator reached through them. *)
Inductive Call (FdbPodClient AdminClient : Type) : Type :=
| ClientGet (k : ObjectKind) (key : NamespacedName)
| ClientList (opts : ListOptions)
| ClientCreate (o : Object)
| ClientUpdate (o : Object)
| ClientDelete (o : Object)
| PodClientProvider (c : FoundationDBCluster) (p : Pod)
| AdminClientProvider (c : FoundationDBCluster)
| UpdateDynamicFilesCall (client : FdbPodClient) (filename contents : string)
| ConfigureDatabaseCall (client : AdminClient) (conf : DatabaseConfiguration) (initial : bool)
| Sleep.
Arguments ClientGet {_ _} k key.
Arguments ClientList {_ _} opts.
Arguments ClientCreate {_ _} o.
Arguments ClientUpdate {_ _} o.
Arguments ClientDelete {_ _} o.
Arguments PodClientProvider {_ _} c p.
Arguments AdminClientProvider {_ _} c.
Arguments UpdateDynamicFilesCall {_ _} client filename contents.
Arguments ConfigureDatabaseCall {_ _} client conf initial.
Arguments Sleep {_ _}.

(** The platform seen from the reconciler: every operation may read and
    change the world [W] and may fail.  The API-type methods
    [DesiredProcessCount] and [DesiredCoordinatorCount], the pod client
    and [UpdateDynamicFiles] belong to files that are not among the
    sources; they are taken as they are declared.  [create] and [update]
    answer with an error or nil: what the server writes back into the
    object passed (its resource version) is not among the fields kept
    here.  [nextReady n] is the scheduler: of [n] goroutines sending on
    one channel, which one the receiver hears first. *)
Class Platform (W FdbPodClient AdminClient : Type) : Type := {
  getCluster : NamespacedName -> W -> W * (FoundationDBCluster + error);
  getConfigMap : NamespacedName -> W -> W * (ConfigMap + error);
  getPod : NamespacedName -> W -> W * (Pod + error);
  listPods : ListOptions -> W -> W * (list Pod + error);
  create : Object -> W -> W * option error;
  update : Object -> W -> W * option error;
  podClientProvider : FoundationDBCluster -> Pod -> W -> W * (FdbPodClient + error);
  adminClientProvider : FoundationDBCluster -> W -> W * (AdminClient + error);
  GetPodIP : FdbPodClient -> string;
  UpdateDynamicFiles : FdbPodClient -> string -> string -> W -> W * option error;
  ConfigureDatabase : AdminClient -> DatabaseConfiguration -> bool -> W -> W * option error;
  DesiredProcessCount : FoundationDBCluster -> string -> Z;
  DesiredCoordinatorCount : FoundationDBCluster -> Z;
  nextReady : nat -> W -> W * nat;
}.

Section Reconciler.

Context {W FdbPodClient AdminClient : Type}.
Context {platform : Platform W FdbPodClient AdminClient}.

(** How many times a goroutine of [getPodClient] may find its pod without
    an address before the model stops following it. *)
Variable patience : nat.

(** What a method of the reconciler works on: the world behind the
    platform client, the object behind the [cluster] pointer, and the log
    of the calls made so far. *)
Record State : Type := {
  world : W;
  cluster : FoundationDBCluster;
  log : list (Call FdbPodClient AdminClient);
}.

(** The body of a function that returns [R]. *)
Definition Body (R : Type) : Type := M State R R.

Definition perform {R A} (c : Call FdbPodClient AdminClient) (f : W -> W * A) : M State R A :=
  fun s =>
    let '(w, a) := f (world s) in
    ({| world := w; cluster := cluster s; log := log s ++ [c] |}, Next a).

Definition schedule {R} (n : nat) : M State R nat :=
  fun s =>
    let '(w, k) := nextReady n (world s) in
    ({| world := w; cluster := cluster s; log := log s |}, Next k).

Definition assign {R} (f : FoundationDBCluster -> FoundationDBCluster) : M State R unit :=
  modify (fun s => {| world := world s; cluster := f (cluster s); log := log s |}).

(** [if err != nil { return err }] *)
Definition check (err : option error) : M State (option error) unit :=
  match err with
  | Some e => exit (Some e)
  | None => mret tt
  end.

Definition orReturn {A} (r : A + error) : M State (option error) A :=
  match r with
  | inl a => mret a
  | inr e => exit (Some e)
  end.

(** [go f(...)]: the goroutine is run to its first message; one that is
    still waiting when the model stops following it delivers nothing. *)
Definition spawn {R A} (body : M State A A) : M State R (option A) :=
  fun s =>
    match run body s with
    | (s', Returned a) => (s', Next (Some a))
    | (s', Panicked msg) => (s', Panic msg)
    | (s', Waiting) => (s', Next None)
    end.

Definition keyOf (m : ObjectMeta) : NamespacedName :=
  {| nnNamespace := Namespace m; nnName := Name m |}.

(** [getPodClient]: the message it sends is the client (on [clientChan])
    or an error (on [errorChan]); the pod behind the pointer is returned
    too, since [r.Get] refreshes it in place. *)
Fixpoint getPodClientLoop (n : nat) (c : FoundationDBCluster) (pod : Pod)
    (res : FdbPodClient + error) : M State (Pod * (FdbPodClient + error)) (Pod * (FdbPodClient + error)) :=
  match res with
  | inl client => mret (pod, inl client)
  | inr err =>
      if decide (err = fdbPodClientErrorNoIP) then
        match n with
        | O => block
        | S n' =>
            perform Sleep (fun w => (w, tt));;
            r ← perform (ClientGet PodKind (keyOf (PodMeta pod))) (getPod (keyOf (PodMeta pod)));
            match r with
            | inr err' => exit (pod, inr err')
            | inl pod' =>
                res' ← perform (PodClientProvider c pod') (podClientProvider c pod');
                getPodClientLoop n' c pod' res'
            end
        end
      else exit (pod, inr err)
  end.

Definition getPodClient (c : FoundationDBCluster) (pod : Pod)
    : M State (Pod * (FdbPodClient + error)) (Pod * (FdbPodClient + error)) :=
  res ← perform (PodClientProvider c pod) (podClientProvider c pod);
  getPodClientLoop patience c pod res.

(** [updatePodDynamicConf]: the value is the first message on [signal]. *)
Definition updatePodDynamicConf (c : FoundationDBCluster) (pod : Pod) : Body (option error) :=
  got ← spawn (getPodClient c pod);
  match got with
  | None => block
  | Some (_, inr err) => exit (Some err)
  | Some (pod, inl client) =>
      e1 ← perform (UpdateDynamicFilesCall client "fdbmonitor.conf" (GetPodMonitorConf c pod))
             (UpdateDynamicFiles client "fdbmonitor.conf" (GetPodMonitorConf c pod));
      e2 ← perform (UpdateDynamicFilesCall client "fdb.cluster" (ConnectionString (Spec c)))
             (UpdateDynamicFiles client "fdb.cluster" (ConnectionString (Spec c)));
      match e1, e2 with
      | Some e, _ => exit (Some e)
      | None, Some e => exit (Some e)
      | None, None => mret None
      end
  end.

(** The first loop of [updateConfigMap]: one goroutine per pod. *)
Fixpoint startPodUpdates (c : FoundationDBCluster) (pods : list Pod)
    : M State (option error) (list (option (option error))) :=
  match pods with
  | [] => mret []
  | pod :: rest =>
      signal ← spawn (updatePodDynamicConf c pod);
      signals ← startPodUpdates c rest;
      mret (signal :: signals)
  end.

(** The second loop: [err = <-podUpdate; if err != nil { return err }]. *)
Fixpoint awaitPodUpdates (podUpdates : list (option (option error))) : M State (option error) unit :=
  match podUpdates with
  | [] => mret tt
  | None :: _ => block
  | Some err :: rest => check err;; awaitPodUpdates rest
  end.

Definition setDefaultValues : Body (option error) :=
  c ← gets cluster;
  let changed := false in
  let '(c, changed) :=
    if decide (ReplicationMode (Spec c) = "") then (setReplicationMode "double" c, true)
    else (c, changed) in
  let '(c, changed) :=
    if decide (StorageEngine (Spec c) = "") then (setStorageEngine "ssd" c, true)
    else (c, changed) in
  assign (fun _ => c);;
  if changed then
    err ← perform (ClientUpdate (ClusterObject c)) (update (ClusterObject c));
    check err;;
    r ← perform (ClientGet ClusterKind (keyOf (ClusterMeta c))) (getCluster (keyOf (ClusterMeta c)));
    c' ← orReturn r;
    assign (fun _ => c');;
    mret None
  else mret None.

Definition updateConfigMap : Body (option error) :=
  c ← gets cluster;
  let '(configMap, err) := GetConfigMap c in
  check err;;
  match configMap with
  | None => panic "nil pointer dereference"
  | Some configMap =>
      let key := keyOf (ConfigMapMeta configMap) in
      r ← perform (ClientGet ConfigMapKind key) (getConfigMap key);
      match r with
      | inr err =>
          if IsNotFound err then
            err ← perform (ClientCreate (ConfigMapObject configMap)) (create (ConfigMapObject configMap));
            exit err
          else exit (Some err)
      | inl existing =>
          (if decide (Data existing ≠ Data configMap
                      ∨ Labels (ConfigMapMeta existing) ≠ Labels (ConfigMapMeta configMap)) then
             let m := ConfigMapMeta existing in
             let existing :=
               {| ConfigMapMeta := {| Name := Name m; Namespace := Namespace m; UID := UID m;
                                      Labels := Labels (ConfigMapMeta configMap);
                                      OwnerReferences := OwnerReferences m |};
                  Data := Data configMap |} in
             err ← perform (ClientUpdate (ConfigMapObject existing)) (update (ConfigMapObject existing));
             check err
           else mret tt);;
          r ← perform (ClientList (getPodListOptions c "")) (listPods (getPodListOptions c ""));
          pods ← orReturn r;
          podUpdates ← startPodUpdates c pods;
          awaitPodUpdates podUpdates;;
          mret None
      end
  end.

(** The creation loop of [addPods]:
    [for i := 0; i < newCount; i++ { Create(GetPod(..., id)); id++ }]. *)
Fixpoint createPods (n : nat) (c : FoundationDBCluster) (processClass : string) (id : Z)
    : M State (option error) Z :=
  match n with
  | O => mret id
  | S n' =>
      err ← perform (ClientCreate (PodObject (GetPod c processClass id)))
              (create (PodObject (GetPod c processClass id)));
      check err;;
      createPods n' c processClass (int_add id 1)
  end.

Definition addPods : Body (option error) :=
  for_range processClasses (fun processClass =>
    c ← gets cluster;
    r ← perform (ClientList (getPodListOptions c processClass))
          (listPods (getPodListOptions c processClass));
    existingPods ← orReturn r;
    let desiredCount := DesiredProcessCount c processClass in
    let newCount := int_sub desiredCount (Z.of_nat (length existingPods)) in
    if 0 <? newCount then
      let id := NextInstanceID (Spec c) in
      let id := if id <? 1 then 1 else id in
      id ← createPods (Z.to_nat newCount) c processClass id;
      assign (setNextInstanceID id);;
      c ← gets cluster;
      err ← perform (ClientUpdate (ClusterObject c)) (update (ClusterObject c));
      check err
    else mret tt);;
  mret None.

(** Removing the [k]-th element (modulo the length) of a list. *)
Definition takeOut {A} (k : nat) (l : list A) : option (A * list A) :=
  let i := (k mod length l)%nat in
  match l !! i with
  | Some a => Some (a, take i l ++ drop (S i) l)
  | None => None
  end.

(** The receiving loop of [generateInitialClusterFile]: [waiting] are the
    pods whose goroutine has not been heard yet, [i] is the loop index. *)
Fixpoint recruitCoordinators (n : nat) (i : nat) (c : FoundationDBCluster)
    (waiting : list Pod) (connectionString : string) : M State (option error) string :=
  match n with
  | O => mret connectionString
  | S n' =>
      k ← schedule (length waiting);
      match takeOut k waiting with
      | None => block
      | Some (pod, waiting) =>
          got ← spawn (getPodClient c pod);
          match got with
          | None => block
          | Some (_, inr err) => exit (Some err)
          | Some (_, inl client) =>
              let connectionString :=
                if decide (i = 0%nat) then connectionString +:+ "@"
                else connectionString +:+ "," in
              let connectionString := connectionString +:+ GetPodIP client +:+ ":4500" in
              recruitCoordinators n' (S i) c waiting connectionString
          end
      end
  end.

Definition generateInitialClusterFile : Body (option error) :=
  c ← gets cluster;
  if decide (ConnectionString (Spec c) = "") then
    r ← perform (ClientList (getPodListOptions c "storage")) (listPods (getPodListOptions c "storage"));
    pods ← orReturn r;
    let count := DesiredCoordinatorCount c in
    if Z.of_nat (length pods) <? count then
      exit (Some (ErrorString "Cannot find enough pods to recruit coordinators"))
    else if count <? 0 then panic "makechan: size out of range"
    else
      let clusterName := ReplaceAllString connectionStringNameRegex (Name (ClusterMeta c)) "_" in
      let connectionString := clusterName +:+ ":init" in
      connectionString ←
        recruitCoordinators (Z.to_nat count) 0 c (take (Z.to_nat count) pods) connectionString;
      assign (setConnectionString connectionString);;
      c ← gets cluster;
      err ← perform (ClientUpdate (ClusterObject c)) (update (ClusterObject c));
      check err;;
      call updateConfigMap
  else mret None.

Definition updateDatabaseConfiguration : Body (option error) :=
  c ← gets cluster;
  if negb (Configured (Spec c)) then
    r ← perform (AdminClientProvider c) (adminClientProvider c);
    adminClient ← orReturn r;
    let conf := {| confReplicationMode := ReplicationMode (Spec c);
                   confStorageEngine := StorageEngine (Spec c) |} in
    err ← perform (ConfigureDatabaseCall adminClient conf true) (ConfigureDatabase adminClient conf true);
    check err;;
    assign (setConfigured true);;
    c ← gets cluster;
    err ← perform (ClientUpdate (ClusterObject c)) (update (ClusterObject c));
    check err;;
    mret None
  else mret None.

(** [Reconcile]: the result is the error of the pair
    [(reconcile.Result, error)]; the [reconcile.Result] is always the
    zero value. *)
Definition Reconcile (request : NamespacedName) : Body (option error) :=
  assign (fun _ => zeroCluster);;
  r ← perform (ClientGet ClusterKind request) (getCluster request);
  match r with
  | inr err => if IsNotFound err then exit None else exit (Some err)
  | inl c =>
      assign (fun _ => c);;
      err ← call setDefaultValues; check err;;
      err ← call updateConfigMap; check err;;
      err ← call addPods; check err;;
      err ← call generateInitialClusterFile; check err;;
      err ← call updateDatabaseConfiguration; check err;;
      mret None
  end.

End Reconciler.

Arguments State : clear implicits.

End Legacy.

(* ===================================================================== *)
(** ** controllers/: the step-based controller *)
(* ===================================================================== *)

Module Controllers.

Section Steps.

(** [fdbtypes.PendingRemovalState] and [corev1.Pod] are used by the two
    steps only as opaque values. *)
Context {PendingRemovalState Pod : Type}.

Record NamespacedName : Type := {
  nnNamespace : string;
  nnName : string;
}.

Record OwnerReference : Type := { refName : string; refUID : string }.

(** [Annotations] is a Go map that the steps read and write by key:
    [None] is the nil map, which reads as empty and cannot be written.
    [Labels] is only compared and assigned as a whole. *)
Record ObjectMeta : Type := {
  Name : string;
  Namespace : string;
  UID : string;
  Labels : gmap string string;
  Annotations : option (gmap string string);
  OwnerReferences : list OwnerReference;
}.

(** The fields of the cluster the two steps read or write; the builders
    that read the rest of the spec are outside the sources and receive
    the whole object. *)
Record FoundationDBClusterSpec : Type := {
  Version : string;
  InstanceIDPrefix : string;
  UpdatePodsByReplacement : bool;
}.

(** [PendingRemovals] is a Go map: [None] is the nil map. *)
Record FoundationDBClusterStatus : Type := {
  PendingRemovals : option (gmap string PendingRemovalState);
}.

Record FoundationDBCluster : Type := {
  ClusterMeta : ObjectMeta;
  Spec : FoundationDBClusterSpec;
  Status : FoundationDBClusterStatus;
}.

Definition setPendingRemovals (v : option (gmap string PendingRemovalState))
    (c : FoundationDBCluster) : FoundationDBCluster :=
  {| ClusterMeta := ClusterMeta c; Spec := Spec c; Status := {| PendingRemovals := v |} |}.

Record ConfigMap : Type := {
  ConfigMapMeta : ObjectMeta;
  Data : gmap string string;
}.

Record PersistentVolumeClaimSpec : Type := {
  AccessModes : list string;
  StorageClassName : option string;
  StorageRequest : string;
}.

Record PersistentVolumeClaim : Type := {
  ClaimMeta : ObjectMeta;
  ClaimSpec : PersistentVolumeClaimSpec;
}.

(** [FdbInstance]: [InstancePod] is the [Pod] pointer, [None] when nil. *)
Record FdbInstance : Type := {
  Metadata : ObjectMeta;
  InstancePod : option Pod;
}.

Record ListOptions : Type := {
  InNamespace : string;
  MatchingLabels : gmap string string;
}.

(** [m.Annotations[key] = value] on an allocated map. *)
Definition setAnnotation (key value : string) (m : ObjectMeta) : ObjectMeta :=
  {| Name := Name m; Namespace := Namespace m; UID := UID m; Labels := Labels m;
     Annotations := Some (<[ key := value ]> (default ∅ (Annotations m)));
     OwnerReferences := OwnerReferences m |}.

Definition setLabels (labels : gmap string string) (m : ObjectMeta) : ObjectMeta :=
  {| Name := Name m; Namespace := Namespace m; UID := UID m; Labels := labels;
     Annotations := Annotations m;
     OwnerReferences := OwnerReferences m |}.

(** Reading a Go map of strings: a missing key, and every key of a nil
    map, reads as the empty string. *)
Definition index (m : option (gmap string string)) (key : string) : string :=
  default "" (m ≫= (.!! key)).

Inductive Call : Type :=
| GetConfigMapCall (c : FoundationDBCluster)
| ClientGet (key : NamespacedName)
| ClientCreate (m : ConfigMap)
| ClientUpdate (m : ConfigMap)
| ClientListClaims (opts : ListOptions)
| StatusUpdate (c : FoundationDBCluster)
| GetInstances (c : FoundationDBCluster) (opts : ListOptions)
| UpdateMetadata (c : FoundationDBCluster) (instance : FdbInstance)
| RecorderEvent (c : FoundationDBCluster) (eventtype reason message : string)
| UpdatePodDynamicConf (c : FoundationDBCluster) (instance : FdbInstance).

(** The reconciler ([FoundationDBClusterReconciler]: its client, its
    [PodLifecycleManager], its recorder and its own methods) and the
    functions of the package that the two steps call and that are not
    among the sources, as they are declared. *)
Class Reconciler (W : Type) : Type := {
  (* client.Client *)
  getConfigMap : NamespacedName -> W -> W * (ConfigMap + error);
  create : ConfigMap -> W -> W * option error;
  update : ConfigMap -> W -> W * option error;
  listClaims : ListOptions -> W -> W * (list PersistentVolumeClaim + error);
  statusUpdate : FoundationDBCluster -> W -> W * option error;
  (* r.PodLifecycleManager *)
  getInstances : FoundationDBCluster -> ListOptions -> W -> W * (list FdbInstance + error);
  updateMetadata : FoundationDBCluster -> FdbInstance -> W -> W * option error;
  (* r.Recorder *)
  recordEvent : FoundationDBCluster -> string -> string -> string -> W -> W;
  (* methods of the reconciler *)
  updatePodDynamicConf : FoundationDBCluster -> FdbInstance -> W -> W * (bool * option error);
  getPendingRemovalState : FdbInstance -> PendingRemovalState;
  (* functions and constants of the package *)
  GetConfigMap : FoundationDBCluster -> W -> W * (ConfigMap + error);
  mergeAnnotations : ObjectMeta -> ObjectMeta -> ObjectMeta * bool;
  GetDynamicConfHash : ConfigMap -> string * option error;
  getPodListOptions : FoundationDBCluster -> string -> string -> ListOptions;
  getSinglePodListOptions : FoundationDBCluster -> string -> ListOptions;
  GetInstanceIDFromMeta : ObjectMeta -> string;
  GetProcessClassFromMeta : ObjectMeta -> string;
  GetInstanceID : FdbInstance -> string;
  GetProcessClass : FdbInstance -> string;
  ParseInstanceID : string -> string * Z * option error;
  getInstanceID : FoundationDBCluster -> string -> Z -> string * string;
  GetPvc : FoundationDBCluster -> string -> Z -> option PersistentVolumeClaim * option error;
  GetJSONHash : PersistentVolumeClaimSpec -> string * option error;
  GetPodSpecHash : FoundationDBCluster -> string -> Z -> string * option error;
  LastSpecKey : string;
  LastConfigMapKey : string;
}.

Context {W : Type} {reconciler : Reconciler W}.

Record State : Type := {
  world : W;
  cluster : FoundationDBCluster;
  log : list Call;
}.

(** A step returns [(bool, error)]. *)
Definition StepResult : Type := bool * option error.

Definition Body : Type := M State StepResult StepResult.

Definition perform {A} (c : Call) (f : W -> W * A) : M State StepResult A :=
  fun s =>
    let '(w, a) := f (world s) in
    ({| world := w; cluster := cluster s; log := log s ++ [c] |}, Next a).

Definition assign (f : FoundationDBCluster -> FoundationDBCluster) : M State StepResult unit :=
  modify (fun s => {| world := world s; cluster := f (cluster s); log := log s |}).

(** [if err != nil { return false, err }] *)
Definition check (err : option error) : M State StepResult unit :=
  match err with
  | Some e => exit (false, Some e)
  | None => mret tt
  end.

Definition orReturn {A} (r : A + error) : M State StepResult A :=
  match r with
  | inl a => mret a
  | inr e => exit (false, Some e)
  end.

(** A [for ... range] loop that updates local variables [L]. *)
Fixpoint forRange {X L} (l : list X) (body : X -> L -> M State StepResult L) (locals : L)
    : M State StepResult L :=
  match l with
  | [] => mret locals
  | x :: rest => locals ← body x locals; forRange rest body locals
  end.

(** *** update_config_map.go *)

Definition syncInstance (c : FoundationDBCluster) (configMapHash : string)
    (instance : FdbInstance) (_ : unit) : M State StepResult unit :=
  if decide (index (Annotations (Metadata instance)) LastConfigMapKey ≠ configMapHash) then
    '(synced, err) ← perform (UpdatePodDynamicConf c instance) (updatePodDynamicConf c instance);
    if negb synced then exit (synced, err)
    else
      match Annotations (Metadata instance) with
      | None => panic "assignment to entry in nil map"
      | Some _ =>
          let instance :=
            {| Metadata := setAnnotation LastConfigMapKey configMapHash (Metadata instance);
               InstancePod := InstancePod instance |} in
          err ← perform (UpdateMetadata c instance) (updateMetadata c instance);
          check err
      end
  else mret tt.

Definition UpdateConfigMap_Reconcile : Body :=
  c ← gets cluster;
  r ← perform (GetConfigMapCall c) (GetConfigMap c);
  configMap ← orReturn r;
  let key := {| nnNamespace := Namespace (ConfigMapMeta configMap);
                nnName := Name (ConfigMapMeta configMap) |} in
  r ← perform (ClientGet key) (getConfigMap key);
  match r with
  | inr err =>
      if IsNotFound err then
        err ← perform (ClientCreate configMap) (create configMap);
        exit (bool_decide (err = None), err)
      else exit (false, Some err)
  | inl existing =>
      let metadataCorrect := true in
      let '(existingMeta, metadataCorrect) :=
        if decide (Labels (ConfigMapMeta existing) ≠ Labels (ConfigMapMeta configMap))
        then (setLabels (Labels (ConfigMapMeta configMap)) (ConfigMapMeta existing), false)
        else (ConfigMapMeta existing, metadataCorrect) in
      let '(existingMeta, merged) := mergeAnnotations existingMeta (ConfigMapMeta configMap) in
      let metadataCorrect := if merged then false else metadataCorrect in
      (if bool_decide (Data existing ≠ Data configMap) || negb metadataCorrect then
         perform (RecorderEvent c "Normal" "UpdatingConfigMap" "")
                 (fun w => (recordEvent c "Normal" "UpdatingConfigMap" "" w, tt));;
         let existing := {| ConfigMapMeta := existingMeta; Data := Data configMap |} in
         err ← perform (ClientUpdate existing) (update existing);
         check err
       else mret tt);;
      let '(configMapHash, err) := GetDynamicConfHash configMap in
      check err;;
      r ← perform (GetInstances c (getPodListOptions c "" "")) (getInstances c (getPodListOptions c "" ""));
      instances ← orReturn r;
      forRange instances (syncInstance c configMapHash) tt;;
      mret (true, None)
  end.

(** *** replace_misconfigured_pods.go *)

(** The local variables of [ReplaceMisconfiguredPods.Reconcile]. *)
Record Locals : Type := {
  removals : gmap string PendingRemovalState;
  hasNewRemovals : bool;
}.

(** [removals[instanceID] = removalState; hasNewRemovals = true].  When
    the map came from the cluster status (it was not nil), it is the
    same map: the write is visible through the [cluster] pointer. *)
Definition markForRemoval (instanceID : string) (removalState : PendingRemovalState)
    (l : Locals) : M State StepResult Locals :=
  let removals := <[ instanceID := removalState ]> (removals l) in
  c ← gets cluster;
  match PendingRemovals (Status c) with
  | Some _ => assign (setPendingRemovals (Some removals))
  | None => mret tt
  end;;
  mret {| removals := removals; hasNewRemovals := true |}.

Definition ownedByCluster (c : FoundationDBCluster) (pvc : PersistentVolumeClaim) : bool :=
  existsb (fun ownerReference => bool_decide (refUID ownerReference = UID (ClusterMeta c)))
          (OwnerReferences (ClaimMeta pvc)).

Definition claimBody (pvc : PersistentVolumeClaim) (l : Locals) : M State StepResult Locals :=
  c ← gets cluster;
  if negb (ownedByCluster c pvc) then mret l
  else
    let instanceID := GetInstanceIDFromMeta (ClaimMeta pvc) in
    if decide (is_Some (removals l !! instanceID)) then mret l
    else
      let '(_, idNum, err) := ParseInstanceID instanceID in
      check err;;
      let processClass := GetProcessClassFromMeta (ClaimMeta pvc) in
      let '(desiredPVC, err) := GetPvc c processClass idNum in
      match desiredPVC with
      | None => panic "nil pointer dereference"
      | Some desiredPVC =>
          let '(pvcHash, err) := GetJSONHash (ClaimSpec desiredPVC) in
          l ← (if bool_decide (index (Annotations (ClaimMeta pvc)) LastSpecKey ≠ pvcHash) && false then
                 r ← perform (GetInstances c (getSinglePodListOptions c instanceID))
                       (getInstances c (getSinglePodListOptions c instanceID));
                 instances ← orReturn r;
                 match instances with
                 | instance :: _ => markForRemoval instanceID (getPendingRemovalState instance) l
                 | [] => mret l
                 end
               else mret l);
          check err;;
          mret l
      end.

Definition instanceBody (instance : FdbInstance) (l : Locals) : M State StepResult Locals :=
  match InstancePod instance with
  | None => mret l
  | Some _ =>
      let instanceID := GetInstanceID instance in
      if decide (is_Some (removals l !! instanceID)) then mret l
      else
        let '(_, idNum, err) := ParseInstanceID instanceID in
        check err;;
        let needsRemoval := false in
        c ← gets cluster;
        let '(_, desiredInstanceID) := getInstanceID c (GetProcessClass instance) idNum in
        check err;;
        let needsRemoval := if decide (instanceID ≠ desiredInstanceID) then true else needsRemoval in
        needsRemoval ←
          (if UpdatePodsByReplacement (Spec c) then
             let '(specHash, err) := GetPodSpecHash c (GetProcessClass instance) idNum in
             check err;;
             if decide (index (Annotations (Metadata instance)) LastSpecKey ≠ specHash)
             then mret true else mret needsRemoval
           else mret needsRemoval);
        if (needsRemoval : bool) then markForRemoval instanceID (getPendingRemovalState instance) l
        else mret l
  end.

Definition ReplaceMisconfiguredPods_Reconcile : Body :=
  c ← gets cluster;
  let l := {| hasNewRemovals := false;
              removals := match PendingRemovals (Status c) with
                          | Some m => m
                          | None => ∅
                          end |} in
  r ← perform (ClientListClaims (getPodListOptions c "" "")) (listClaims (getPodListOptions c "" ""));
  pvcs ← orReturn r;
  l ← forRange pvcs claimBody l;
  r ← perform (GetInstances c (getPodListOptions c "" "")) (getInstances c (getPodListOptions c "" ""));
  instances ← orReturn r;
  l ← forRange instances instanceBody l;
  if hasNewRemovals l then
    assign (setPendingRemovals (Some (removals l)));;
    c ← gets cluster;
    err ← perform (StatusUpdate c) (statusUpdate c);
    check err;;
    exit (true, None)
  else mret (true, None).

End Steps.

Arguments FoundationDBClusterStatus : clear implicits.
Arguments FoundationDBCluster : clear implicits.
Arguments FdbInstance : clear implicits.
Arguments Call : clear implicits.
Arguments Reconciler : clear implicits.
Arguments State : clear implicits.
Arguments Locals : clear implicits.

End Controllers.

(* ===================================================================== *)
(** ** The desired-state builder: override layers *)
(* ===================================================================== *)

Module Builder.

Record EnvVar : Type := { envName : string; envValue : string }.
Record VolumeMount : Type := { mountName : string; MountPath : string }.
Record Volume : Type := { volumeName : string; volumeSource : string }.

(** A container as an override layer may give it: the scalar fields are
    unset when empty ([Image], [Command]) or absent ([Requests]). *)
Record Container : Type := {
  Name : string;
  Image : string;
  Command : list string;
  Requests : option (gmap string string);
  Env : list EnvVar;
  VolumeMounts : list VolumeMount;
}.

Record PodSpec : Type := {
  InitContainers : list Container;
  Containers : list Container;
  Volumes : list Volume;
}.

Record ProcessSettings : Type := { ProcessPodTemplate : option PodSpec }.

(** The override sources of the cluster spec. *)
Record ClusterSpec : Type := {
  SpecContainers : list Container;          (* deprecated Spec.Containers *)
  SpecInitContainers : list Container;      (* deprecated Spec.InitContainers *)
  SpecVolumes : list Volume;                (* deprecated Spec.Volumes *)
  SpecResources : option (gmap string string); (* deprecated Spec.Resources *)
  PodTemplate : option PodSpec;             (* Spec.PodTemplate *)
  Processes : gmap string ProcessSettings;  (* Spec.Processes *)
}.

Definition emptyLayer : PodSpec :=
  {| InitContainers := []; Containers := []; Volumes := [] |}.

Definition findContainer (name : string) (l : list Container) : option Container :=
  List.find (fun c => bool_decide (Name c = name)) l.

Definition findVolume (name : string) (l : list Volume) : option Volume :=
  List.find (fun v => bool_decide (volumeName v = name)) l.

(** Modelled from the spec: the merge routine of GetPodSpec (the builder
    of controllers/ is not among the sources, only its tests are).
    Section 9: "scalars overwrite-if-set, containers/volumes
    merge-by-name-else-append, env-vars concatenate-override-then-base";
    section 4.2, step 5: "an override container with a name matching a
    built-in container merges field-by-field (env vars concatenated
    override-then-builtin, volume mounts concatenated
    override-then-builtin); a new name appends a new container". *)
Definition mergeContainer (override base : Container) : Container :=
  {| Name := Name base;
     Image := if decide (Image override = "") then Image base else Image override;
     Command := match Command override with [] => Command base | cmd => cmd end;
     Requests := match Requests override with None => Requests base | r => r end;
     Env := Env override ++ Env base;
     VolumeMounts := VolumeMounts override ++ VolumeMounts base |}.

Definition mergeContainers (base override : list Container) : list Container :=
  map (fun b => match findContainer (Name b) override with
                | Some o => mergeContainer o b
                | None => b
                end) base
  ++ List.filter (fun o => bool_decide (findContainer (Name o) base = None)) override.

Definition mergeVolumes (base override : list Volume) : list Volume :=
  base ++ List.filter (fun o => bool_decide (findVolume (volumeName o) base = None)) override.

Definition applyLayer (base layer : PodSpec) : PodSpec :=
  {| InitContainers := mergeContainers (InitContainers base) (InitContainers layer);
     Containers := mergeContainers (Containers base) (Containers layer);
     Volumes := mergeVolumes (Volumes base) (Volumes layer) |}.

(** Modelled from the spec: layer (b), the deprecated flat fields;
    [Spec.Resources] are the resources of the main container (the test
    "with custom resources from the Spec.Resources field"). *)
Definition flatLayer (spec : ClusterSpec) : PodSpec :=
  {| InitContainers := SpecInitContainers spec;
     Containers :=
       match SpecResources spec with
       | Some r => [ {| Name := "foundationdb"; Image := ""; Command := [];
                        Requests := Some r; Env := []; VolumeMounts := [] |} ]
       | None => []
       end ++ SpecContainers spec;
     Volumes := SpecVolumes spec |}.

Definition globalLayer (spec : ClusterSpec) : PodSpec :=
  default emptyLayer (PodTemplate spec).

Definition classLayer (spec : ClusterSpec) (processClass : string) : PodSpec :=
  default emptyLayer (Processes spec !! processClass ≫= ProcessPodTemplate).

(** Modelled from the spec: step 5 of GetPodSpec, section 4.2: "Apply
    override layers in ascending precedence ... (a) built-in defaults
    from steps 1-4; (b) deprecated flat fields; (c) Spec.PodTemplate;
    (d) per-process-class Processes[class].PodTemplate".  The built-in
    defaults are an argument: what steps 1-4 produce for the cluster,
    process class and numeric id at hand. *)
Definition overrideLayers (spec : ClusterSpec) (processClass : string) : list PodSpec :=
  [flatLayer spec; globalLayer spec; classLayer spec processClass].

Definition applyOverrides (builtin : PodSpec) (spec : ClusterSpec) (processClass : string) : PodSpec :=
  fold_left applyLayer (overrideLayers spec processClass) builtin.

End Builder.

(* ===================================================================== *)
(** ** The pipeline as the specification words it *)
(* ===================================================================== *)

Module Pipeline.
Import Legacy.

Section Pipeline.

Context {W FdbPodClient AdminClient : Type}.
Context {platform : Platform W FdbPodClient AdminClient}.
Variable patience : nat.

Abbreviation LegacyState := (State W FdbPodClient AdminClient).
Abbreviation Step := (M LegacyState (option error) (option error)).

(** Section 2: "The pipeline runs steps in fixed order"; section 7: "All
    errors from a pipeline step abort the remainder of the pipeline for
    that trigger; no step's partial side effects are rolled back". *)
Fixpoint runSteps (steps : list Step) : Step :=
  match steps with
  | [] => ret None
  | step :: rest =>
      err ← call step;
      match err with
      | Some e => exit (Some e)
      | None => runSteps rest
      end
  end.

Definition steps : list Step :=
  [ setDefaultValues;
    updateConfigMap patience;
    addPods;
    generateInitialClusterFile patience;
    updateDatabaseConfiguration ].

(** The state in which the first step starts: the cluster has been
    fetched into the object behind the [cluster] pointer. *)
Definition fetched (s : LegacyState) (request : NamespacedName) (w : W) (c : FoundationDBCluster) : LegacyState :=
  {| world := w; cluster := c; log := log s ++ [ClientGet ClusterKind request] |}.

End Pipeline.

End Pipeline.

(* ===================================================================== *)
(** ** The connection string as the specification words it *)
(* ===================================================================== *)

Module Bootstrap.
Import Legacy.

(** Section 4.4: "{sanitizedClusterName}:init@{addr1},{addr2},...{addrN}",
    where the cluster name is sanitized to the charset [A-Za-z0-9_] and
    an address is an IP followed by the port 4500. *)
Definition sanitizedChar (c : ascii) : ascii :=
  if connectionStringNameRegex c then "_"%char else c.

Definition sanitizedClusterName (name : string) : string :=
  string_of_list_ascii (map sanitizedChar (list_ascii_of_string name)).

Definition coordinatorAddress (ip : string) : string := ip +:+ ":4500".

Definition initialConnectionString (name : string) (ips : list string) : string :=
  sanitizedClusterName name +:+ ":init@" +:+ Join (map coordinatorAddress ips) ",".

(** What the receiving loop of [generateInitialClusterFile] appends for
    the clients it hears, the first of them at loop index [i]. *)
Fixpoint received (i : nat) (ips : list string) : string :=
  match ips with
  | [] => ""
  | ip :: rest =>
      (if decide (i = 0%nat) then "@" else ",") +:+ ip +:+ ":4500" +:+ received (S i) rest
  end.

Fixpoint laterAddresses (ips : list string) : string :=
  match ips with
  | [] => ""
  | ip :: rest => "," +:+ coordinatorAddress ip +:+ laterAddresses rest
  end.

End Bootstrap.

(* ===================================================================== *)
(** ** Vocabulary of the statements *)
(* ===================================================================== *)

Module Terms.

(** The image a layer (or a resolved pod spec) sets for the container
    called [name], if it sets one. *)
Definition imageSetBy (containers : list Builder.Container) (name : string) : option string :=
  match Builder.findContainer name containers with
  | Some c => if decide (Builder.Image c = "") then None else Some (Builder.Image c)
  | None => None
  end.

(** The first layer of a list (highest precedence first) that sets a value. *)
Fixpoint firstSet (candidates : list (option string)) : option string :=
  match candidates with
  | [] => None
  | Some v :: _ => Some v
  | None :: rest => firstSet rest
  end.

(** The same for values of any type. *)
Fixpoint firstOf {A} (candidates : list (option A)) : option A :=
  match candidates with
  | [] => None
  | Some v :: _ => Some v
  | None :: rest => firstOf rest
  end.

(** The command and the resource requests a layer sets for the
    container called [name], if it sets them. *)
Definition commandSetBy (containers : list Builder.Container) (name : string)
    : option (list string) :=
  match Builder.findContainer name containers with
  | Some c => match Builder.Command c with [] => None | cmd => Some cmd end
  | None => None
  end.

Definition requestsSetBy (containers : list Builder.Container) (name : string)
    : option (gmap string string) :=
  Builder.findContainer name containers ≫= Builder.Requests.

(** The env vars and the volume mounts a layer gives the container
    called [name]: none when it does not name it. *)
Definition envOf (containers : list Builder.Container) (name : string) : list Builder.EnvVar :=
  match Builder.findContainer name containers with
  | Some c => Builder.Env c
  | None => []
  end.

Definition mountsOf (containers : list Builder.Container) (name : string)
    : list Builder.VolumeMount :=
  match Builder.findContainer name containers with
  | Some c => Builder.VolumeMounts c
  | None => []
  end.

(** Whether a layer names a container. *)
Definition names (containers : list Builder.Container) (name : string) : bool :=
  match Builder.findContainer name containers with Some _ => true | None => false end.

(** The init containers or the containers of a pod spec. *)
Definition containersOf (init : bool) (p : Builder.PodSpec) : list Builder.Container :=
  if init then Builder.InitContainers p else Builder.Containers p.

End Terms.

(* ===================================================================== *)
(** ** The pending-removal rule as the specification words it *)
(* ===================================================================== *)

Module Rule.
Import Controllers.

Section Rule.

Context {PendingRemovalState Pod W : Type}.
Context {reconciler : Reconciler PendingRemovalState Pod W}.

Abbreviation Cluster := (FoundationDBCluster PendingRemovalState).
Abbreviation Instance := (FdbInstance Pod).
Abbreviation StepState := (State PendingRemovalState Pod W).
Abbreviation StepCall := (Call PendingRemovalState Pod).

(** Section 4.3: the transition fires when the instance's "identifier
    does not match the identifier that its (process class, position)
    would receive under the current desired-state enumeration, or
    UpdatePodsByReplacement is set and its stamped spec-hash differs from
    the freshly computed desired-state hash". *)
Definition needsRemoval (c : Cluster) (instance : Instance) : bool :=
  let instanceID := GetInstanceID instance in
  let idNum := snd (fst (ParseInstanceID instanceID)) in
  let processClass := GetProcessClass instance in
  bool_decide (instanceID ≠ snd (getInstanceID c processClass idNum))
  || (UpdatePodsByReplacement (Spec c)
      && bool_decide (index (Annotations (Metadata instance)) LastSpecKey
                      ≠ fst (GetPodSpecHash c processClass idNum))).

(** The entries of [cluster.Status.PendingRemovals]; a nil map has none. *)
Definition pendingRemovals (c : Cluster) : gmap string PendingRemovalState :=
  default ∅ (PendingRemovals (Status c)).

(** What the lifecycle manager answers when the step lists the
    instances: the listing comes after the listing of the claims. *)
Definition listedInstances (s : StepState) : list Instance + error :=
  let opts := getPodListOptions (cluster s) "" "" in
  snd (getInstances (cluster s) opts (fst (listClaims opts (world s)))).

(** The builders are functions of the cluster's metadata and spec: they
    do not read its status (section 3, "Desired Resource": "a pure
    function of (ClusterSpec, process class, numeric id)"). *)
Definition statusBlind : Prop :=
  forall (c c' : Cluster) processClass idNum,
    ClusterMeta c = ClusterMeta c' -> Spec c = Spec c' ->
    getInstanceID c processClass idNum = getInstanceID c' processClass idNum
    /\ GetPodSpecHash c processClass idNum = GetPodSpecHash c' processClass idNum.

(** A currently-running instance: one that has a pod. *)
Definition running (instance : Instance) : Prop := is_Some (InstancePod instance).

Definition isStatusUpdate (call : StepCall) : bool :=
  match call with StatusUpdate _ => true | _ => false end.

(** The [removals] variable and the cluster's map are one map when the
    latter was not nil. *)
Definition tracks (l : Locals PendingRemovalState) (s : StepState) : Prop :=
  match PendingRemovals (Status (cluster s)) with
  | Some m => m = removals l
  | None => True
  end.

(** Two cluster objects that differ at most in their status. *)
Definition sameSpec (c c' : Cluster) : Prop :=
  ClusterMeta c = ClusterMeta c' /\ Spec c = Spec c'.

(** The calls [UpdateConfigMap] makes for one listed instance when
    every call succeeds: none for an instance whose annotation is the
    hash already, else the push and the stamping of the new hash. *)
Definition stamped (configMapHash : string) (instance : Instance) : Instance :=
  {| Metadata := setAnnotation LastConfigMapKey configMapHash (Metadata instance);
     InstancePod := InstancePod instance |}.

Definition upToDate (configMapHash : string) (instance : Instance) : bool :=
  bool_decide (index (Annotations (Metadata instance)) LastConfigMapKey = configMapHash).

Definition syncCalls (c : Cluster) (configMapHash : string) (instance : Instance)
    : list StepCall :=
  if upToDate configMapHash instance then []
  else [UpdatePodDynamicConf c instance; UpdateMetadata c (stamped configMapHash instance)].


End Rule.

End Rule.

(* ===================================================================== *)
(** ** Properties of platforms and calls used in the statements *)
(* ===================================================================== *)

Module Conditions.
Import Legacy.

Section Conditions.

Context {W FdbPodClient AdminClient : Type}.
Context {platform : Platform W FdbPodClient AdminClient}.

Abbreviation LegacyCall := (Call FdbPodClient AdminClient).

(** The pod client of each of these pods can be built at once, and
    reports the pod's address. *)
Definition cooperative (pods : list Pod) : Prop :=
  forall p, In p pods ->
    forall c w, exists client,
      snd (podClientProvider c p w) = inl client /\ GetPodIP client = PodIP p.

(** The receiver always hears the goroutine of the first pod still
    waiting: the clients arrive in listing order. *)
Definition inListingOrder : Prop := forall n w, snd (nextReady n w) = 0%nat.

(** Calls that write neither the cluster nor a pod. *)
Definition quiet (c : LegacyCall) : Prop :=
  match c with
  | ClientUpdate (ClusterObject _) | ClientUpdate (PodObject _)
  | ClientCreate (ClusterObject _) | ClientCreate (PodObject _)
  | ClientDelete _ => False
  | _ => True
  end.

(** The calls [addPods] may make: listing, creating a pod, updating the
    cluster. *)
Definition addPodsCall (c : LegacyCall) : Prop :=
  match c with
  | ClientList _ | ClientCreate (PodObject _) | ClientUpdate (ClusterObject _) => True
  | _ => False
  end.

Definition isCreatePod (c : LegacyCall) : Prop :=
  match c with ClientCreate (PodObject _) => True | _ => False end.

(** [appends P m]: [m] leaves the cluster object alone and only adds
    calls satisfying [P] to the log. *)
Definition appends (P : LegacyCall -> Prop) {R A}
    (m : M (State W FdbPodClient AdminClient) R A) : Prop :=
  forall s, cluster (m s).1 = cluster s
            /\ exists calls, log (m s).1 = log s ++ calls /\ Forall P calls.

End Conditions.

End Conditions.

(* ===================================================================== *)
(** ** Readings of builders and call logs *)
(* ===================================================================== *)

Module Observations.
Import Legacy.

Definition dollar : ascii := "$"%char.

Definition newline : string := String (ascii_of_N 10) EmptyString.

(** The pairs [GetPodMonitorConf] hands to [strings.NewReplacer]. *)
Definition placeholders (ip host : string) : list (string * string) :=
  [("$FDB_PUBLIC_IP", ip); ("$HOSTNAME", host)].

(** The text [json.Marshal] gives for the sidecar configuration of
    [GetConfigMap]: the keys of the map in sorted order. *)
Definition sidecarConfJSON : string :=
  "{" +:+ jsonQuote "COPY_BINARIES" +:+ ":[" +:+ jsonQuote "fdbserver" +:+ "," +:+ jsonQuote "fdbcli" +:+ "],"
      +:+ jsonQuote "COPY_FILES" +:+ ":[" +:+ jsonQuote "fdb.cluster" +:+ "],"
      +:+ jsonQuote "COPY_LIBRARIES" +:+ ":[],"
      +:+ jsonQuote "INPUT_MONITOR_CONF" +:+ ":" +:+ jsonQuote "fdbmonitor.conf" +:+ "}".

Section Calls.

Context {FdbPodClient AdminClient : Type}.

Definition isUpdate (call : Call FdbPodClient AdminClient) : Prop :=
  match call with ClientUpdate _ => True | _ => False end.




End Calls.

Definition count {X} (f : X -> bool) (l : list X) : nat := length (List.filter f l).

End Observations.

(* ===================================================================== *)
(** ** Scenarios: a platform double *)
(* ===================================================================== *)

Module Scenario.
Import Legacy.

(** An in-memory platform in the manner of the test suite's mock
    clients: one cluster, one config map, a list of pods; pod clients
    are their pod's address; [arrivals] are the scheduler's decisions
    still to come and [listFailure] an injected fault of the listing. *)
Record FakeWorld : Type := {
  storedCluster : option FoundationDBCluster;
  storedConfigMap : option ConfigMap;
  storedPods : list Pod;
  arrivals : list nat;
  listFailure : option error;
}.

Definition selects (opts : ListOptions) (p : Pod) : bool :=
  bool_decide (Namespace (PodMeta p) = InNamespace opts)
  && bool_decide (map_Forall (fun k v => Labels (PodMeta p) !! k = Some v) (MatchingLabels opts)).

Definition named (key : NamespacedName) (m : ObjectMeta) : bool :=
  bool_decide (Namespace m = nnNamespace key) && bool_decide (Name m = nnName key).

Definition store (o : Object) (w : FakeWorld) : FakeWorld :=
  match o with
  | ClusterObject c =>
      {| storedCluster := Some c; storedConfigMap := storedConfigMap w;
         storedPods := storedPods w; arrivals := arrivals w; listFailure := listFailure w |}
  | ConfigMapObject m =>
      {| storedCluster := storedCluster w; storedConfigMap := Some m;
         storedPods := storedPods w; arrivals := arrivals w; listFailure := listFailure w |}
  | PodObject p =>
      {| storedCluster := storedCluster w; storedConfigMap := storedConfigMap w;
         storedPods := storedPods w ++ [p]; arrivals := arrivals w; listFailure := listFailure w |}
  end.

#[global] Instance fakePlatform : Platform FakeWorld string unit := {|
  getCluster key w :=
    (w, match storedCluster w with
        | Some c => if named key (ClusterMeta c) then inl c else inr NotFound
        | None => inr NotFound
        end);
  getConfigMap key w :=
    (w, match storedConfigMap w with
        | Some m => if named key (ConfigMapMeta m) then inl m else inr NotFound
        | None => inr NotFound
        end);
  getPod key w :=
    (w, match List.find (fun p => named key (PodMeta p)) (storedPods w) with
        | Some p => inl p
        | None => inr NotFound
        end);
  listPods opts w :=
    (w, match listFailure w with
        | Some e => inr e
        | None => inl (List.filter (selects opts) (storedPods w))
        end);
  create o w := (store o w, None);
  update o w := (store o w, None);
  podClientProvider _ p w :=
    (w, if decide (PodIP p = "") then inr fdbPodClientErrorNoIP else inl (PodIP p));
  adminClientProvider _ w := (w, inl tt);
  GetPodIP client := client;
  UpdateDynamicFiles _ _ _ w := (w, None);
  ConfigureDatabase _ _ _ w := (w, None);
  DesiredProcessCount c processClass := default 0 (ProcessCounts (Spec c) !! processClass);
  DesiredCoordinatorCount c :=
    if decide (ReplicationMode (Spec c) = "single") then 1
    else if decide (ReplicationMode (Spec c) = "double") then 3
    else 5;
  nextReady _ w :=
    ({| storedCluster := storedCluster w; storedConfigMap := storedConfigMap w;
        storedPods := storedPods w; arrivals := tail (arrivals w);
        listFailure := listFailure w |},
     hd 0%nat (arrivals w));
|}.

(** The same platform under a scheduler that always hears the first
    goroutine still waiting. *)
Definition orderlyPlatform : Platform FakeWorld string unit := {|
  getCluster := @getCluster _ _ _ fakePlatform;
  getConfigMap := @getConfigMap _ _ _ fakePlatform;
  getPod := @getPod _ _ _ fakePlatform;
  listPods := @listPods _ _ _ fakePlatform;
  create := @create _ _ _ fakePlatform;
  update := @update _ _ _ fakePlatform;
  podClientProvider := @podClientProvider _ _ _ fakePlatform;
  adminClientProvider := @adminClientProvider _ _ _ fakePlatform;
  GetPodIP := @GetPodIP _ _ _ fakePlatform;
  UpdateDynamicFiles := @UpdateDynamicFiles _ _ _ fakePlatform;
  ConfigureDatabase := @ConfigureDatabase _ _ _ fakePlatform;
  DesiredProcessCount := @DesiredProcessCount _ _ _ fakePlatform;
  DesiredCoordinatorCount := @DesiredCoordinatorCount _ _ _ fakePlatform;
  nextReady _ w := (w, 0%nat);
|}.

Definition myCluster : FoundationDBCluster :=
  {| APIVersion := "apps.foundationdb.org/v1beta1";
     Kind := "FoundationDBCluster";
     ClusterMeta := {| Name := "my-cluster"; Namespace := "default"; UID := "uid-1";
                       Labels := ∅; OwnerReferences := [] |};
     Spec := {| Version := "6.1.8";
                ProcessCounts := {[ "storage" := 3 ]};
                ConnectionString := "";
                NextInstanceID := 0;
                ReplicationMode := "double";
                StorageEngine := "ssd";
                Configured := false |} |}.

(** A storage pod of [myCluster] that has been given an address. *)
Definition storagePod (id : Z) (ip : string) : Pod :=
  let p := GetPod myCluster "storage" id in
  {| PodMeta := PodMeta p; PodSpecOf := PodSpecOf p; PodIP := ip |}.

Definition threePods : list Pod :=
  [storagePod 1 "10.0.0.1"; storagePod 2 "10.0.0.2"; storagePod 3 "10.0.0.3"].

Definition worldWith (c : FoundationDBCluster) (pods : list Pod) (arrivals : list nat)
    (listFailure : option error) : FakeWorld :=
  {| storedCluster := Some c; storedConfigMap := None; storedPods := pods;
     arrivals := arrivals; listFailure := listFailure |}.

Definition stateWith (c : FoundationDBCluster) (pods : list Pod) (arrivals : list nat)
    : State FakeWorld string unit :=
  {| world := worldWith c pods arrivals None; cluster := c; log := [] |}.

(** Three storage pods with addresses; the clients arrive in listing order. *)
Definition bootstrapInOrder : State FakeWorld string unit :=
  stateWith myCluster threePods [].

(** The same, but the goroutine of the second pod is heard first. *)
Definition bootstrapSecondFirst : State FakeWorld string unit :=
  stateWith myCluster threePods [1%nat].

(** Only two storage pods for three coordinators. *)
Definition bootstrapTooFew : State FakeWorld string unit :=
  stateWith myCluster (take 2 threePods) [].

(** One storage pod where three are wanted; the next free id is 2. *)
Definition onePodOfThree : State FakeWorld string unit :=
  stateWith (setNextInstanceID 2 myCluster) (take 1 threePods) [].

(** The listing of pods fails. *)
Definition listingFails : State FakeWorld string unit :=
  {| world := worldWith myCluster threePods [] (Some (ErrorString "the server is unavailable"));
     cluster := zeroCluster; log := [] |}.

Definition myRequest : NamespacedName := {| nnNamespace := "default"; nnName := "my-cluster" |}.

(** A second object with the name and the spec of [myCluster], in
    another namespace and with another identity. *)
Definition myClusterElsewhere : FoundationDBCluster :=
  {| APIVersion := "apps.foundationdb.org/v1beta2";
     Kind := "FoundationDBCluster";
     ClusterMeta := {| Name := "my-cluster"; Namespace := "staging"; UID := "uid-2";
                       Labels := {[ "team" := "storage" ]}; OwnerReferences := [] |};
     Spec := Spec myCluster |}.

(** [myCluster] once its connection string is known, and an object
    with the very same spec under another name. *)
Definition myClusterBootstrapped : FoundationDBCluster :=
  setConnectionString "my_cluster:init@10.0.0.1:4500" myCluster.

Definition otherClusterSameSpec : FoundationDBCluster :=
  {| APIVersion := APIVersion myCluster;
     Kind := Kind myCluster;
     ClusterMeta := {| Name := "other-cluster"; Namespace := "default"; UID := "uid-1";
                       Labels := ∅; OwnerReferences := [] |};
     Spec := Spec myClusterBootstrapped |}.


End Scenario.

(** A double of the collaborators of the step-based controller, in the
    manner of the test suite's mock lifecycle manager. *)
Module StepScenario.
Import Controllers.

(** The world holds what the listings return and the names of the
    instances whose side-car does not answer. *)
Record FakeWorld : Type := {
  claims : list PersistentVolumeClaim;
  instances : list (FdbInstance string);
  unreachable : list string;
}.

Definition Cluster : Type := FoundationDBCluster string.
Definition Instance : Type := FdbInstance string.

Definition lastSpecKey : string := "foundationdb.org/last-applied-spec".
Definition lastConfigMapKey : string := "foundationdb.org/last-applied-config-map".

Definition labelled (m : ObjectMeta) (key : string) : string := default "" (Labels m !! key).

Definition desiredInstanceID (c : Cluster) (processClass : string) (idNum : Z) : string :=
  Naming.InstanceID (InstanceIDPrefix (Spec c)) processClass idNum.

Definition specHash (c : Cluster) : string := "spec-of-" +:+ Version (Spec c).

Definition configMapOf (c : Cluster) : ConfigMap :=
  {| ConfigMapMeta :=
       {| Name := Name (ClusterMeta c) +:+ "-config"; Namespace := Namespace (ClusterMeta c);
          UID := "uid-config"; Labels := {[ "fdb-cluster-name" := Name (ClusterMeta c) ]};
          Annotations := Some ∅; OwnerReferences := [] |};
     Data := {[ "running-version" := Version (Spec c) ]} |}.

Definition configMapHash (m : ConfigMap) : string := "conf-of-" +:+ default "" (Data m !! "running-version").

Definition desiredClaim (c : Cluster) (processClass : string) (idNum : Z) : PersistentVolumeClaim :=
  {| ClaimMeta :=
       {| Name := Name (ClusterMeta c) +:+ "-" +:+ desiredInstanceID c processClass idNum +:+ "-data";
          Namespace := Namespace (ClusterMeta c); UID := "";
          Labels := {[ "fdb-instance-id" := desiredInstanceID c processClass idNum;
                       "fdb-process-class" := processClass ]};
          Annotations := Some ∅; OwnerReferences := [] |};
     ClaimSpec := {| AccessModes := ["ReadWriteOnce"]; StorageClassName := None;
                     StorageRequest := "128G" |} |}.

#[global] Instance fakeReconciler : Reconciler string string FakeWorld := {|
  getConfigMap key w := (w, inl {| ConfigMapMeta :=
                                     {| Name := nnName key; Namespace := nnNamespace key;
                                        UID := "uid-config";
                                        Labels := {[ "fdb-cluster-name" := "my-cluster" ]};
                                        Annotations := Some ∅; OwnerReferences := [] |};
                                   Data := {[ "running-version" := "6.2.20" ]} |});
  create _ w := (w, None);
  update _ w := (w, None);
  listClaims _ w := (w, inl (claims w));
  statusUpdate _ w := (w, None);
  getInstances _ _ w := (w, inl (instances w));
  updateMetadata _ _ w := (w, None);
  recordEvent _ _ _ _ w := w;
  updatePodDynamicConf _ instance w :=
    (w, if bool_decide (Name (Metadata instance) ∈ unreachable w)
        then (false, Some (ErrorString "the side-car does not answer"))
        else (true, None));
  getPendingRemovalState instance := default "" (InstancePod instance);
  GetConfigMap c w := (w, inl (configMapOf c));
  mergeAnnotations existing _ := (existing, false);
  GetDynamicConfHash m := (configMapHash m, None);
  getPodListOptions c processClass id :=
    {| InNamespace := Namespace (ClusterMeta c);
       MatchingLabels := {[ "fdb-cluster-name" := Name (ClusterMeta c) ]} |};
  getSinglePodListOptions c id :=
    {| InNamespace := Namespace (ClusterMeta c);
       MatchingLabels := {[ "fdb-cluster-name" := Name (ClusterMeta c); "fdb-instance-id" := id ]} |};
  GetInstanceIDFromMeta m := labelled m "fdb-instance-id";
  GetProcessClassFromMeta m := labelled m "fdb-process-class";
  GetInstanceID instance := labelled (Metadata instance) "fdb-instance-id";
  GetProcessClass instance := labelled (Metadata instance) "fdb-process-class";
  ParseInstanceID := Naming.ParseInstanceID;
  getInstanceID c processClass idNum :=
    (Name (ClusterMeta c) +:+ "-" +:+ desiredInstanceID c processClass idNum,
     desiredInstanceID c processClass idNum);
  GetPvc c processClass idNum := (Some (desiredClaim c processClass idNum), None);
  GetJSONHash spec := ("claim-of-" +:+ StorageRequest spec, None);
  GetPodSpecHash c _ _ := (specHash c, None);
  LastSpecKey := lastSpecKey;
  LastConfigMapKey := lastConfigMapKey;
|}.

(** A cluster at version 6.2.20 whose instance identifiers now carry the
    prefix "dc1". *)
Definition myCluster : Cluster :=
  {| ClusterMeta := {| Name := "my-cluster"; Namespace := "default"; UID := "uid-1";
                       Labels := ∅; Annotations := Some ∅; OwnerReferences := [] |};
     Spec := {| Version := "6.2.20"; InstanceIDPrefix := "dc1"; UpdatePodsByReplacement := false |};
     Status := {| PendingRemovals := None |} |}.

(** An instance of [myCluster] stamped with the given hashes; [pod] is
    its pod, if it has one. *)
Definition instance (id processClass spec conf : string) (pod : option string) : Instance :=
  {| Metadata :=
       {| Name := "my-cluster-" +:+ id; Namespace := "default"; UID := "";
          Labels := {[ "fdb-cluster-name" := "my-cluster"; "fdb-instance-id" := id;
                       "fdb-process-class" := processClass ]};
          Annotations := Some {[ lastSpecKey := spec; lastConfigMapKey := conf ]};
          OwnerReferences := [] |};
     InstancePod := pod |}.

(** Named from before the prefix was set: to be replaced. *)
Definition renumbered : Instance :=
  instance "storage-1" "storage" "spec-of-6.2.20" "conf-of-6.2.20" (Some "10.0.0.1").

(** Named as the spec wants it; its dynamic conf is out of date. *)
Definition current : Instance :=
  instance "dc1-storage-2" "storage" "spec-of-6.2.20" "conf-of-6.1.8" (Some "10.0.0.2").

(** Named as the spec wants it and stamped with the current conf. *)
Definition synced : Instance :=
  instance "dc1-log-3" "log" "spec-of-6.2.20" "conf-of-6.2.20" (Some "10.0.0.3").

(** A volume claim of [current] whose stamped hash is out of date. *)
Definition staleClaim : PersistentVolumeClaim :=
  {| ClaimMeta :=
       {| Name := "my-cluster-dc1-storage-2-data"; Namespace := "default"; UID := "";
          Labels := {[ "fdb-instance-id" := "dc1-storage-2"; "fdb-process-class" := "storage" ]};
          Annotations := Some {[ lastSpecKey := "claim-of-64G" ]};
          OwnerReferences := [ {| refName := "my-cluster"; refUID := "uid-1" |} ] |};
     ClaimSpec := {| AccessModes := ["ReadWriteOnce"]; StorageClassName := None;
                     StorageRequest := "64G" |} |}.

Definition stateWith (listed : list Instance) (failing : list string)
    : State string string FakeWorld :=
  {| world := {| claims := [staleClaim]; instances := listed; unreachable := failing |};
     cluster := myCluster; log := [] |}.

(** Three instances, all of them reachable. *)
Definition threeInstances : State string string FakeWorld :=
  stateWith [renumbered; current; synced] [].


(** An instance whose identifier does not end in a number. *)
Definition unnumbered : Instance :=
  instance "storage-x" "storage" "spec-of-6.2.20" "conf-of-6.2.20" (Some "10.0.0.9").

(** [myCluster] with [unnumbered] already pending removal. *)
Definition myClusterDraining : Cluster :=
  {| ClusterMeta := ClusterMeta myCluster; Spec := Spec myCluster;
     Status := {| PendingRemovals := Some {[ "storage-x" := "10.0.0.9" ]} |} |}.

(** An instance whose pod is gone. *)
Definition podless : Instance :=
  instance "storage-5" "storage" "spec-of-6.2.20" "conf-of-6.2.20" None.

(** The pending instance is listed, together with the one without pod. *)
Definition draining : State string string FakeWorld :=
  {| world := {| claims := []; instances := [unnumbered; podless]; unreachable := [] |};
     cluster := myClusterDraining; log := [] |}.

End StepScenario.

Module BuilderScenario.
Import Builder.

Definition container (name image : string) : Container :=
  {| Name := name; Image := image; Command := []; Requests := None; Env := []; VolumeMounts := [] |}.

(** The three built-in containers, for version 6.2.20. *)
Definition builtin : PodSpec :=
  {| InitContainers :=
       [container "foundationdb-kubernetes-init" "foundationdb/foundationdb-kubernetes-sidecar:6.2.20-1"];
     Containers :=
       [container "foundationdb" "foundationdb/foundationdb:6.2.20";
        container "foundationdb-kubernetes-sidecar" "foundationdb/foundationdb-kubernetes-sidecar:6.2.20-1"];
     Volumes := [] |}.

(** The global template and the template of the storage class both set
    the image of the container "metrics". *)
Definition twoTemplates : ClusterSpec :=
  {| SpecContainers := []; SpecInitContainers := []; SpecVolumes := []; SpecResources := None;
     PodTemplate :=
       Some {| InitContainers := []; Containers := [container "metrics" "registry/metrics:global"];
               Volumes := [] |};
     Processes :=
       {[ "storage" :=
            {| ProcessPodTemplate :=
                 Some {| InitContainers := [];
                         Containers := [container "metrics" "registry/metrics:storage"];
                         Volumes := [] |} |} ]} |}.

(** The global template and the template of the storage class both set
    the image of the built-in init container. *)
Definition twoInitTemplates : ClusterSpec :=
  {| SpecContainers := []; SpecInitContainers := []; SpecVolumes := []; SpecResources := None;
     PodTemplate :=
       Some {| InitContainers := [container "foundationdb-kubernetes-init" "registry/sidecar:global"];
               Containers := []; Volumes := [] |};
     Processes :=
       {[ "storage" :=
            {| ProcessPodTemplate :=
                 Some {| InitContainers :=
                           [container "foundationdb-kubernetes-init" "registry/sidecar:storage"];
                         Containers := []; Volumes := [] |} |} ]} |}.

End BuilderScenario.

(* ===================================================================== *)
(** * Properties *)
(* ===================================================================== *)

Ltac unfold_go :=
  unfold mbind, M_bind, bind, mret, M_ret, ret, exit, panic, block, gets, modify, call in *.

Lemma wrap_id z : int_min <= z <= int_max -> wrap z = z.
Proof.
  unfold wrap, int_min, int_max. intros H.
  rewrite Z.mod_small; lia.
Qed.

Lemma append_assoc (a b c : string) : (a +:+ b) +:+ c = a +:+ (b +:+ c).
Proof.
  induction a as [|x a IH]; [done|].
  change (String x ((a +:+ b) +:+ c) = String x (a +:+ (b +:+ c))). by f_equal.
Qed.

Lemma append_nil_r (a : string) : a +:+ "" = a.
Proof.
  induction a as [|x a IH]; [done|].
  change (String x (a +:+ "") = String x a). by f_equal.
Qed.

Lemma append_inj_l (a x y : string) : a +:+ x = a +:+ y -> x = y.
Proof.
  induction a as [|ch a IH]; [done|].
  change (String ch (a +:+ x) = String ch (a +:+ y) -> x = y). intros [= H]. auto.
Qed.

Lemma length_append (a b : string) :
  String.length (a +:+ b) = (String.length a + String.length b)%nat.
Proof.
  induction a as [|ch a IH]; [done|].
  change (String.length (String ch (a +:+ b)) = S (String.length a + String.length b)).
  cbn [String.length]. by rewrite IH.
Qed.

Lemma append_inj_r (x y b : string) : x +:+ b = y +:+ b -> x = y.
Proof.
  revert y. induction x as [|ch x IH]; intros [|ch' y] H.
  - done.
  - apply (f_equal String.length) in H. rewrite !length_append in H.
    cbn [String.length] in H. lia.
  - apply (f_equal String.length) in H. rewrite !length_append in H.
    cbn [String.length] in H. lia.
  - change (String ch (x +:+ b) = String ch' (y +:+ b)) in H. injection H as -> H.
    by rewrite (IH y H).
Qed.

(* ===================================================================== *)
(** ** Instance identifiers *)
(* ===================================================================== *)

Module NamingFacts.
Import Naming.

Lemma split_nonempty sep s : split sep s <> [].
Proof.
  destruct s as [|c r]; simpl; [done|].
  destruct (Ascii.eqb c sep); [done|]. by destruct (split sep r).
Qed.

Lemma split_app_sep sep a b :
  split sep (a +:+ String sep b) = split sep a ++ split sep b.
Proof.
  induction a as [|c a IH]; simpl.
  - by rewrite Ascii.eqb_refl.
  - destruct (Ascii.eqb c sep); [by rewrite IH|].
    rewrite IH. pose proof (split_nonempty sep a) as Hne.
    by destruct (split sep a).
Qed.

Lemma split_without sep s : contains sep s = false -> split sep s = [s].
Proof.
  induction s as [|c r IH]; simpl; [done|].
  intros [Hc Hr]%orb_false_iff. rewrite Hc, (IH Hr). done.
Qed.

Lemma digits_without_hyphen d : contains hyphen (NilEmpty.string_of_uint d) = false.
Proof. induction d; simpl; auto. Qed.

Lemma Itoa_positive p : Itoa (Z.pos p) = NilEmpty.string_of_uint (Pos.to_uint p).
Proof.
  unfold Itoa. simpl. unfold NilZero.string_of_uint.
  pose proof (DecimalPos.Unsigned.to_uint_nonnil p) as Hn.
  by destruct (Pos.to_uint p).
Qed.

Lemma parse_positive_Itoa n : 0 < n -> parse_positive (Itoa n) = Some n.
Proof.
  destruct n as [|p|p]; try lia. intros _.
  rewrite Itoa_positive. unfold parse_positive.
  rewrite NilEmpty.usu. unfold Z.of_uint.
  rewrite DecimalPos.Unsigned.of_to. simpl. done.
Qed.

(** The identifier of a hyphen-free process class ends in the class and
    the number, whatever the prefix. *)
Lemma components_of_InstanceID prefix processClass n :
  0 < n -> contains hyphen processClass = false ->
  exists front, rev (split hyphen (InstanceID prefix processClass n)) = Itoa n :: processClass :: front.
Proof.
  intros Hn Hc.
  assert (Hd : split hyphen (Itoa n) = [Itoa n]).
  { apply split_without. destruct n as [|p|p]; try lia.
    rewrite Itoa_positive. apply digits_without_hyphen. }
  unfold InstanceID. destruct (decide (prefix = "")) as [->|Hp].
  - exists []. change ("-" +:+ Itoa n) with (String hyphen (Itoa n)).
    rewrite split_app_sep, Hd, (split_without _ _ Hc). done.
  - exists (rev (split hyphen prefix)).
    change ("-" +:+ processClass +:+ "-" +:+ Itoa n)
      with (String hyphen (processClass +:+ String hyphen (Itoa n))).
    rewrite !split_app_sep, Hd, (split_without _ _ Hc).
    rewrite !rev_app_distr. done.
Qed.

Lemma digit_cases c :
  is_digit c = true ->
  c = "0"%char \/ c = "1"%char \/ c = "2"%char \/ c = "3"%char \/ c = "4"%char \/
  c = "5"%char \/ c = "6"%char \/ c = "7"%char \/ c = "8"%char \/ c = "9"%char.
Proof.
  destruct c as [[] [] [] [] [] [] [] []]; vm_compute; intros H; try discriminate H; tauto.
Qed.

(** The parser of numerals and the reading of a text as a positive
    integer agree. *)
Lemma parse_positive_text s :
  match NilEmpty.uint_of_string s with
  | Some d => all_digits s = true /\ has_nonzero_digit s = (0 <? Z.of_uint d)
  | None => all_digits s = false
  end.
Proof.
  induction s as [|c r IH]; simpl; [done|].
  destruct (NilEmpty.uint_of_string r) as [d|].
  - destruct IH as [Ha Hz]. rewrite Ha, andb_true_r.
    destruct (is_digit c) eqn:Hc.
    + apply digit_cases in Hc.
      destruct Hc as [->|[->|[->|[->|[->|[->|[->|[->|[->| ->]]]]]]]]];
        simpl; (split; [done|]); try done.
    + destruct (uint_of_char c (Some d)) as [d'|] eqn:Hu; [|done].
      apply uint_of_char_spec in Hu.
      destruct Hu as [[-> _]|[[-> _]|[[-> _]|[[-> _]|[[-> _]|[[-> _]|[[-> _]|[[-> _]|[[-> _]|[-> _]]]]]]]]]];
        discriminate Hc.
  - by rewrite IH, andb_false_r.
Qed.

Lemma parse_positive_spec s :
  is_Some (parse_positive s) <-> positive_integer_text s = true.
Proof.
  unfold parse_positive, positive_integer_text.
  pose proof (parse_positive_text s) as H.
  destruct (NilEmpty.uint_of_string s) as [d|].
  - destruct H as [-> ->]. simpl. destruct (0 <? Z.of_uint d); split; intros Hx; done.
  - rewrite H. simpl. split; intros Hx; [by destruct Hx | done].
Qed.

(** C7 (amended): for every prefix, every process class without a
    hyphen and every positive n, parsing the identifier built from them
    returns exactly (processClass, n) and no error; and, for every
    identifier, ParseInstanceID fails with MalformedIdentifier exactly
    when the trailing component is not a positive integer (it returns no
    error exactly when it is one). *)
Theorem parse_inverts_instance_id (prefix processClass : string) (n : Z) (id : string) :
  0 < n -> contains hyphen processClass = false ->
  ParseInstanceID (InstanceID prefix processClass n) = (processClass, n, None)
  /\ (snd (ParseInstanceID id) = Some (MalformedIdentifier id)
      <-> positive_integer_text (trailing_component id) = false)
  /\ (snd (ParseInstanceID id) = None
      <-> positive_integer_text (trailing_component id) = true).
Proof.
  intros Hn Hc. split.
  - destruct (components_of_InstanceID prefix processClass n Hn Hc) as [front Hrev].
    unfold ParseInstanceID, trailing_component, class_component. rewrite Hrev.
    by rewrite (parse_positive_Itoa n Hn).
  - pose proof (parse_positive_spec (trailing_component id)) as Hs.
    unfold ParseInstanceID.
    destruct (parse_positive (trailing_component id)) as [k|]; simpl.
    + assert (Ht : positive_integer_text (trailing_component id) = true) by (apply Hs; eauto).
      rewrite Ht. split; split; intros; congruence.
    + destruct (positive_integer_text (trailing_component id)).
      * destruct Hs as [_ Hs]. destruct (Hs eq_refl) as [? ?]; discriminate.
      * split; split; intros; congruence.
Qed.

(** The round trip at "dc1-storage-12", and the failure of "storage-x". *)
Lemma parse_inverts_instance_id_witness :
  ParseInstanceID (InstanceID "dc1" "storage" 12) = ("storage", 12, None)
  /\ (snd (ParseInstanceID "storage-x") = Some (MalformedIdentifier "storage-x")
      <-> positive_integer_text (trailing_component "storage-x") = false)
  /\ (snd (ParseInstanceID "storage-x") = None
      <-> positive_integer_text (trailing_component "storage-x") = true).
Proof.
  apply (parse_inverts_instance_id "dc1" "storage" 12 "storage-x"); [lia | reflexivity].
Defined.

(** C7, as stated, fails for a process class that contains a hyphen: the
    identifier of ("", "cluster-controller", 1) is also the identifier of
    ("cluster", "controller", 1), and parsing it yields "controller". *)
Lemma hyphenated_class_is_not_recovered :
  InstanceID "" "cluster-controller" 1 = InstanceID "cluster" "controller" 1
  /\ ParseInstanceID (InstanceID "" "cluster-controller" 1) = ("controller", 1, None)
  /\ String.eqb "controller" "cluster-controller" = false.
Proof. repeat split. Qed.

End NamingFacts.
(* ===================================================================== *)
(** ** The builders of pkg/controller *)
(* ===================================================================== *)

Module BuildersFacts.
Import Legacy.

(** What GetPodSpec reads of its arguments. *)
Lemma GetPodSpec_reads c1 c2 class1 class2 :
  GetPodSpec c1 class1 = GetPodSpec c2 class2
  <-> Name (ClusterMeta c1) = Name (ClusterMeta c2)
      /\ Version (Spec c1) = Version (Spec c2) /\ class1 = class2.
Proof.
  split.
  - unfold GetPodSpec. intros H. injection H. intros.
    repeat match goal with
    | H : ?a +:+ _ = ?a +:+ _ |- _ => apply append_inj_l in H
    | H : _ +:+ ?b = _ +:+ ?b |- _ => apply append_inj_r in H
    end.
    done.
  - intros (Hn & Hv & ->). unfold GetPodSpec. by rewrite Hn, Hv.
Qed.

(** The data of the config map. *)
Lemma GetConfigMap_data c :
  exists m, GetConfigMap c = (Some m, None)
    /\ Data m = <[ "sidecar-conf" := fst (jsonMarshal
                     ({[ "COPY_BINARIES" := JSONStrings ["fdbserver"; "fdbcli"];
                         "COPY_FILES" := JSONStrings ["fdb.cluster"];
                         "COPY_LIBRARIES" := JSONStrings [];
                         "INPUT_MONITOR_CONF" := JSONString "fdbmonitor.conf" ]})) ]>
                (<[ "fdbmonitor-conf-storage" :=
                      if decide (ConnectionString (Spec c) = "") then ""
                      else GetMonitorConf c "storage" ]>
                   (<[ "cluster-file" := ConnectionString (Spec c) ]> ∅)).
Proof.
  unfold GetConfigMap, jsonMarshal. cbn [fst snd]. eexists. split; [reflexivity|].
  cbn [Data]. unfold processClasses. cbn [monitorConfEntries].
  change ("fdbmonitor-conf-" +:+ "storage") with "fdbmonitor-conf-storage".
  by destruct (decide (ConnectionString (Spec c) = "")).
Qed.

(** C9 (amended): the builders read the cluster's name and spec.
    GetPodSpec gives two identical pod specs exactly when the cluster
    names, the versions and the process classes are identical (the
    GetPodSpec of this package takes no numeric id): nothing else of the
    cluster is read, and each of the three is.  Its containers and
    volumes come in one fixed order.  GetConfigMap never fails; its data
    maps are identical when the connection strings are identical and
    either empty or accompanied by identical names and versions, and
    identical data maps have identical connection strings.  So for two
    cluster objects with identical name and spec every hash of the pod
    spec and of the data map is identical. *)
Theorem builders_depend_on_name_and_spec (c1 c2 : FoundationDBCluster) (class1 class2 : string) :
  (GetPodSpec c1 class1 = GetPodSpec c2 class2
   <-> Name (ClusterMeta c1) = Name (ClusterMeta c2)
       /\ Version (Spec c1) = Version (Spec c2) /\ class1 = class2)
  /\ map containerName (InitContainers (GetPodSpec c1 class1))
     = ["foundationdb-kubernetes-init"]
  /\ map containerName (Containers (GetPodSpec c1 class1))
     = ["foundationdb"; "foundationdb-kubernetes-sidecar"]
  /\ map volumeName (Volumes (GetPodSpec c1 class1))
     = ["data"; "dynamic-conf"; "config-map"; "fdb-trace-logs"]
  /\ (exists m1 m2,
        GetConfigMap c1 = (Some m1, None) /\ GetConfigMap c2 = (Some m2, None)
        /\ (Data m1 = Data m2 -> ConnectionString (Spec c1) = ConnectionString (Spec c2))
        /\ (ConnectionString (Spec c1) = ConnectionString (Spec c2) ->
            ConnectionString (Spec c1) = ""
            \/ (Name (ClusterMeta c1) = Name (ClusterMeta c2)
                /\ Version (Spec c1) = Version (Spec c2)) ->
            Data m1 = Data m2))
  /\ forall (PodSpecHash : PodSpec -> string) (ConfigMapHash : gmap string string -> string),
       Name (ClusterMeta c1) = Name (ClusterMeta c2) -> Spec c1 = Spec c2 ->
       PodSpecHash (GetPodSpec c1 class1) = PodSpecHash (GetPodSpec c2 class1)
       /\ (ConfigMapHash ∘ Data <$> fst (GetConfigMap c1))
          = (ConfigMapHash ∘ Data <$> fst (GetConfigMap c2)).
Proof.
  destruct (GetConfigMap_data c1) as (m1 & Hm1 & Hd1).
  destruct (GetConfigMap_data c2) as (m2 & Hm2 & Hd2).
  assert (Hdata : ConnectionString (Spec c1) = ConnectionString (Spec c2) ->
            ConnectionString (Spec c1) = ""
            \/ (Name (ClusterMeta c1) = Name (ClusterMeta c2)
                /\ Version (Spec c1) = Version (Spec c2)) ->
            Data m1 = Data m2).
  { intros Hcs Hor. rewrite Hd1, Hd2, <- Hcs.
    destruct (decide (ConnectionString (Spec c1) = "")) as [|Hne]; [done|].
    destruct Hor as [|[Hn Hv]]; [done|]. unfold GetMonitorConf. by rewrite Hn, Hv. }
  split; [apply GetPodSpec_reads|].
  split; [done|]. split; [done|]. split; [done|].
  split.
  - exists m1, m2. split; [done|]. split; [done|]. split; [|exact Hdata].
    intros H. apply (f_equal (fun d => d !! "cluster-file")) in H.
    rewrite Hd1, Hd2 in H. rewrite !lookup_insert_ne in H by done.
    rewrite !lookup_insert_eq in H. by injection H.
  - intros PodSpecHash ConfigMapHash Hn Hs. split.
    + f_equal. apply GetPodSpec_reads. by rewrite Hs.
    + rewrite Hm1, Hm2. cbn [fst fmap option_fmap option_map]. unfold compose. f_equal. f_equal.
      apply Hdata; [by rewrite Hs|]. right. by rewrite Hs.
Qed.

(** Two objects named "my-cluster" with one spec, in different
    namespaces, get the same pod spec for the storage class. *)
Lemma builders_depend_on_name_and_spec_witness :
  Scenario.myCluster <> Scenario.myClusterElsewhere
  /\ GetPodSpec Scenario.myCluster "storage" = GetPodSpec Scenario.myClusterElsewhere "storage".
Proof.
  split; [discriminate|].
  by apply (builders_depend_on_name_and_spec Scenario.myCluster Scenario.myClusterElsewhere
              "storage" "storage").
Defined.

(** C9, as stated, fails for two cluster objects with identical specs
    and different names: the name enters the pod spec (the config map
    the volume refers to) and the data map (the loggroup of the monitor
    conf). *)
Lemma identical_spec_under_another_name :
  Spec Scenario.myClusterBootstrapped = Spec Scenario.otherClusterSameSpec
  /\ GetPodSpec Scenario.myClusterBootstrapped "storage"
     <> GetPodSpec Scenario.otherClusterSameSpec "storage"
  /\ (Data <$> fst (GetConfigMap Scenario.myClusterBootstrapped))
     <> (Data <$> fst (GetConfigMap Scenario.otherClusterSameSpec)).
Proof.
  split; [reflexivity|]. split.
  - intros H. apply (f_equal Volumes) in H. vm_compute in H. discriminate H.
  - intros H.
    apply (f_equal (fun d : option (gmap string string) => d ≫= (.!! "fdbmonitor-conf-storage"))) in H.
    vm_compute in H. discriminate H.
Qed.

End BuildersFacts.

(* ===================================================================== *)
(** ** Override layers *)
(* ===================================================================== *)

Module BuilderFacts.
Import Builder Terms.

Lemma findContainer_app name l1 l2 :
  findContainer name (l1 ++ l2)
  = match findContainer name l1 with Some c => Some c | None => findContainer name l2 end.
Proof.
  unfold findContainer. induction l1 as [|x l1 IH]; simpl; [done|].
  by destruct (bool_decide (Name x = name)).
Qed.

(** Merging keeps the names of the base containers, in their order. *)
Lemma findContainer_merged name base override :
  findContainer name
    (map (fun b => match findContainer (Name b) override with
                   | Some o => mergeContainer o b
                   | None => b
                   end) base)
  = match findContainer name base with
    | Some b => Some (match findContainer name override with
                      | Some o => mergeContainer o b
                      | None => b
                      end)
    | None => None
    end.
Proof.
  unfold findContainer at 1 3. induction base as [|b base IH]; simpl; [done|].
  assert (Hn : Name (match findContainer (Name b) override with
                     | Some o => mergeContainer o b
                     | None => b
                     end) = Name b) by (by destruct (findContainer (Name b) override)).
  rewrite Hn. destruct (bool_decide_reflect (Name b = name)) as [<-|Hne]; [done|].
  apply IH.
Qed.

(** A name the base does not have is looked up among the appended
    containers as in the override itself. *)
Lemma findContainer_appended name base override :
  findContainer name base = None ->
  findContainer name (List.filter (fun o => bool_decide (findContainer (Name o) base = None)) override)
  = findContainer name override.
Proof.
  intros Hb. unfold findContainer at 1 3. induction override as [|o override IH]; simpl; [done|].
  destruct (bool_decide_reflect (Name o = name)) as [<-|Hne].
  - rewrite bool_decide_eq_true_2 by done. simpl. by rewrite bool_decide_eq_true_2.
  - destruct (bool_decide (findContainer (Name o) base = None)); simpl; [|done].
    by rewrite bool_decide_eq_false_2.
Qed.

(** One layer: its image where it sets one, else the image so far. *)
(** A container of the merged list: the base container of that name,
    merged with the override of that name if there is one; else the
    override of that name. *)
Lemma findContainer_merge name base override :
  findContainer name (mergeContainers base override)
  = match findContainer name base, findContainer name override with
    | Some b, Some o => Some (mergeContainer o b)
    | Some b, None => Some b
    | None, o => o
    end.
Proof.
  unfold mergeContainers. rewrite findContainer_app, findContainer_merged.
  destruct (findContainer name base) as [b|] eqn:Hb.
  - by destruct (findContainer name override).
  - rewrite (findContainer_appended _ _ _ Hb). by destruct (findContainer name override).
Qed.

(** One layer: its image where it sets one, else the image so far. *)
Lemma imageSetBy_merge base override name :
  imageSetBy (mergeContainers base override) name
  = firstSet [imageSetBy override name; imageSetBy base name].
Proof.
  unfold imageSetBy. rewrite findContainer_merge.
  destruct (findContainer name base) as [b|], (findContainer name override) as [o|]; simpl; try done.
  - destruct (decide (Image o = "")) as [e|n]; simpl.
    + by destruct (decide (Image b = "")).
    + by rewrite decide_False.
  - by destruct (decide (Image b = "")).
  - by destruct (decide (Image o = "")).
Qed.

Lemma commandSetBy_merge base override name :
  commandSetBy (mergeContainers base override) name
  = firstOf [commandSetBy override name; commandSetBy base name].
Proof.
  unfold commandSetBy. rewrite findContainer_merge.
  destruct (findContainer name base) as [b|], (findContainer name override) as [o|]; simpl; try done.
  - destruct (Command o); simpl; [|done]. by destruct (Command b).
  - by destruct (Command b).
  - by destruct (Command o).
Qed.

Lemma requestsSetBy_merge base override name :
  requestsSetBy (mergeContainers base override) name
  = firstOf [requestsSetBy override name; requestsSetBy base name].
Proof.
  unfold requestsSetBy. rewrite findContainer_merge.
  destruct (findContainer name base) as [b|], (findContainer name override) as [o|]; simpl; try done.
  - destruct (Requests o); simpl; [done|]. by destruct (Requests b).
  - by destruct (Requests b).
  - by destruct (Requests o).
Qed.

Lemma envOf_merge base override name :
  envOf (mergeContainers base override) name = envOf override name ++ envOf base name.
Proof.
  unfold envOf. rewrite findContainer_merge.
  destruct (findContainer name base) as [b|], (findContainer name override) as [o|]; simpl; try done.
  by rewrite app_nil_r.
Qed.

Lemma mountsOf_merge base override name :
  mountsOf (mergeContainers base override) name = mountsOf override name ++ mountsOf base name.
Proof.
  unfold mountsOf. rewrite findContainer_merge.
  destruct (findContainer name base) as [b|], (findContainer name override) as [o|]; simpl; try done.
  by rewrite app_nil_r.
Qed.

Lemma names_merge base override name :
  names (mergeContainers base override) name = names override name || names base name.
Proof.
  unfold names. rewrite findContainer_merge.
  destruct (findContainer name base) as [b|], (findContainer name override) as [o|]; done.
Qed.

Lemma findVolume_app name l1 l2 :
  findVolume name (l1 ++ l2)
  = match findVolume name l1 with Some v => Some v | None => findVolume name l2 end.
Proof.
  unfold findVolume. induction l1 as [|x l1 IH]; simpl; [done|].
  by destruct (bool_decide (volumeName x = name)).
Qed.

Lemma findVolume_appended name base override :
  findVolume name base = None ->
  findVolume name (List.filter (fun o => bool_decide (findVolume (volumeName o) base = None)) override)
  = findVolume name override.
Proof.
  intros Hb. unfold findVolume at 1 3. induction override as [|o override IH]; simpl; [done|].
  destruct (bool_decide_reflect (volumeName o = name)) as [<-|Hne].
  - rewrite bool_decide_eq_true_2 by done. simpl. by rewrite bool_decide_eq_true_2.
  - destruct (bool_decide (findVolume (volumeName o) base = None)); simpl; [|done].
    by rewrite bool_decide_eq_false_2.
Qed.

(** A volume of the merged list: the base volume of that name if there
    is one, else the volume of the layer. *)
Lemma findVolume_merge name base override :
  findVolume name (mergeVolumes base override)
  = firstOf [findVolume name base; findVolume name override].
Proof.
  unfold mergeVolumes. rewrite findVolume_app.
  destruct (findVolume name base) as [v|] eqn:Hb; simpl; [done|].
  rewrite (findVolume_appended _ _ _ Hb). by destruct (findVolume name override).
Qed.

Lemma containersOf_applyLayer init base layer :
  containersOf init (applyLayer base layer)
  = mergeContainers (containersOf init base) (containersOf init layer).
Proof. by destruct init. Qed.

(** C4: the layers apply in ascending precedence, built-in defaults,
    flat fields, global template, per-class template.  When the
    template of the process class sets the image of a container (or of
    an init container) and the global template sets a different image
    for the same name, the resolved pod spec carries the per-class
    image.  In general, for every container and init container name:
    image, command and resource requests are those of the highest layer
    that sets them; env vars and volume mounts are those of all layers
    that name the container, higher layers first; the container is
    present exactly when some layer names it.  A volume is the one of
    the lowest layer that names it: a layer only adds volumes not named
    before. *)
Theorem per_class_template_wins (builtin : PodSpec) (spec : ClusterSpec)
    (processClass name perClass global : string) (init : bool) :
  imageSetBy (containersOf init (classLayer spec processClass)) name = Some perClass ->
  imageSetBy (containersOf init (globalLayer spec)) name = Some global ->
  global <> perClass ->
  let resolved := applyOverrides builtin spec processClass in
  let layers := [classLayer spec processClass; globalLayer spec; flatLayer spec; builtin] in
  imageSetBy (containersOf init resolved) name = Some perClass
  /\ (forall init' name',
        let layer l := containersOf init' l in
        imageSetBy (layer resolved) name'
          = firstSet (map (fun l => imageSetBy (layer l) name') layers)
        /\ commandSetBy (layer resolved) name'
           = firstOf (map (fun l => commandSetBy (layer l) name') layers)
        /\ requestsSetBy (layer resolved) name'
           = firstOf (map (fun l => requestsSetBy (layer l) name') layers)
        /\ envOf (layer resolved) name' = concat (map (fun l => envOf (layer l) name') layers)
        /\ mountsOf (layer resolved) name' = concat (map (fun l => mountsOf (layer l) name') layers)
        /\ names (layer resolved) name' = existsb (fun l => names (layer l) name') layers)
  /\ (forall name',
        findVolume name' (Volumes resolved)
        = firstOf (map (fun l => findVolume name' (Volumes l)) (rev layers))).
Proof.
  intros Hclass Hglobal Hne resolved layers.
  assert (Hall : forall init' name',
        let layer l := containersOf init' l in
        imageSetBy (layer resolved) name'
          = firstSet (map (fun l => imageSetBy (layer l) name') layers)
        /\ commandSetBy (layer resolved) name'
           = firstOf (map (fun l => commandSetBy (layer l) name') layers)
        /\ requestsSetBy (layer resolved) name'
           = firstOf (map (fun l => requestsSetBy (layer l) name') layers)
        /\ envOf (layer resolved) name' = concat (map (fun l => envOf (layer l) name') layers)
        /\ mountsOf (layer resolved) name' = concat (map (fun l => mountsOf (layer l) name') layers)
        /\ names (layer resolved) name' = existsb (fun l => names (layer l) name') layers).
  { intros init' name' layer. unfold layer, resolved, layers, applyOverrides, overrideLayers.
    cbn [fold_left map concat existsb firstSet]. rewrite !containersOf_applyLayer.
    repeat split.
    - rewrite !imageSetBy_merge. cbn [firstSet].
      destruct (imageSetBy (containersOf init' (classLayer spec processClass)) name'); [done|].
      destruct (imageSetBy (containersOf init' (globalLayer spec)) name'); [done|].
      destruct (imageSetBy (containersOf init' (flatLayer spec)) name'); [done|].
      by destruct (imageSetBy (containersOf init' builtin) name').
    - rewrite !commandSetBy_merge. cbn [firstOf].
      destruct (commandSetBy (containersOf init' (classLayer spec processClass)) name'); [done|].
      destruct (commandSetBy (containersOf init' (globalLayer spec)) name'); [done|].
      destruct (commandSetBy (containersOf init' (flatLayer spec)) name'); [done|].
      by destruct (commandSetBy (containersOf init' builtin) name').
    - rewrite !requestsSetBy_merge. cbn [firstOf].
      destruct (requestsSetBy (containersOf init' (classLayer spec processClass)) name'); [done|].
      destruct (requestsSetBy (containersOf init' (globalLayer spec)) name'); [done|].
      destruct (requestsSetBy (containersOf init' (flatLayer spec)) name'); [done|].
      by destruct (requestsSetBy (containersOf init' builtin) name').
    - rewrite !envOf_merge. by rewrite app_nil_r.
    - rewrite !mountsOf_merge. by rewrite app_nil_r.
    - rewrite !names_merge. by rewrite orb_false_r. }
  split; [|split; [exact Hall|]].
  - destruct (Hall init name) as [Himage _]. rewrite Himage. unfold layers. cbn [map firstSet].
    by rewrite Hclass.
  - intros name'. unfold resolved, layers, applyOverrides, overrideLayers.
    cbn [fold_left map rev app applyLayer Volumes]. rewrite !findVolume_merge. cbn [firstOf].
    destruct (findVolume name' (Volumes builtin)); [done|].
    destruct (findVolume name' (Volumes (flatLayer spec))); [done|].
    destruct (findVolume name' (Volumes (globalLayer spec))); [done|].
    by destruct (findVolume name' (Volumes (classLayer spec processClass))).
Qed.

(** The container "metrics" of a storage pod gets the image of the
    storage template, not the global one; and so does the built-in init
    container when both templates set its image. *)
Lemma per_class_template_wins_witness :
  imageSetBy (Containers (applyOverrides BuilderScenario.builtin BuilderScenario.twoTemplates "storage"))
             "metrics"
  = Some "registry/metrics:storage"
  /\ imageSetBy (InitContainers (applyOverrides BuilderScenario.builtin
                                    BuilderScenario.twoInitTemplates "storage"))
                "foundationdb-kubernetes-init"
     = Some "registry/sidecar:storage".
Proof.
  split.
  - apply (per_class_template_wins BuilderScenario.builtin BuilderScenario.twoTemplates
             "storage" "metrics" "registry/metrics:storage" "registry/metrics:global" false);
      [vm_compute; reflexivity | vm_compute; reflexivity | discriminate].
  - apply (per_class_template_wins BuilderScenario.builtin BuilderScenario.twoInitTemplates
             "storage" "foundationdb-kubernetes-init" "registry/sidecar:storage"
             "registry/sidecar:global" true);
      [vm_compute; reflexivity | vm_compute; reflexivity | discriminate].
Defined.

End BuilderFacts.

(* ===================================================================== *)
(** ** pkg/controller/foundationdbcluster: the reconciler *)
(* ===================================================================== *)

Module LegacyFacts.
Import Legacy Pipeline Bootstrap Conditions.

Section Facts.

Context {W FdbPodClient AdminClient : Type}.
Context {platform : Platform W FdbPodClient AdminClient}.
Variable patience : nat.

Abbreviation State := (Legacy.State W FdbPodClient AdminClient).
Abbreviation Call := (Legacy.Call FdbPodClient AdminClient).
Abbreviation appends P m := (@Conditions.appends W FdbPodClient AdminClient P _ _ m).

(** *** The pipeline *)

Lemma reconcile_refines_runSteps (request : NamespacedName) (s : State) w c :
  getCluster request (world s) = (w, inl c) ->
  run (Reconcile patience request) s = run (runSteps (steps patience)) (fetched s request w c).
Proof.
  intros Hget.
  unfold Reconcile, steps, runSteps, fetched, run at 1 2.
  unfold assign, perform, check. unfold_go. simpl.
  rewrite Hget. simpl.
  repeat match goal with
  | |- context [run ?m ?st] =>
      let st' := fresh "s" in
      destruct (run m st) as [st' [[e|]| |]] eqn:?; simpl; try reflexivity
  end.
Qed.

Lemma runSteps_abort (before : list (M State (option error) (option error))) step after s s1 s2 e :
  run (runSteps before) s = (s1, Returned None) ->
  run step s1 = (s2, Returned (Some e)) ->
  run (runSteps (before ++ step :: after)) s = (s2, Returned (Some e)).
Proof.
  revert s. induction before as [|b before IH]; intros s Hb Hs.
  - unfold run in Hb. simpl in Hb. injection Hb as ->.
    unfold run at 1. simpl. unfold_go. rewrite Hs. done.
  - simpl in *. unfold run at 1 in Hb. unfold run at 1. unfold_go.
    destruct (run b s) as [sb [[eb|]| |]] eqn:Hrb; simpl in *; try discriminate.
    apply IH; [|done]. unfold run at 1. done.
Qed.

(** C8: once the cluster is fetched, Reconcile is the run of the five
    steps setDefaultValues, updateConfigMap, addPods,
    generateInitialClusterFile, updateDatabaseConfiguration in this
    order; when the steps before one return nil and that one returns an
    error, Reconcile returns that error in the very state the failing
    step left: no later step has run and nothing done so far is undone;
    when every step returns nil, so does Reconcile. *)
Theorem reconcile_runs_steps_in_order (request : NamespacedName) (s : State) (w : W)
    (c : FoundationDBCluster) :
  getCluster request (world s) = (w, inl c) ->
  steps patience
  = [ setDefaultValues; updateConfigMap patience; addPods;
      generateInitialClusterFile patience; updateDatabaseConfiguration ]
  /\ run (Reconcile patience request) s = run (runSteps (steps patience)) (fetched s request w c)
  /\ (forall before step after s1 s2 e,
        steps patience = before ++ step :: after ->
        run (runSteps before) (fetched s request w c) = (s1, Returned None) ->
        run step s1 = (s2, Returned (Some e)) ->
        run (Reconcile patience request) s = (s2, Returned (Some e)))
  /\ (forall s', run (runSteps (steps patience)) (fetched s request w c) = (s', Returned None) ->
                 run (Reconcile patience request) s = (s', Returned None)).
Proof.
  intros Hget. split; [reflexivity|].
  pose proof (reconcile_refines_runSteps request s w c Hget) as Href.
  split; [exact Href|]. split.
  - intros before step after s1 s2 e Hsteps Hbefore Hstep.
    rewrite Href, Hsteps. by eapply runSteps_abort.
  - intros s' Hs'. by rewrite Href.
Qed.

(** *** addPods *)

Lemma createPods_any n c pc id (s : State) :
  cluster (createPods n c pc id s).1 = cluster s
  /\ exists calls, log (createPods n c pc id s).1 = log s ++ calls
       /\ Forall isCreatePod calls /\ (n <> 0%nat -> calls <> [])
       /\ match (createPods n c pc id s).2 with
          | Next _ | Return (Some _) => True
          | _ => False
          end.
Proof.
  revert id s. induction n as [|n IH]; intros id s; simpl.
  - split; [done|]. exists []. rewrite app_nil_r. by repeat split.
  - unfold perform, check. unfold_go.
    destruct (create _ (world s)) as [w [e|]] eqn:Hc; simpl.
    + split; [done|]. eexists [_]. repeat split; try done.
      by repeat constructor.
    + match goal with |- context [createPods n c pc ?i ?st] =>
        destruct (IH i st) as (Hcl & calls & Hlog & Hall & _ & Hout) end.
      split; [by rewrite Hcl|].
      eexists (_ :: calls). rewrite Hlog. simpl. rewrite <- app_assoc. simpl.
      repeat split; try done. constructor; [done|done].
Qed.

Lemma createPods_ok n c pc id (s : State) :
  (forall o w, snd (create o w) = None) ->
  int_min <= id -> id + Z.of_nat n <= int_max ->
  exists w, createPods n c pc id s =
    ({| world := w; cluster := cluster s;
        log := log s ++ map (fun i => ClientCreate (PodObject (GetPod c pc (id + Z.of_nat i)))) (seq 0 n) |},
     Next (id + Z.of_nat n)).
Proof.
  intros Hok. revert id s. induction n as [|n IH]; intros id s Hlo Hhi; simpl.
  - exists (world s). unfold_go. rewrite app_nil_r, Z.add_0_r. by destruct s.
  - unfold perform, check. unfold_go.
    pose proof (Hok (PodObject (GetPod c pc id)) (world s)) as Hc.
    destruct (create _ (world s)) as [w e] eqn:Hcr. simpl in Hc. subst e. simpl.
    unfold int_add. rewrite wrap_id by lia.
    match goal with |- context [createPods n c pc ?i ?st] =>
      destruct (IH i st) as [w' Hrec]; [lia|lia|] end.
    exists w'. rewrite Hrec. simpl. f_equal; [|f_equal; lia].
    f_equal. rewrite <- app_assoc. simpl. rewrite Z.add_0_r. do 2 f_equal.
    rewrite <- seq_shift, map_map. apply map_ext. intros i. do 3 f_equal. lia.
Qed.

(** C10: addPods only lists pods, creates pods and updates the cluster
    object (it never deletes or modifies a pod); NextInstanceID changes
    only in a pass that asked for the creation of a pod; when at least
    the desired number of pods exists the step changes nothing and
    returns nil after the listing; when pods are missing, and creations
    and the update succeed, it creates exactly desired minus existing
    pods with the consecutive ids max(NextInstanceID, 1), ..., then
    sets NextInstanceID one past the last id and updates the cluster
    object. *)
Theorem add_pods_only_creates (s : State) :
  let c := cluster s in
  let opts := getPodListOptions c "storage" in
  let desired := DesiredProcessCount c "storage" in
  let first := Z.max (NextInstanceID (Spec c)) 1 in
  (exists calls,
      log (run addPods s).1 = log s ++ calls
      /\ Forall addPodsCall calls
      /\ (NextInstanceID (Spec (cluster (run addPods s).1)) <> NextInstanceID (Spec c) ->
          exists p, In (ClientCreate (PodObject p)) calls))
  /\ forall w pods,
      listPods opts (world s) = (w, inl pods) ->
      0 <= desired <= int_max -> Z.of_nat (length pods) <= int_max ->
      (desired <= Z.of_nat (length pods) ->
         run addPods s = ({| world := w; cluster := c; log := log s ++ [ClientList opts] |},
                          Returned None))
      /\ (Z.of_nat (length pods) < desired ->
          int_min <= NextInstanceID (Spec c) ->
          first + (desired - Z.of_nat (length pods)) <= int_max ->
          (forall o w', snd (create o w') = None) ->
          (forall o w', snd (update o w') = None) ->
          let n := desired - Z.of_nat (length pods) in
          (run addPods s).2 = Returned None
          /\ cluster (run addPods s).1 = setNextInstanceID (first + n) c
          /\ log (run addPods s).1 =
               log s ++ [ClientList opts]
                 ++ map (fun i => ClientCreate (PodObject (GetPod c "storage" (first + Z.of_nat i))))
                        (seq 0 (Z.to_nat n))
                 ++ [ClientUpdate (ClusterObject (setNextInstanceID (first + n) c))]).
Proof.
  intros c opts desired first.
  unfold run, addPods, processClasses, for_range.
  unfold perform, orReturn, check, assign. unfold_go. simpl.
  fold c. fold opts. fold desired.
  destruct (listPods opts (world s)) as [w [pods|err]] eqn:Hlist; simpl.
  2:{ split.
      - eexists [_]. simpl. repeat split; [by repeat constructor | done].
      - intros ? ? [=]. }
  set (newCount := int_sub desired (Z.of_nat (length pods))).
  destruct (0 <? newCount) eqn:Hnew; simpl.
  2:{ split.
      - eexists [_]. simpl. repeat split; [by repeat constructor | done].
      - intros w' pods' [= <- <-] Hd Hl. split.
        + done.
        + intros Hlt. exfalso. apply Z.ltb_ge in Hnew.
          unfold newCount, int_sub in Hnew. rewrite wrap_id in Hnew; unfold int_min, int_max in *; lia. }
  apply Z.ltb_lt in Hnew.
  set (id0 := if NextInstanceID (Spec c) <? 1 then 1 else NextInstanceID (Spec c)).
  assert (Hid0 : id0 = first).
  { unfold id0, first. destruct (Z.ltb_spec (NextInstanceID (Spec c)) 1); lia. }
  match goal with |- context [createPods ?n ?cc ?pc ?i ?st] => set (st0 := st) end.
  split.
  - destruct (createPods_any (Z.to_nat newCount) c "storage" id0 st0)
      as (Hcl & calls & Hlog & Hall & Hne & Hout).
    destruct (createPods (Z.to_nat newCount) c "storage" id0 st0) as [s1 [id1|[e|]| |]] eqn:Hcp;
      simpl in *; try done.
    + assert (Hin : exists p, In (ClientCreate (PodObject p)) (ClientList opts :: calls)).
      { destruct calls as [|[] calls]; [exfalso; apply Hne; [lia|done]|..];
          try (by inversion Hall as [|? ? Hx]).
        inversion Hall as [|? ? Hx]; subst. destruct o; try done. eexists. right. by left. }
      destruct (update _ (world s1)) as [w2 [e|]] eqn:Hup; simpl.
      * eexists (ClientList opts :: calls ++ [_]). rewrite Hlog. simpl.
        rewrite <- !app_assoc. simpl. split; [done|]. split.
        -- constructor; [done|]. apply Forall_app. split.
           ++ eapply Forall_impl; [exact Hall|]. by intros [] ?.
           ++ by repeat constructor.
        -- intros _. destruct Hin as [p [Hp|Hp]]; [done|]. exists p. right. apply in_or_app. by left.
      * eexists (ClientList opts :: calls ++ [_]). rewrite Hlog. simpl.
        rewrite <- !app_assoc. simpl. split; [done|]. split.
        -- constructor; [done|]. apply Forall_app. split.
           ++ eapply Forall_impl; [exact Hall|]. by intros [] ?.
           ++ by repeat constructor.
        -- intros _. destruct Hin as [p [Hp|Hp]]; [done|]. exists p. right. apply in_or_app. by left.
    + exists (ClientList opts :: calls). rewrite Hlog. simpl.
      rewrite <- !app_assoc. simpl. split; [done|]. split.
      * constructor; [done|]. eapply Forall_impl; [exact Hall|]. by intros [] ?.
      * rewrite Hcl. done.
  - intros w' pods' [= <- <-] Hd Hl.
    assert (HnewEq : newCount = desired - Z.of_nat (length pods)).
    { unfold newCount, int_sub. apply wrap_id. unfold int_min, int_max in *. lia. }
    split; [lia|].
    intros Hlt Hlo Hhi Hcreate Hupdate.
    destruct (createPods_ok (Z.to_nat newCount) c "storage" id0 st0 Hcreate) as [w1 Hcp].
    { unfold int_min in *. lia. }
    { rewrite Z2Nat.id by lia. rewrite Hid0, HnewEq. exact Hhi. }
    rewrite Hcp. simpl.
    rewrite Z2Nat.id by lia.
    match goal with |- context [update ?o ?ww] =>
      pose proof (Hupdate o ww) as Hu; destruct (update o ww) as [w2 eu] end.
    simpl in Hu. subst eu. simpl.
    rewrite Hid0, HnewEq. split; [done|]. split; [done|].
    rewrite <- !app_assoc. simpl. done.
Qed.

(** *** What a function adds to the log *)

Lemma appends_ret P {R A} (a : A) : appends P (ret a : M State R A).
Proof. intros s. split; [done|]. exists []. by rewrite app_nil_r. Qed.

Lemma appends_mret P {R A} (a : A) : appends P (mret a : M State R A).
Proof. apply appends_ret. Qed.

Lemma appends_exit P {R A} (r : R) : appends P (exit r : M State R A).
Proof. intros s. split; [done|]. exists []. by rewrite app_nil_r. Qed.

Lemma appends_panic P {R A} msg : appends P (panic msg : M State R A).
Proof. intros s. split; [done|]. exists []. by rewrite app_nil_r. Qed.

Lemma appends_block P {R A} : appends P (block : M State R A).
Proof. intros s. split; [done|]. exists []. by rewrite app_nil_r. Qed.

Lemma appends_gets P {R A} (f : State -> A) : appends P (gets f : M State R A).
Proof. intros s. split; [done|]. exists []. by rewrite app_nil_r. Qed.

Lemma appends_bind P {R A B} (m : M State R A) (k : A -> M State R B) :
  appends P m -> (forall a, appends P (k a)) -> appends P (mbind k m).
Proof.
  intros Hm Hk s. unfold_go.
  destruct (Hm s) as (Hc & calls & Hl & Hp).
  destruct (m s) as [s1 [a| | |]]; simpl in *; try (split; [done|]; by exists calls).
  destruct (Hk a s1) as (Hc' & calls' & Hl' & Hp').
  split; [congruence|]. exists (calls ++ calls').
  rewrite Hl', Hl, app_assoc. split; [done|]. by apply Forall_app.
Qed.

Lemma appends_perform P {R A} (c : Call) (f : W -> W * A) :
  P c -> appends P (perform c f : M State R A).
Proof.
  intros Hp s. unfold perform. destruct (f (world s)) as [w a]. simpl.
  split; [done|]. exists [c]. split; [done|]. by constructor.
Qed.

Lemma appends_schedule P {R} n : appends P (schedule n : M State R nat).
Proof.
  intros s. unfold schedule. destruct (nextReady n (world s)) as [w k]. simpl.
  split; [done|]. exists []. by rewrite app_nil_r.
Qed.

Lemma appends_run P {R} (m : M State R R) s :
  appends P m ->
  cluster (run m s).1 = cluster s
  /\ exists calls, log (run m s).1 = log s ++ calls /\ Forall P calls.
Proof. intros Hm. unfold run. destruct (Hm s) as [Hc Hl]. by destruct (m s) as [s1 [| | |]]. Qed.

Lemma appends_spawn P {R A} (body : M State A A) :
  appends P body -> appends P (spawn body : M State R (option A)).
Proof.
  intros Hm s. unfold spawn. destruct (appends_run P body s Hm) as [Hc Hl].
  by destruct (run body s) as [s1 [| |]].
Qed.

Lemma appends_call P {R R'} (m : M State R' R') :
  appends P m -> appends P (call m : M State R R').
Proof.
  intros Hm s. unfold call. destruct (appends_run P m s Hm) as [Hc Hl].
  by destruct (run m s) as [s1 [| |]].
Qed.

Lemma appends_check (P : Call -> Prop) err : appends P (check err).
Proof. destruct err; [apply appends_exit | apply appends_ret]. Qed.

Lemma appends_orReturn (P : Call -> Prop) {A} (r : A + error) : appends P (orReturn r).
Proof. destruct r; [apply appends_ret | apply appends_exit]. Qed.

Create HintDb appends discriminated.

Ltac appends_step :=
  lazymatch goal with
  | |- appends _ (mbind _ _) => apply appends_bind; [|intros ?]
  | |- appends _ (mret _) => apply appends_mret
  | |- appends _ (ret _) => apply appends_ret
  | |- appends _ (exit _) => apply appends_exit
  | |- appends _ (panic _) => apply appends_panic
  | |- appends _ block => apply appends_block
  | |- appends _ (gets _) => apply appends_gets
  | |- appends _ (schedule _) => apply appends_schedule
  | |- appends _ (check _) => apply appends_check
  | |- appends _ (orReturn _) => apply appends_orReturn
  | |- appends _ (perform _ _) => apply appends_perform; exact I
  | |- appends _ (spawn _) => apply appends_spawn
  | |- appends _ (call _) => apply appends_call
  | |- appends _ (match ?x with _ => _ end) => destruct x
  | |- appends _ ((match ?x with _ => _ end) _) => destruct x; cbv beta
  | |- appends _ _ => solve [eauto with appends]
  end.

Lemma getPodClientLoop_quiet n c pod res : appends quiet (getPodClientLoop n c pod res).
Proof.
  revert pod res. induction n as [|n IH]; intros pod [client|err]; simpl;
    repeat appends_step.
Qed.
Hint Resolve getPodClientLoop_quiet : appends.

Lemma getPodClient_quiet c pod : appends quiet (getPodClient patience c pod).
Proof. unfold getPodClient. repeat appends_step. Qed.
Hint Resolve getPodClient_quiet : appends.

Lemma updatePodDynamicConf_quiet c pod : appends quiet (updatePodDynamicConf patience c pod).
Proof. unfold updatePodDynamicConf. repeat appends_step. Qed.
Hint Resolve updatePodDynamicConf_quiet : appends.

Lemma startPodUpdates_quiet c pods : appends quiet (startPodUpdates patience c pods).
Proof. induction pods as [|pod pods IH]; simpl; repeat appends_step. Qed.
Hint Resolve startPodUpdates_quiet : appends.

Lemma awaitPodUpdates_quiet l : appends quiet (awaitPodUpdates l).
Proof. induction l as [|[e|] l IH]; simpl; repeat appends_step. Qed.
Hint Resolve awaitPodUpdates_quiet : appends.

Lemma updateConfigMap_quiet : appends quiet (updateConfigMap patience).
Proof. unfold updateConfigMap. repeat appends_step. Qed.

Lemma recruitCoordinators_quiet n i c waiting acc :
  appends quiet (recruitCoordinators patience n i c waiting acc).
Proof. revert i waiting acc. induction n as [|n IH]; intros; simpl; repeat appends_step. Qed.

(** *** generateInitialClusterFile *)

Lemma ReplaceAllString_sanitized name :
  ReplaceAllString connectionStringNameRegex name "_" = sanitizedClusterName name.
Proof.
  unfold sanitizedClusterName. induction name as [|c name IH]; [done|].
  simpl. unfold sanitizedChar at 1. rewrite <- IH.
  by destruct (connectionStringNameRegex c).
Qed.

Lemma received_later i ips : received (S i) ips = laterAddresses ips.
Proof.
  revert i. induction ips as [|ip ips IH]; intros i; [done|].
  simpl. rewrite (IH (S i)). unfold coordinatorAddress. by rewrite append_assoc.
Qed.

Lemma Join_addresses ip ips :
  Join (map coordinatorAddress (ip :: ips)) "," = coordinatorAddress ip +:+ laterAddresses ips.
Proof.
  revert ip. induction ips as [|ip' ips IH]; intros ip.
  - simpl. by rewrite append_nil_r.
  - change (Join (map coordinatorAddress (ip :: ip' :: ips)) ",")
      with (coordinatorAddress ip +:+ "," +:+ Join (map coordinatorAddress (ip' :: ips)) ",").
    rewrite IH. done.
Qed.

Lemma received_first name ip ips :
  (sanitizedClusterName name +:+ ":init") +:+ received 0 (ip :: ips)
  = initialConnectionString name (ip :: ips).
Proof.
  unfold initialConnectionString. rewrite Join_addresses. simpl received.
  rewrite received_later, append_assoc. unfold coordinatorAddress.
  rewrite !append_assoc. done.
Qed.

Lemma takeOut_Some {A} k (x : A) l :
  exists y rest, takeOut k (x :: l) = Some (y, rest) /\ Permutation (y :: rest) (x :: l)
    /\ (k = 0%nat -> y = x /\ rest = l).
Proof.
  unfold takeOut. set (i := (k mod length (x :: l))%nat).
  assert (Hi : (i < length (x :: l))%nat) by (apply Nat.mod_upper_bound; simpl; lia).
  destruct (lookup_lt_is_Some_2 (x :: l) i Hi) as [y Hy]. rewrite Hy.
  exists y, (take i (x :: l) ++ drop (S i) (x :: l)). split; [done|]. split.
  - rewrite <- (take_drop_middle (x :: l) i y Hy) at 3.
    apply Permutation_middle.
  - intros ->. subst i. rewrite Nat.Div0.mod_0_l in *. simpl in *. split; [congruence|done].
Qed.

Lemma getPodClientLoop_client n c pod client (s : State) :
  getPodClientLoop n c pod (inl client) s = (s, Next (pod, inl client)).
Proof. by destruct n. Qed.

(** The receiving loop with cooperative pods: it hears [n] of the
    waiting pods, each once, and appends their addresses in the order
    of arrival. *)
Lemma recruitCoordinators_ok n i c waiting acc (s : State) :
  cooperative waiting -> (n <= length waiting)%nat ->
  exists s' order rest,
    recruitCoordinators patience n i c waiting acc s
      = (s', Next (acc +:+ received i (map PodIP order)))
    /\ Permutation (order ++ rest) waiting /\ length order = n
    /\ (inListingOrder -> order = take n waiting).
Proof.
  revert i waiting acc s.
  induction n as [|n IH]; intros i waiting acc s Hcoop Hlen.
  - exists s, [], waiting. simpl. rewrite append_nil_r. repeat split; done.
  - destruct waiting as [|x waiting]; [simpl in Hlen; lia|].
    cbn [recruitCoordinators]. unfold schedule. unfold_go.
    destruct (nextReady (length (x :: waiting)) (world s)) as [w1 k] eqn:Hk.
    cbn [fst snd].
    destruct (takeOut_Some k x waiting) as (pod & rest & Htake & Hperm & Hzero).
    rewrite Htake.
    unfold spawn, run, getPodClient, perform. unfold_go. cbn [world cluster log].
    assert (Hpod : In pod (x :: waiting)).
    { eapply Permutation_in; [exact Hperm|]. by left. }
    destruct (Hcoop pod Hpod c w1) as (client & Hclient & Hip).
    destruct (podClientProvider c pod w1) as [w2 res] eqn:Hprov. simpl in Hclient. subst res.
    rewrite getPodClientLoop_client.
    assert (Hcoop' : cooperative rest).
    { intros p Hp. apply Hcoop. eapply Permutation_in; [exact Hperm|]. by right. }
    match goal with |- context [recruitCoordinators _ n ?i' c rest ?acc' ?st] =>
      destruct (IH i' rest acc' st Hcoop') as (s' & order & rest' & Hrec & Hperm' & Hlen' & Hord);
        [apply Permutation_length in Hperm; simpl in *; lia|] end.
    exists s', (pod :: order), rest'. rewrite Hrec. split.
    { f_equal. f_equal. simpl received. rewrite Hip.
      destruct (decide (i = 0%nat)); rewrite !append_assoc; done. }
    split; [simpl; rewrite <- Hperm; by constructor|].
    split; [simpl; lia|].
    intros Hin. destruct Hzero as [-> ->].
    { pose proof (Hin (length (x :: waiting)) (world s)) as Hz. rewrite Hk in Hz. exact Hz. }
    simpl. f_equal. auto.
Qed.

(** C6: with fewer listed storage pods than DesiredCoordinatorCount(),
    generateInitialClusterFile returns an error after the listing; the
    cluster object is unchanged, its ConnectionString still empty, and
    no update has been sent: nothing partial is persisted. *)
Theorem too_few_pods_persist_nothing (s : State) (w : W) (pods : list Pod) :
  ConnectionString (Spec (cluster s)) = "" ->
  listPods (getPodListOptions (cluster s) "storage") (world s) = (w, inl pods) ->
  Z.of_nat (length pods) < DesiredCoordinatorCount (cluster s) ->
  run (generateInitialClusterFile patience) s
  = ({| world := w; cluster := cluster s;
        log := log s ++ [ClientList (getPodListOptions (cluster s) "storage")] |},
     Returned (Some (ErrorString "Cannot find enough pods to recruit coordinators"))).
Proof.
  intros Hcs Hlist Hlt.
  unfold run, generateInitialClusterFile, perform, orReturn. unfold_go. simpl.
  rewrite decide_True by done. rewrite Hlist. simpl.
  apply Z.ltb_lt in Hlt. rewrite Hlt. done.
Qed.

(** C2 (amended): with a non-empty ConnectionString the step does
    nothing.  With an empty one, at least DesiredCoordinatorCount() >= 1
    listed storage pods and pod clients that report their pod's
    address, the step sets ConnectionString to
    "{sanitizedClusterName}:init@{addr1},...,{addrN}" and sends the
    cluster update carrying it, where the addresses "{ip}:4500" are
    those of the first N listed pods in the order in which their clients
    arrive, a permutation of the listing order, and the listing order
    itself when the clients arrive in that order. *)
Theorem initial_cluster_file_connection_string (s : State) :
  let c := cluster s in
  let count := DesiredCoordinatorCount c in
  (ConnectionString (Spec c) <> "" ->
     run (generateInitialClusterFile patience) s = (s, Returned None))
  /\ forall w pods,
      ConnectionString (Spec c) = "" ->
      listPods (getPodListOptions c "storage") (world s) = (w, inl pods) ->
      1 <= count <= Z.of_nat (length pods) ->
      cooperative (take (Z.to_nat count) pods) ->
      exists order,
        Permutation order (take (Z.to_nat count) pods)
        /\ (inListingOrder -> order = take (Z.to_nat count) pods)
        /\ cluster (run (generateInitialClusterFile patience) s).1
           = setConnectionString (initialConnectionString (Name (ClusterMeta c)) (map PodIP order)) c
        /\ exists before after,
             log (run (generateInitialClusterFile patience) s).1
             = log s ++ before
                 ++ [ClientUpdate (ClusterObject
                       (setConnectionString
                          (initialConnectionString (Name (ClusterMeta c)) (map PodIP order)) c))]
                 ++ after
             /\ Forall quiet before /\ Forall quiet after.
Proof.
  intros c count. split.
  - intros Hne. unfold run, generateInitialClusterFile. unfold_go. simpl. fold c.
    rewrite decide_False by done. done.
  - intros w pods Hcs Hlist Hcount Hcoop. subst c count.
    unfold run at 1 2, generateInitialClusterFile, perform, orReturn, assign, check. unfold_go.
    cbn [fst snd world cluster log].
    rewrite decide_True by done. rewrite Hlist. cbn [fst snd world cluster log].
    destruct (Z.ltb_spec (Z.of_nat (length pods)) (DesiredCoordinatorCount (cluster s))) as [|_]; [lia|].
    destruct (Z.ltb_spec (DesiredCoordinatorCount (cluster s)) 0) as [|_]; [lia|].
    set (n := Z.to_nat (DesiredCoordinatorCount (cluster s))) in *.
    match goal with |- context [recruitCoordinators _ _ _ _ _ ?acc ?st] =>
      set (s0 := st); set (acc0 := acc) end.
    assert (Hn : (n <= length (take n pods))%nat) by (rewrite length_take; lia).
    destruct (recruitCoordinators_ok n 0 (cluster s) (take n pods) acc0 s0 Hcoop Hn)
      as (s1 & order & rest & Hrec & Hperm & Hlen & Hord).
    assert (Hrest : rest = []).
    { apply Permutation_length in Hperm. rewrite length_app, length_take in Hperm.
      destruct rest; [done|]. simpl in Hperm. lia. }
    subst rest. rewrite app_nil_r in Hperm.
    destruct (recruitCoordinators_quiet n 0 (cluster s) (take n pods) acc0 s0)
      as (Hcl & calls & Hlog & Hquiet).
    rewrite Hrec in Hcl, Hlog |- *. cbn [fst snd] in Hcl, Hlog |- *.
    destruct order as [|pod order]; [simpl in Hlen; lia|].
    unfold acc0. rewrite ReplaceAllString_sanitized.
    change (map PodIP (pod :: order)) with (PodIP pod :: map PodIP order).
    rewrite received_first.
    set (cs := initialConnectionString (Name (ClusterMeta (cluster s))) (PodIP pod :: map PodIP order)).
    rewrite take_take, Nat.min_id in Hord.
    exists (pod :: order). split; [done|]. split; [done|].
    change (map PodIP (pod :: order)) with (PodIP pod :: map PodIP order). fold cs.
    cbn [world cluster log]. rewrite Hcl, Hlog. unfold s0. cbn [cluster log].
    destruct (update _ (world s1)) as [w2 [e|]]; cbn [fst snd].
    + split; [done|]. exists (ClientList (getPodListOptions (cluster s) "storage") :: calls), [].
      cbn [log]. rewrite <- !app_assoc. simpl.
      split; [done|]. split; [|done]. by constructor.
    + match goal with |- context [run (updateConfigMap patience) ?st] =>
        destruct (appends_run quiet (updateConfigMap patience) st updateConfigMap_quiet)
          as (Hcl2 & calls2 & Hlog2 & Hquiet2);
        destruct (run (updateConfigMap patience) st) as [s3 [r| |]] end;
        cbn [fst snd world cluster log] in *.
      all: split; [done|].
      all: exists (ClientList (getPodListOptions (cluster s) "storage") :: calls), calls2.
      all: rewrite Hlog2; rewrite <- !app_assoc; simpl.
      all: split; [done|]; split; [by constructor|done].
Qed.

End Facts.

(** *** On the double of the platform *)

(** The listing of the pods fails while addPods runs: Reconcile returns
    that error in the state addPods left, the listing being its last
    call. *)
Lemma reconcile_runs_steps_in_order_witness :
  let s0 := fetched Scenario.listingFails Scenario.myRequest (world Scenario.listingFails)
              Scenario.myCluster in
  let s1 := (run (runSteps [setDefaultValues; updateConfigMap 0]) s0).1 in
  let s2 := (run addPods s1).1 in
  run (Reconcile 0 Scenario.myRequest) Scenario.listingFails
  = (s2, Returned (Some (ErrorString "the server is unavailable")))
  /\ log s2 = log s1 ++ [ClientList (getPodListOptions Scenario.myCluster "storage")].
Proof.
  intros s0 s1 s2. split; [|vm_compute; reflexivity].
  destruct (reconcile_runs_steps_in_order 0 Scenario.myRequest Scenario.listingFails
              (world Scenario.listingFails) Scenario.myCluster)
    as (_ & _ & Habort & _); [vm_compute; reflexivity|].
  apply (Habort [setDefaultValues; updateConfigMap 0] addPods
           [generateInitialClusterFile 0; updateDatabaseConfiguration] s1 s2).
  - reflexivity.
  - vm_compute. reflexivity.
  - vm_compute. reflexivity.
Defined.

(** One storage pod where three are wanted, the next id being 2: the
    pods 2 and 3 are created and NextInstanceID becomes 4. *)
Lemma add_pods_only_creates_witness :
  let c := setNextInstanceID 2 Scenario.myCluster in
  let s' := (run addPods Scenario.onePodOfThree).1 in
  (run addPods Scenario.onePodOfThree).2 = Returned None
  /\ cluster s' = setNextInstanceID 4 c
  /\ log s'
     = [ClientList (getPodListOptions c "storage");
        ClientCreate (PodObject (GetPod c "storage" 2));
        ClientCreate (PodObject (GetPod c "storage" 3));
        ClientUpdate (ClusterObject (setNextInstanceID 4 c))].
Proof.
  intros c s'.
  destruct (add_pods_only_creates Scenario.onePodOfThree) as [_ Hlisted].
  destruct (Hlisted (world Scenario.onePodOfThree) (take 1 Scenario.threePods) eq_refl)
    as [_ Hmissing].
  { vm_compute. split; discriminate. }
  { vm_compute. discriminate. }
  destruct Hmissing as (Hreturn & Hcluster & Hlog).
  { vm_compute. reflexivity. }
  { vm_compute. discriminate. }
  { vm_compute. discriminate. }
  { intros o w. reflexivity. }
  { intros o w. reflexivity. }
  split; [exact Hreturn|]. split; [exact Hcluster|exact Hlog].
Defined.

(** Two storage pods for three coordinators. *)
Lemma too_few_pods_persist_nothing_witness :
  run (generateInitialClusterFile 0) Scenario.bootstrapTooFew
  = ({| world := world Scenario.bootstrapTooFew; cluster := Scenario.myCluster;
        log := [ClientList (getPodListOptions Scenario.myCluster "storage")] |},
     Returned (Some (ErrorString "Cannot find enough pods to recruit coordinators")))
  /\ ConnectionString (Spec Scenario.myCluster) = "".
Proof.
  split; [|reflexivity].
  apply (too_few_pods_persist_nothing 0 Scenario.bootstrapTooFew
           (world Scenario.bootstrapTooFew) (take 2 Scenario.threePods)).
  - reflexivity.
  - reflexivity.
  - vm_compute. reflexivity.
Defined.

Lemma orderlyPlatform_inListingOrder : @inListingOrder _ _ _ Scenario.orderlyPlatform.
Proof. intros n w. reflexivity. Qed.

(** The literal scenario: the cluster "my-cluster", three storage pods
    at 10.0.0.1, 10.0.0.2 and 10.0.0.3, their clients arriving in
    listing order. *)
Lemma initial_cluster_file_connection_string_witness :
  ConnectionString
    (Spec (cluster (run (@generateInitialClusterFile _ _ _ Scenario.orderlyPlatform 0)
                        Scenario.bootstrapInOrder).1))
  = "my_cluster:init@10.0.0.1:4500,10.0.0.2:4500,10.0.0.3:4500".
Proof.
  destruct (@initial_cluster_file_connection_string _ _ _ Scenario.orderlyPlatform 0
              Scenario.bootstrapInOrder) as [_ Hempty].
  destruct (Hempty (world Scenario.bootstrapInOrder) Scenario.threePods eq_refl eq_refl)
    as (order & _ & Horder & Hcluster & _).
  { vm_compute. split; discriminate. }
  { intros p Hp c w. vm_compute in Hp.
    destruct Hp as [<-|[<-|[<-|[]]]]; eexists; split; reflexivity. }
  rewrite Hcluster, (Horder orderlyPlatform_inListingOrder). reflexivity.
Defined.

(** C2, as stated, fails when the clients do not arrive in listing
    order: in the literal scenario (ConnectionString empty, the three
    storage pods listed at 10.0.0.1, 10.0.0.2, 10.0.0.3, three
    coordinators wanted), the goroutine of the second pod being heard
    first, the step returns nil and the connection string it sets and
    sends to the platform starts with the second pod's address. *)
Lemma arrival_order_decides_the_connection_string :
  let s := Scenario.bootstrapSecondFirst in
  let s' := (run (generateInitialClusterFile 0) s).1 in
  Name (ClusterMeta (cluster s)) = "my-cluster"
  /\ ConnectionString (Spec (cluster s)) = ""
  /\ DesiredCoordinatorCount (cluster s) = 3
  /\ option_map (map PodIP)
       (match snd (listPods (getPodListOptions (cluster s) "storage") (world s)) with
        | inl pods => Some pods
        | inr _ => None
        end)
     = Some ["10.0.0.1"; "10.0.0.2"; "10.0.0.3"]
  /\ (run (generateInitialClusterFile 0) s).2 = Returned None
  /\ ConnectionString (Spec (cluster s'))
     = "my_cluster:init@10.0.0.2:4500,10.0.0.1:4500,10.0.0.3:4500"
  /\ option_map (fun c => ConnectionString (Spec c)) (Scenario.storedCluster (world s'))
     = Some "my_cluster:init@10.0.0.2:4500,10.0.0.1:4500,10.0.0.3:4500"
  /\ String.eqb (ConnectionString (Spec (cluster s')))
                "my_cluster:init@10.0.0.1:4500,10.0.0.2:4500,10.0.0.3:4500" = false.
Proof. vm_compute. repeat split. Qed.

End LegacyFacts.

(* ===================================================================== *)
(** ** controllers/: ReplaceMisconfiguredPods *)
(* ===================================================================== *)

Module ControllersFacts.
Import Controllers Rule.

Section Facts.
Context {PendingRemovalState Pod W : Type}.
Context {reconciler : Reconciler PendingRemovalState Pod W}.

Abbreviation Cluster := (FoundationDBCluster PendingRemovalState).
Abbreviation Instance := (FdbInstance Pod).
Abbreviation State := (Controllers.State PendingRemovalState Pod W).
Abbreviation Call := (Controllers.Call PendingRemovalState Pod).
Abbreviation Locals := (Controllers.Locals PendingRemovalState).

(** One claim: the locals and the state come out as they went in. *)
Lemma claimBody_inert (pvc : PersistentVolumeClaim) (l : Locals) (s : State) :
  (claimBody pvc l s).1 = s
  /\ match (claimBody pvc l s).2 with
     | Next l' => l' = l
     | Return r => exists e, r = (false, Some e)
     | Panic _ => True
     | Blocked => False
     end.
Proof.
  unfold claimBody, check. unfold_go. cbn [fst snd].
  destruct (ownedByCluster (cluster s) pvc); cbn [negb]; [|done].
  case_decide; [done|].
  destruct (ParseInstanceID (GetInstanceIDFromMeta (ClaimMeta pvc))) as [[class idNum] [e|]];
    cbn [fst snd]; [eauto|].
  destruct (GetPvc (cluster s) (GetProcessClassFromMeta (ClaimMeta pvc)) idNum) as [[desired|] err'];
    cbn [fst snd]; [|done].
  destruct (GetJSONHash (ClaimSpec desired)) as [pvcHash [e|]]; cbn [fst snd];
    rewrite andb_false_r; cbn [fst snd]; eauto.
Qed.

Lemma claimLoop_inert (pvcs : list PersistentVolumeClaim) (l : Locals) (s : State) :
  (forRange pvcs claimBody l s).1 = s
  /\ match (forRange pvcs claimBody l s).2 with
     | Next l' => l' = l
     | Return r => exists e, r = (false, Some e)
     | Panic _ => True
     | Blocked => False
     end.
Proof.
  induction pvcs as [|pvc pvcs IH]; cbn [forRange]; [done|].
  unfold_go. destruct (claimBody_inert pvc l s) as [Hs Ho].
  destruct (claimBody pvc l s) as [s1 [l1|r|msg|]]; cbn [fst snd] in *; subst; try done.
Qed.


Lemma needsRemoval_sameSpec c c' instance :
  statusBlind -> sameSpec c c' -> needsRemoval c instance = needsRemoval c' instance.
Proof.
  intros Hblind [Hm Hs]. unfold needsRemoval.
  destruct (Hblind c c' (GetProcessClass instance)
              (ParseInstanceID (GetInstanceID instance)).1.2 Hm Hs) as [-> ->].
  by rewrite Hs.
Qed.

(** One instance of the second loop. *)
Lemma instanceBody_step (instance : Instance) (l : Locals) (s : State) :
  world (instanceBody instance l s).1 = world s
  /\ log (instanceBody instance l s).1 = log s
  /\ sameSpec (cluster (instanceBody instance l s).1) (cluster s)
  /\ (PendingRemovals (Status (cluster s)) = None -> (instanceBody instance l s).1 = s)
  /\ (is_Some (PendingRemovals (Status (cluster s))) ->
      is_Some (PendingRemovals (Status (cluster (instanceBody instance l s).1))))
  /\ match (instanceBody instance l s).2 with
     | Next l' =>
         (tracks l s -> tracks l' (instanceBody instance l s).1)
         /\ ((l' = l /\ (instanceBody instance l s).1 = s
              /\ (running instance -> removals l !! GetInstanceID instance = None ->
                  needsRemoval (cluster s) instance = false))
             \/ (running instance /\ removals l !! GetInstanceID instance = None
                 /\ needsRemoval (cluster s) instance = true
                 /\ l' = {| removals := <[GetInstanceID instance := getPendingRemovalState instance]> (removals l);
                            hasNewRemovals := true |}))
     | Return r => (instanceBody instance l s).1 = s /\ exists e, r = (false, Some e)
     | _ => False
     end.
Proof.
  unfold instanceBody, markForRemoval, check, assign, needsRemoval, running, tracks, sameSpec.
  unfold_go. cbn [fst snd].
  destruct (InstancePod instance) as [pod|]; cbn [fst snd].
  2:{ repeat split; try done. left. repeat split; try done. }
  case_decide as Hin; cbn [fst snd].
  { repeat split; try done. left. repeat split; try done.
    intros _ Hnone. rewrite Hnone in Hin. by destruct Hin. }
  assert (Hnone : removals l !! GetInstanceID instance = None).
  { destruct (removals l !! GetInstanceID instance) eqn:E; [|done]. exfalso. apply Hin. eauto. }
  destruct (ParseInstanceID (GetInstanceID instance)) as [[class idNum] [e|]] eqn:Hparse;
    cbn [fst snd]; [repeat split; eauto|].
  destruct (getInstanceID (cluster s) (GetProcessClass instance) idNum) as [x desiredID] eqn:Hid;
    cbn [fst snd].
  destruct (UpdatePodsByReplacement (Spec (cluster s))) eqn:Hupd; cbn [fst snd andb].
  - destruct (GetPodSpecHash (cluster s) (GetProcessClass instance) idNum) as [specHash [e|]] eqn:Hhash;
      cbn [fst snd]; [repeat split; eauto|].
    destruct (decide (GetInstanceID instance ≠ desiredID)) as [Hne|Heq];
      destruct (decide (index (Annotations (Metadata instance)) LastSpecKey ≠ specHash)) as [Hne'|Heq'];
      cbn [fst snd];
      rewrite ?(bool_decide_eq_true_2 _ Hne), ?(bool_decide_eq_false_2 _ Heq),
              ?(bool_decide_eq_true_2 _ Hne'), ?(bool_decide_eq_false_2 _ Heq'); cbn [orb].
    all: try (destruct (PendingRemovals (Status (cluster s))) as [m|] eqn:Hm; cbn [fst snd cluster world log];
              repeat split; try done; try (rewrite ?Hm; done); right; repeat split; eauto; fail).
    repeat split; try done. left. repeat split; done.
  - rewrite orb_false_r.
    destruct (decide (GetInstanceID instance ≠ desiredID)) as [Hne|Heq]; cbn [fst snd];
      rewrite ?(bool_decide_eq_true_2 _ Hne), ?(bool_decide_eq_false_2 _ Heq).
    + destruct (PendingRemovals (Status (cluster s))) as [m|] eqn:Hm; cbn [fst snd cluster world log];
        repeat split; try done; try (rewrite ?Hm; done); right; repeat split; eauto.
    + repeat split; try done. left. repeat split; done.
Qed.


Lemma sameSpec_trans (c1 c2 c3 : Cluster) : sameSpec c1 c2 -> sameSpec c2 c3 -> sameSpec c1 c3.
Proof. intros [? ?] [? ?]. split; congruence. Qed.

Lemma sameSpec_sym (c1 c2 : Cluster) : sameSpec c1 c2 -> sameSpec c2 c1.
Proof. intros [? ?]. by split. Qed.

(** The second loop, whatever its outcome. *)
Lemma instanceLoop_frame (instances : list Instance) (l : Locals) (s : State) :
  world (forRange instances instanceBody l s).1 = world s
  /\ log (forRange instances instanceBody l s).1 = log s
  /\ sameSpec (cluster (forRange instances instanceBody l s).1) (cluster s)
  /\ (PendingRemovals (Status (cluster s)) = None -> (forRange instances instanceBody l s).1 = s)
  /\ (is_Some (PendingRemovals (Status (cluster s))) ->
      is_Some (PendingRemovals (Status (cluster (forRange instances instanceBody l s).1))))
  /\ (exists l'', (tracks l s -> tracks l'' (forRange instances instanceBody l s).1)
        /\ removals l ⊆ removals l''
        /\ (forall l', (forRange instances instanceBody l s).2 = Next l' -> l'' = l'))
  /\ match (forRange instances instanceBody l s).2 with
     | Next l' =>
         (hasNewRemovals l = true -> hasNewRemovals l' = true)
         /\ (hasNewRemovals l' = false -> removals l' = removals l)
         /\ (hasNewRemovals l' = true ->
             hasNewRemovals l = true
             \/ exists id, removals l !! id = None /\ is_Some (removals l' !! id))
     | Return r => exists e, r = (false, Some e)
     | _ => False
     end.
Proof.
  revert l s. induction instances as [|instance instances IH]; intros l s; cbn [forRange].
  - unfold_go. cbn [fst snd]. repeat split; try done.
    + exists l. repeat split; try done. by intros l' [= <-].
    + by left.
  - unfold_go.
    destruct (instanceBody_step instance l s) as (Hw & Hlog & Hsame & Hnil & Hsome & Hout).
    destruct (instanceBody instance l s) as [s1 [l1|r|msg|]]; cbn [fst snd] in *; try done.
    + destruct Hout as [Htr Hcase].
      destruct (IH l1 s1)
        as (Hw' & Hlog' & Hsame' & Hnil' & Hsome' & (l2 & Htr2 & Hsub2 & Hnext2) & Hout').
      split; [congruence|]. split; [congruence|].
      split; [by eapply sameSpec_trans|].
      split.
      { intros Hn. specialize (Hnil Hn). subst s1. by apply Hnil'. }
      split; [auto|].
      assert (Hsub : removals l ⊆ removals l1).
      { destruct Hcase as [(-> & _ & _)|(_ & Hnone & _ & ->)]; [done|].
        cbn [removals]. by apply insert_subseteq. }
      split.
      { exists l2. split; [auto|]. split; [by etrans|done]. }
      destruct (forRange instances instanceBody l1 s1) as [s2 [l'|r|msg|]]; cbn [fst snd] in *; try done.
      destruct Hout' as (Hmono & Hkeep & Hnew).
      destruct Hcase as [(-> & _ & _)|(_ & Hnone & _ & ->)]; [done|].
      cbn [hasNewRemovals removals] in *.
      split; [auto|]. split.
      { intros Hf. rewrite Hmono in Hf; done. }
      intros _. right. exists (GetInstanceID instance). split; [done|].
      specialize (Hnext2 l' eq_refl). subst l2.
      eapply lookup_weaken_is_Some; [|exact Hsub2].
      rewrite lookup_insert_eq. eauto.
    + destruct Hout as [-> [e ->]]. repeat split; try done; [|eauto].
      exists l. repeat split; try done.
Qed.

(** The second loop when it runs to its end: which identifiers it holds. *)
Lemma instanceLoop_rule (c0 : Cluster) (instances : list Instance) (l l' : Locals) (s s' : State) :
  statusBlind -> sameSpec c0 (cluster s) ->
  forRange instances instanceBody l s = (s', Next l') ->
  forall id,
    is_Some (removals l' !! id)
    <-> is_Some (removals l !! id)
        \/ exists instance, In instance instances /\ running instance
             /\ GetInstanceID instance = id /\ needsRemoval c0 instance = true.
Proof.
  intros Hblind. revert l s. induction instances as [|instance instances IH]; intros l s Hsame Hrun id.
  - cbn [forRange] in Hrun. unfold_go. injection Hrun as <- <-.
    split; [by left|]. intros [H|(i & [] & _)]; done.
  - cbn [forRange] in Hrun. unfold_go.
    destruct (instanceBody_step instance l s) as (_ & _ & Hsame1 & _ & _ & Hout).
    destruct (instanceBody instance l s) as [s1 [l1|r|msg|]]; cbn [fst snd] in *; try done.
    destruct Hout as [_ Hcase].
    assert (Hsame01 : sameSpec c0 (cluster s1)).
    { eapply sameSpec_trans; [exact Hsame|]. by apply sameSpec_sym. }
    rewrite (IH l1 s1 Hsame01 Hrun id).
    destruct Hcase as [(-> & -> & Hnot)|(Hrunning & Hnone & Hneeds & ->)].
    + split.
      * intros [H|(i & Hin & Hi)]; [by left|]. right. exists i. split; [by right|done].
      * intros [H|(i & [<-|Hin] & Hr & Hid & Hn)]; [by left| |right; eauto].
        left. subst id.
        destruct (removals l !! GetInstanceID instance) eqn:E; [eauto|].
        rewrite (needsRemoval_sameSpec c0 (cluster s) instance Hblind Hsame) in Hn.
        rewrite (Hnot Hr eq_refl) in Hn. done.
    + cbn [removals]. split.
      * intros [H|(i & Hin & Hi)].
        -- destruct (decide (GetInstanceID instance = id)) as [<-|Hne].
           ++ right. exists instance. split; [by left|]. repeat split; try done.
              by rewrite (needsRemoval_sameSpec c0 (cluster s) instance Hblind Hsame).
           ++ left. by rewrite lookup_insert_ne in H.
        -- right. exists i. split; [by right|done].
      * intros [H|(i & [<-|Hin] & Hr & Hid & Hn)].
        -- left. destruct (decide (GetInstanceID instance = id)) as [<-|Hne].
           ++ rewrite lookup_insert_eq. eauto.
           ++ by rewrite lookup_insert_ne.
        -- left. subst id. rewrite lookup_insert_eq. eauto.
        -- right. eauto.
Qed.


Lemma shared_map (l0 l2 : Locals) (s2 s3 : State) :
  removals l0 = pendingRemovals (cluster s2) ->
  (PendingRemovals (Status (cluster s2)) = None -> s3 = s2) ->
  (is_Some (PendingRemovals (Status (cluster s2))) ->
   is_Some (PendingRemovals (Status (cluster s3)))) ->
  (tracks l0 s2 -> tracks l2 s3) ->
  s3 = s2 \/ pendingRemovals (cluster s3) = removals l2.
Proof.
  intros Hl0 Hnil Hsome Htr. unfold tracks, pendingRemovals in *.
  destruct (PendingRemovals (Status (cluster s2))) as [m|]; [|left; auto].
  right. destruct Hsome as [m3 Hm3]; [eauto|]. rewrite Hm3 in *. simpl in *.
  apply Htr. done.
Qed.

(** The shape of a run of the step: what it calls, and what it leaves in
    the cluster object. *)
Lemma reconcile_cases (s : State) :
  let c := cluster s in
  let opts := getPodListOptions c "" "" in
  let l0 : Locals := {| hasNewRemovals := false; removals := pendingRemovals c |} in
  let r := run ReplaceMisconfiguredPods_Reconcile s in
  (* stopped before the second loop, or in it *)
  ((log r.1 = log s ++ [ClientListClaims opts]
    \/ log r.1 = log s ++ [ClientListClaims opts; GetInstances c opts])
   /\ r.2 <> Returned (true, None)
   /\ pendingRemovals c ⊆ pendingRemovals (cluster r.1))
  \/ (* the second loop ran to its end *)
  exists pvcs w1 instances w2 s3 l',
    listClaims opts (world s) = (w1, inl pvcs)
    /\ getInstances c opts w1 = (w2, inl instances)
    /\ forRange instances instanceBody l0
         {| world := w2; cluster := c; log := log s ++ [ClientListClaims opts; GetInstances c opts] |}
       = (s3, Next l')
    /\ pendingRemovals (cluster r.1) = removals l'
    /\ ((hasNewRemovals l' = false /\ r = (s3, Returned (true, None)))
        \/ (hasNewRemovals l' = true
            /\ log r.1 = log s ++ [ClientListClaims opts; GetInstances c opts; StatusUpdate (cluster r.1)])).
Proof.
  intros c opts l0 r. subst r.
  unfold run, ReplaceMisconfiguredPods_Reconcile, perform, orReturn, check, assign. unfold_go.
  cbn [fst snd world cluster log]. fold c. fold opts.
  destruct (listClaims opts (world s)) as [w1 [pvcs|e]] eqn:Hclaims; cbn [fst snd world cluster log].
  2:{ left. split; [by left|]. split; done. }
  match goal with |- context [forRange pvcs claimBody ?l ?st] =>
    destruct (claimLoop_inert pvcs l st) as [Hs1 Ho1];
    destruct (forRange pvcs claimBody l st) as [s1 [l1|r1|msg|]] eqn:Hloop1 end;
    cbn [fst snd] in *; subst; cbn [fst snd world cluster log]; try done.
  2:{ destruct Ho1 as [e ->]. left. split; [by left|]. split; done. }
  2:{ left. split; [by left|]. split; done. }
  fold c. fold opts.
  destruct (getInstances c opts w1) as [w2 [instances|e]] eqn:Hinst; cbn [fst snd world cluster log].
  2:{ left. rewrite <- app_assoc. split; [by right|]. split; done. }
  rewrite <- app_assoc. cbn [app].
  match goal with |- context [forRange instances instanceBody ?l ?st] =>
    set (s2 := st);
    destruct (instanceLoop_frame instances l s2)
      as (Hw & Hlog & Hsame & Hnil & Hsome & (l2 & Htr & Hsub & Hnext) & Hout);
    destruct (forRange instances instanceBody l s2) as [s3 [l'|r3|msg|]] eqn:Hloop2 end;
    cbn [fst snd] in *; try done.
  2:{ destruct Hout as [e ->]. left. split; [by right|]. split; [done|].
      cbn [fst snd].
      destruct (shared_map l0 l2 s2 s3 eq_refl Hnil Hsome Htr) as [-> | ->]; [done|exact Hsub]. }
  specialize (Hnext l' eq_refl). subst l2.
  destruct Hout as (Hmono & Hkeep & Hnew).
  right. exists pvcs, w1, instances, w2, s3, l'.
  split; [done|]. split; [done|]. split; [done|].
  destruct (hasNewRemovals l') eqn:Hhas; cbn [fst snd world cluster log].
  - destruct (statusUpdate _ (world s3)) as [w4 [e|]]; cbn [fst snd world cluster log];
      (split; [done|]); right; (split; [done|]); rewrite Hlog; unfold s2; cbn [log];
      rewrite <- app_assoc; done.
  - split; [|by left].
    specialize (Hkeep eq_refl).
    destruct (shared_map l0 l' s2 s3 eq_refl Hnil Hsome Htr) as [-> | ->]; [|done].
    by rewrite Hkeep.
Qed.


(** An instance that is already pending, or has no pod, is passed over:
    nothing is computed for it. *)
Lemma instanceBody_pending (instance : Instance) (l : Locals) (s : State) :
  is_Some (removals l !! GetInstanceID instance) ->
  instanceBody instance l s = (s, Next l).
Proof.
  intros Hin. unfold instanceBody. unfold_go.
  destruct (InstancePod instance) as [pod|]; [|done].
  by rewrite decide_True.
Qed.

Lemma instanceLoop_pending (instances : list Instance) (l : Locals) (s : State) :
  (forall instance, In instance instances -> running instance ->
     is_Some (removals l !! GetInstanceID instance)) ->
  forRange instances instanceBody l s = (s, Next l).
Proof.
  induction instances as [|instance instances IH]; intros Hall; cbn [forRange]; [done|].
  unfold_go.
  assert (Hbody : instanceBody instance l s = (s, Next l)).
  { destruct (InstancePod instance) as [pod|] eqn:Hpod.
    - apply instanceBody_pending. apply Hall; [by left|]. unfold running. rewrite Hpod. eauto.
    - unfold instanceBody. by rewrite Hpod. }
  rewrite Hbody. apply IH. intros i Hi. apply Hall. by right.
Qed.

(** A run in which every listed instance with a pod is pending already. *)
Lemma reconcile_all_pending (s : State) (instances : list Instance) :
  let c := cluster s in
  let opts := getPodListOptions c "" "" in
  let r := run ReplaceMisconfiguredPods_Reconcile s in
  listedInstances s = inl instances ->
  (forall instance, In instance instances -> running instance ->
     is_Some (pendingRemovals c !! GetInstanceID instance)) ->
  cluster r.1 = c
  /\ ((r.2 = Returned (true, None)
       /\ log r.1 = log s ++ [ClientListClaims opts; GetInstances c opts])
      \/ (r.2 <> Returned (true, None) /\ log r.1 = log s ++ [ClientListClaims opts])).
Proof.
  intros c opts r Hlisted Hall. subst r.
  unfold listedInstances in Hlisted. fold c in Hlisted. fold opts in Hlisted.
  unfold run, ReplaceMisconfiguredPods_Reconcile, perform, orReturn, check, assign. unfold_go.
  cbn [fst snd world cluster log]. fold c. fold opts.
  destruct (listClaims opts (world s)) as [w1 [pvcs|e]] eqn:Hclaims; cbn [fst snd world cluster log] in *.
  2:{ split; [done|]. right. done. }
  match goal with |- context [forRange pvcs claimBody ?l ?st] =>
    destruct (claimLoop_inert pvcs l st) as [Hs1 Ho1];
    destruct (forRange pvcs claimBody l st) as [s1 [l1|r1|msg|]] eqn:Hloop1 end;
    cbn [fst snd] in *; subst; cbn [fst snd world cluster log]; try done.
  2:{ destruct Ho1 as [e ->]. split; [done|]. right. done. }
  2:{ split; [done|]. right. done. }
  fold c. fold opts.
  destruct (getInstances c opts w1) as [w2 listed] eqn:Hinst. cbn [snd] in Hlisted. subst listed.
  cbn [fst snd world cluster log].
  rewrite instanceLoop_pending by exact Hall.
  cbn [fst snd hasNewRemovals world cluster log]. split; [done|]. left.
  by rewrite <- app_assoc.
Qed.

(** C3: the loop over the volume claims never changes the state nor the
    local variables [removals] and [hasNewRemovals], whatever the
    stamped hashes of the claims are: it falls through with the locals
    it was given or returns an error.  A run of the step makes at most
    the calls: listing of the claims, one listing of all the instances,
    one status update; the listing of a single instance, which only the
    branch guarded by the claim's hash makes, is never among them. *)
Theorem claim_hash_never_marks_for_removal (pvcs : list PersistentVolumeClaim) (l : Locals) (s : State) :
  ((forRange pvcs claimBody l s).1 = s
   /\ match (forRange pvcs claimBody l s).2 with
      | Next l' => l' = l
      | Return r => exists e, r = (false, Some e)
      | Panic _ => True
      | Blocked => False
      end)
  /\ (let c := cluster s in
      let opts := getPodListOptions c "" "" in
      let s' := (run ReplaceMisconfiguredPods_Reconcile s).1 in
      log s' = log s ++ [ClientListClaims opts]
      \/ log s' = log s ++ [ClientListClaims opts; GetInstances c opts]
      \/ log s' = log s ++ [ClientListClaims opts; GetInstances c opts; StatusUpdate (cluster s')]).
Proof.
  split; [apply claimLoop_inert|].
  intros c opts s'. subst s'.
  destruct (reconcile_cases s) as [([Hl|Hl] & _ & _)|(pvcs' & w1 & instances & w2 & s3 & l' & _ & _ & Hloop & _ & Hend)];
    [by left|by right; left|].
  destruct Hend as [[_ ->]|[_ Hl]]; [|by right; right].
  right; left. cbn [fst].
  pose proof (instanceLoop_frame instances
                {| hasNewRemovals := false; removals := pendingRemovals (cluster s) |}
                {| world := w2; cluster := cluster s;
                   log := log s ++ [ClientListClaims (getPodListOptions (cluster s) "" "");
                                    GetInstances (cluster s) (getPodListOptions (cluster s) "" "")] |})
    as (_ & Hlog & _).
  rewrite Hloop in Hlog. exact Hlog.
Qed.

(** C1: (1) every entry of PendingRemovals present before the step is
    present, unchanged, after it; (2) the step writes the cluster status
    at most once, and only after it added an identifier that was not
    pending, the object written being the one it leaves; (3) when the
    step runs to its end, a listed running instance that was not pending
    is pending afterwards exactly when some listed running instance with
    its identifier has an identifier other than the one computed for its
    (process class, numeric id), or UpdatePodsByReplacement is set and
    its stamped spec hash is not the computed one; identifiers being
    borne by one instance each, exactly when it is so itself; (4) an
    instance whose identifier is pending already is passed over before
    anything is computed for it: neither its identifier is parsed nor
    the desired identifier or hash computed, whatever they would
    answer; (5) so a run in which every listed instance with a pod is
    pending already leaves the cluster object as it was and, unless the
    listing or the loop over the claims stopped it, returns done after
    the two listings, without a status update. *)
Theorem replace_misconfigured_pods_rule (s : State) :
  let c := cluster s in
  let before := pendingRemovals c in
  let r := run ReplaceMisconfiguredPods_Reconcile s in
  let after := pendingRemovals (cluster r.1) in
  (forall id st, before !! id = Some st -> after !! id = Some st)
  /\ (exists calls,
        log r.1 = log s ++ calls
        /\ (length (List.filter isStatusUpdate calls) <= 1)%nat
        /\ forall c', In (StatusUpdate c') calls ->
             c' = cluster r.1 /\ exists id, before !! id = None /\ is_Some (after !! id))
  /\ (statusBlind -> r.2 = Returned (true, None) ->
      exists instances,
        listedInstances s = inl instances
        /\ forall instance,
             In instance instances -> running instance ->
             before !! GetInstanceID instance = None ->
             (is_Some (after !! GetInstanceID instance)
              <-> exists other, In other instances /\ running other
                    /\ GetInstanceID other = GetInstanceID instance
                    /\ needsRemoval c other = true)
             /\ ((forall other, In other instances -> running other ->
                    GetInstanceID other = GetInstanceID instance -> other = instance) ->
                 (is_Some (after !! GetInstanceID instance) <-> needsRemoval c instance = true)))
  /\ (forall instance l s',
        is_Some (removals l !! GetInstanceID instance) ->
        instanceBody instance l s' = (s', Next l))
  /\ (forall instances,
        listedInstances s = inl instances ->
        (forall instance, In instance instances -> running instance ->
           is_Some (before !! GetInstanceID instance)) ->
        cluster r.1 = c
        /\ ((r.2 = Returned (true, None)
             /\ log r.1 = log s ++ [ClientListClaims (getPodListOptions c "" "");
                                    GetInstances c (getPodListOptions c "" "")])
            \/ (r.2 <> Returned (true, None)
                /\ log r.1 = log s ++ [ClientListClaims (getPodListOptions c "" "")]))).
Proof.
  intros c before r after.
  assert (Hskip : (forall instance l s',
                     is_Some (removals l !! GetInstanceID instance) ->
                     instanceBody instance l s' = (s', Next l))
                  /\ (forall instances,
                        listedInstances s = inl instances ->
                        (forall instance, In instance instances -> running instance ->
                           is_Some (before !! GetInstanceID instance)) ->
                        cluster r.1 = c
                        /\ ((r.2 = Returned (true, None)
                             /\ log r.1 = log s ++ [ClientListClaims (getPodListOptions c "" "");
                                                    GetInstances c (getPodListOptions c "" "")])
                            \/ (r.2 <> Returned (true, None)
                                /\ log r.1 = log s ++ [ClientListClaims (getPodListOptions c "" "")])))).
  { split; [intros instance l s'; apply instanceBody_pending|].
    intros instances Hlisted Hall. exact (reconcile_all_pending s instances Hlisted Hall). }
  cut ((forall id st, before !! id = Some st -> after !! id = Some st)
       /\ (exists calls,
             log r.1 = log s ++ calls
             /\ (length (List.filter isStatusUpdate calls) <= 1)%nat
             /\ forall c', In (StatusUpdate c') calls ->
                  c' = cluster r.1 /\ exists id, before !! id = None /\ is_Some (after !! id))
       /\ (statusBlind -> r.2 = Returned (true, None) ->
           exists instances,
             listedInstances s = inl instances
             /\ forall instance,
                  In instance instances -> running instance ->
                  before !! GetInstanceID instance = None ->
                  (is_Some (after !! GetInstanceID instance)
                   <-> exists other, In other instances /\ running other
                         /\ GetInstanceID other = GetInstanceID instance
                         /\ needsRemoval c other = true)
                  /\ ((forall other, In other instances -> running other ->
                         GetInstanceID other = GetInstanceID instance -> other = instance) ->
                      (is_Some (after !! GetInstanceID instance) <-> needsRemoval c instance = true)))).
  { intros (H1 & H2 & H3). destruct Hskip as [H4 H5].
    split; [exact H1|]. split; [exact H2|]. split; [exact H3|]. split; [exact H4|exact H5]. }
  clear Hskip. subst after r before.
  destruct (reconcile_cases s)
    as [(Hl & Hne & Hsub)|(pvcs & w1 & instances & w2 & s3 & l' & Hclaims & Hinst & Hloop & Hafter & Hend)].
  - fold c in Hl, Hsub |- *. split; [|split].
    + intros id st Hid. by eapply lookup_weaken.
    + destruct Hl as [Hl|Hl]; eexists; (split; [exact Hl|]); (split; [simpl; lia|]);
        intros c' Hin; simpl in Hin; intuition congruence.
    + intros _ Hr. done.
  - fold c in Hclaims, Hinst, Hloop, Hafter, Hend |- *.
    set (l0 := {| hasNewRemovals := false; removals := pendingRemovals c |} : Locals) in *.
    set (opts := getPodListOptions c "" "") in *.
    set (s2 := {| world := w2; cluster := c;
                  log := log s ++ [ClientListClaims opts; GetInstances c opts] |}) in *.
    destruct (instanceLoop_frame instances l0 s2)
      as (_ & Hlog & _ & _ & _ & (l2 & _ & Hsub & Hnext) & Hout).
    rewrite Hloop in Hlog, Hnext, Hout. cbn [fst snd] in Hlog, Hnext, Hout.
    specialize (Hnext l' eq_refl). subst l2.
    destruct Hout as (_ & _ & Hnew).
    rewrite Hafter. split; [|split].
    + intros id st Hid. by eapply lookup_weaken.
    + destruct Hend as [[Hhas Hr]|[Hhas Hl]].
      * exists [ClientListClaims opts; GetInstances c opts].
        rewrite Hr. cbn [fst]. split; [exact Hlog|]. split; [simpl; lia|].
        intros c' Hin. simpl in Hin. intuition congruence.
      * eexists. split; [exact Hl|]. split; [simpl; lia|].
        intros c' Hin. simpl in Hin. destruct Hin as [|[|[[= <-]|[]]]]; try done.
        split; [done|]. destruct (Hnew Hhas) as [|Hid]; [done|exact Hid].
    + intros Hblind _. exists instances. split.
      { unfold listedInstances. fold c. fold opts. rewrite Hclaims. cbn [fst]. by rewrite Hinst. }
      intros instance Hin Hrunning Hbefore.
      pose proof (instanceLoop_rule c instances l0 l' s2 s3 Hblind (conj eq_refl eq_refl) Hloop
                    (GetInstanceID instance)) as Hrule.
      assert (Hiff : is_Some (removals l' !! GetInstanceID instance)
                     <-> exists other, In other instances /\ running other
                           /\ GetInstanceID other = GetInstanceID instance
                           /\ needsRemoval c other = true).
      { rewrite Hrule. split; [|by right].
        intros [Hs|H]; [|done]. unfold l0 in Hs. cbn [removals] in Hs.
        rewrite Hbefore in Hs. by destruct Hs. }
      split; [exact Hiff|].
      intros Huniq. rewrite Hiff. split.
      * intros (other & Hin' & Hr' & Hid & Hn). by rewrite <- (Huniq other Hin' Hr' Hid).
      * intros Hn. exists instance. done.
Qed.

End Facts.

(** *** On the double of the reconciler *)

Lemma fakeReconciler_statusBlind : @statusBlind _ _ _ StepScenario.fakeReconciler.
Proof.
  intros c c' processClass idNum Hmeta Hspec. simpl.
  unfold StepScenario.desiredInstanceID, StepScenario.specHash. by rewrite Hmeta, Hspec.
Qed.

(** A claim of the cluster with an out-of-date stamped hash, whose
    instance is not pending: the loop leaves everything as it was. *)
Lemma claim_hash_never_marks_for_removal_witness :
  ownedByCluster StepScenario.myCluster StepScenario.staleClaim = true
  /\ bool_decide (index (Annotations (ClaimMeta StepScenario.staleClaim)) LastSpecKey
                  ≠ "claim-of-128G") = true
  /\ forRange [StepScenario.staleClaim] claimBody
       {| removals := ∅; hasNewRemovals := false |} StepScenario.threeInstances
     = (StepScenario.threeInstances, Next {| removals := ∅; hasNewRemovals := false |}).
Proof.
  split; [reflexivity|]. split; [reflexivity|].
  destruct (claim_hash_never_marks_for_removal [StepScenario.staleClaim]
              {| removals := ∅; hasNewRemovals := false |} StepScenario.threeInstances)
    as [[Hstate Hlocals] _].
  destruct (forRange [StepScenario.staleClaim] claimBody _ StepScenario.threeInstances)
    as [s' [l'|r|msg|]] eqn:Hloop; cbn [fst snd] in *.
  - by rewrite Hstate, Hlocals.
  - vm_compute in Hloop. discriminate Hloop.
  - vm_compute in Hloop. discriminate Hloop.
  - destruct Hlocals.
Defined.

(** Three listed instances, none pending: the one named before the
    prefix was set becomes pending, the one named as the spec wants it
    does not.  And with a pending instance whose identifier does not
    parse: it is passed over, and the step is done without a status
    update. *)
Lemma replace_misconfigured_pods_rule_witness :
  (needsRemoval StepScenario.myCluster StepScenario.renumbered = true
   /\ is_Some (pendingRemovals
                 (cluster (run ReplaceMisconfiguredPods_Reconcile StepScenario.threeInstances).1)
               !! "storage-1")
   /\ needsRemoval StepScenario.myCluster StepScenario.current = false
   /\ (is_Some (pendingRemovals
                  (cluster (run ReplaceMisconfiguredPods_Reconcile StepScenario.threeInstances).1)
                !! "dc1-storage-2")
       <-> needsRemoval StepScenario.myCluster StepScenario.current = true))
  /\ (snd (ParseInstanceID (GetInstanceID StepScenario.unnumbered))
      = Some (MalformedIdentifier "storage-x")
      /\ cluster (run ReplaceMisconfiguredPods_Reconcile StepScenario.draining).1
         = StepScenario.myClusterDraining
      /\ (run ReplaceMisconfiguredPods_Reconcile StepScenario.draining).2 = Returned (true, None)
      /\ log (run ReplaceMisconfiguredPods_Reconcile StepScenario.draining).1
         = [ClientListClaims (getPodListOptions StepScenario.myClusterDraining "" "");
            GetInstances StepScenario.myClusterDraining
              (getPodListOptions StepScenario.myClusterDraining "" "")]).
Proof.
  split.
  - destruct (replace_misconfigured_pods_rule StepScenario.threeInstances) as (_ & _ & Hrule & _).
    destruct (Hrule fakeReconciler_statusBlind eq_refl) as (instances & Hlisted & Hall).
    injection Hlisted as <-.
    assert (Huniq : forall i other : FdbInstance string,
              In i [StepScenario.renumbered; StepScenario.current; StepScenario.synced] ->
              In other [StepScenario.renumbered; StepScenario.current; StepScenario.synced] ->
              GetInstanceID other = GetInstanceID i -> other = i).
    { intros i other Hi Ho. simpl in Hi, Ho.
      destruct Hi as [<-|[<-|[<-|[]]]]; destruct Ho as [<-|[<-|[<-|[]]]];
        intros Hid; first [reflexivity | vm_compute in Hid; discriminate Hid]. }
    split; [reflexivity|]. split.
    + apply (Hall StepScenario.renumbered); [by left | by eexists | reflexivity | | reflexivity].
      intros other Ho _. apply Huniq; [by left | exact Ho].
    + split; [reflexivity|].
      apply (Hall StepScenario.current); [by right; left | by eexists | reflexivity |].
      intros other Ho _. apply Huniq; [by right; left | exact Ho].
  - split; [reflexivity|].
    destruct (replace_misconfigured_pods_rule StepScenario.draining) as (_ & _ & _ & _ & Hpending).
    destruct (Hpending [StepScenario.unnumbered; StepScenario.podless] eq_refl)
      as [Hcluster [[Hdone Hlog]|[Hstopped _]]].
    + intros i Hi Hrunning. simpl in Hi. destruct Hi as [<-|[<-|[]]].
      * by eexists.
      * destruct Hrunning as [pod Hpod]. discriminate Hpod.
    + split; [exact Hcluster|]. split; [exact Hdone|exact Hlog].
    + exfalso. apply Hstopped. reflexivity.
Defined.

End ControllersFacts.


(* ===================================================================== *)
(** ** controllers/: UpdateConfigMap *)
(* ===================================================================== *)

Module UpdateFacts.
Import Controllers Rule.

Section Facts.
Context {PendingRemovalState Pod W : Type}.
Context {reconciler : Reconciler PendingRemovalState Pod W}.

Abbreviation Cluster := (FoundationDBCluster PendingRemovalState).
Abbreviation Instance := (FdbInstance Pod).
Abbreviation State := (Controllers.State PendingRemovalState Pod W).
Abbreviation Call := (Controllers.Call PendingRemovalState Pod).



(** One instance of the loop, by what its collaborators answer. *)
Lemma syncInstance_cases (c : Cluster) (configMapHash : string) (instance : Instance) (s : State) :
  (upToDate configMapHash instance = true ->
   syncInstance c configMapHash instance tt s = (s, Next tt))
  /\ (upToDate configMapHash instance = false ->
      forall w1 synced err,
        updatePodDynamicConf c instance (world s) = (w1, (synced, err)) ->
        let pushed := {| world := w1; cluster := cluster s;
                         log := log s ++ [UpdatePodDynamicConf c instance] |} in
        match synced, Annotations (Metadata instance) with
        | false, _ =>
            syncInstance c configMapHash instance tt s = (pushed, Return (false, err))
        | true, None =>
            syncInstance c configMapHash instance tt s
            = (pushed, Panic "assignment to entry in nil map")
        | true, Some _ =>
            forall w2 err',
              updateMetadata c (stamped configMapHash instance) w1 = (w2, err') ->
              syncInstance c configMapHash instance tt s
              = ({| world := w2; cluster := cluster s;
                    log := log pushed ++ [UpdateMetadata c (stamped configMapHash instance)] |},
                 match err' with
                 | Some e => Return (false, Some e)
                 | None => Next tt
                 end)
        end).
Proof.
  unfold syncInstance, upToDate, stamped, perform, check. unfold_go.
  destruct (decide (index (Annotations (Metadata instance)) LastConfigMapKey ≠ configMapHash)) as [Hne|Heq].
  - rewrite (bool_decide_eq_false_2 _ Hne). split; [done|]. intros _ w1 synced err Hpush.
    rewrite Hpush. cbn [fst snd world cluster log].
    destruct synced; cbn [negb]; [|done].
    destruct (Annotations (Metadata instance)) as [annotations|]; [|done].
    intros w2 err' Hstamp. cbn [fst snd world cluster log]. rewrite Hstamp.
    cbn [fst snd world cluster log].
    by destruct err'.
  - apply dec_stable in Heq. rewrite (bool_decide_eq_true_2 _ Heq). split; [done|]. done.
Qed.

(** What one instance adds to the log. *)
Lemma syncInstance_step (c : Cluster) (configMapHash : string) (instance : Instance) (s : State) :
  cluster (syncInstance c configMapHash instance tt s).1 = cluster s
  /\ match (syncInstance c configMapHash instance tt s).2 with
     | Next _ =>
         log (syncInstance c configMapHash instance tt s).1
         = log s ++ syncCalls c configMapHash instance
     | Return r =>
         upToDate configMapHash instance = false
         /\ r.1 = false
         /\ ((log (syncInstance c configMapHash instance tt s).1
              = log s ++ [UpdatePodDynamicConf c instance]
              /\ exists w, (updatePodDynamicConf c instance w).2 = r)
             \/ (log (syncInstance c configMapHash instance tt s).1
                 = log s ++ syncCalls c configMapHash instance
                 /\ exists w, (updateMetadata c (stamped configMapHash instance) w).2 = r.2
                              /\ is_Some r.2))
     | Panic msg =>
         msg = "assignment to entry in nil map"
         /\ upToDate configMapHash instance = false
         /\ Annotations (Metadata instance) = None
         /\ log (syncInstance c configMapHash instance tt s).1
            = log s ++ [UpdatePodDynamicConf c instance]
         /\ exists w, (updatePodDynamicConf c instance w).2.1 = true
     | Blocked => False
     end.
Proof.
  destruct (syncInstance_cases c configMapHash instance s) as [Hfresh Hstale].
  destruct (upToDate configMapHash instance) eqn:Hup.
  - rewrite (Hfresh eq_refl). cbn [fst snd]. split; [done|].
    unfold syncCalls. rewrite Hup. by rewrite app_nil_r.
  - destruct (updatePodDynamicConf c instance (world s)) as [w1 [synced err]] eqn:Hpush.
    specialize (Hstale eq_refl w1 synced err eq_refl). cbn zeta in Hstale.
    unfold syncCalls. rewrite Hup.
    destruct synced.
    + destruct (Annotations (Metadata instance)) as [annotations|] eqn:Hann.
      * destruct (updateMetadata c (stamped configMapHash instance) w1) as [w2 err'] eqn:Hstamp.
        rewrite (Hstale w2 err' eq_refl). cbn [fst snd world cluster log].
        split; [done|]. destruct err' as [e|].
        -- split; [done|]. split; [done|]. right. rewrite <- app_assoc. split; [done|].
           exists w1. rewrite Hstamp. eauto.
        -- by rewrite <- app_assoc.
      * rewrite Hstale. cbn [fst snd world cluster log]. split; [done|].
        split; [done|]. split; [done|]. split; [done|]. split; [done|].
        exists (world s). by rewrite Hpush.
    + rewrite Hstale. cbn [fst snd world cluster log]. split; [done|].
      split; [done|]. split; [done|]. left. split; [done|].
      exists (world s). by rewrite Hpush.
Qed.



End Facts.



End UpdateFacts.

(* ===================================================================== *)
(** * The builders of pods and of the config map *)
(* ===================================================================== *)

Module PodFacts.
Import Legacy Observations.

Lemma to_int_not_nil z : Z.to_int z <> Decimal.Pos Decimal.Nil /\ Z.to_int z <> Decimal.Neg Decimal.Nil.
Proof.
  destruct z as [|p|p]; simpl; split; try discriminate;
    intros [= H]; by apply (DecimalPos.Unsigned.to_uint_nonnil p).
Qed.

Lemma Itoa_inj a b : Itoa a = Itoa b -> a = b.
Proof.
  unfold Itoa. intros H. apply DecimalZ.to_int_inj.
  destruct (to_int_not_nil a) as [Ha1 Ha2]. destruct (to_int_not_nil b) as [Hb1 Hb2].
  apply (f_equal NilZero.int_of_string) in H.
  rewrite !NilZero.isi in H by done. by injection H.
Qed.

(** X1: a pod built by GetPod is in the namespace, and carries the
    labels, that getPodListOptions selects for its process class and for
    no class at all; the options of any other named class do not select
    it. *)
Theorem created_pods_match_the_listing (c : FoundationDBCluster) (processClass other : string) (id : Z) :
  let pod := GetPod c processClass id in
  InNamespace (getPodListOptions c processClass) = Namespace (PodMeta pod)
  /\ MatchingLabels (getPodListOptions c processClass) ⊆ Labels (PodMeta pod)
  /\ MatchingLabels (getPodListOptions c "") ⊆ Labels (PodMeta pod)
  /\ (other <> "" -> other <> processClass ->
      ~ MatchingLabels (getPodListOptions c other) ⊆ Labels (PodMeta pod)).
Proof.
  intros pod. split; [done|].
  unfold getPodListOptions, getPodLabels, pod, GetPod. cbn [MatchingLabels Labels PodMeta].
  split; [|split].
  - destruct (decide (processClass ≠ "")); apply map_subseteq_spec; intros k v.
    + rewrite lookup_insert_Some, lookup_singleton_Some.
      intros [[<- <-]|[_ [<- <-]]]; by simplify_map_eq.
    + rewrite lookup_singleton_Some. intros [<- <-]. by simplify_map_eq.
  - rewrite decide_False by (intros H; by apply H).
    apply map_subseteq_spec; intros k v.
    rewrite lookup_singleton_Some. intros [<- <-]. by simplify_map_eq.
  - intros Hne Hother. rewrite decide_True by done. intros Hsub.
    pose proof (proj1 (map_subseteq_spec _ _) Hsub "fdb-process-class" other) as H.
    rewrite lookup_insert_eq in H. specialize (H eq_refl).
    rewrite lookup_insert_ne in H by done. rewrite lookup_insert_eq in H. congruence.
Qed.

(** X2: within a cluster the name of a built pod, and its
    "fdb-instance-id" label, identify the instance number: two built
    pods agree on either exactly when their numbers are equal, whatever
    their process classes. *)
Theorem pod_identity_follows_the_id (c : FoundationDBCluster) (class1 class2 : string) (id1 id2 : Z) :
  (Name (PodMeta (GetPod c class1 id1)) = Name (PodMeta (GetPod c class2 id2)) <-> id1 = id2)
  /\ (Labels (PodMeta (GetPod c class1 id1)) !! "fdb-instance-id"
      = Labels (PodMeta (GetPod c class2 id2)) !! "fdb-instance-id" <-> id1 = id2)
  /\ Labels (PodMeta (GetPod c class1 id1)) !! "fdb-instance-id" = Some (Itoa id1).
Proof.
  unfold GetPod. cbn [Name Labels PodMeta].
  assert (Hl : forall cl i, (<["fdb-cluster-name":=Name (ClusterMeta c)]>
                 (<["fdb-process-class":=cl]> ({["fdb-instance-id" := Itoa i]} : gmap string string)))
                 !! "fdb-instance-id" = Some (Itoa i)).
  { intros cl i. rewrite !lookup_insert_ne by done. by rewrite lookup_singleton_eq. }
  split; [|split].
  - split; [|by intros ->].
    intros H. apply append_inj_l in H. apply (append_inj_l "-") in H. by apply Itoa_inj.
  - rewrite !Hl. split; [|by intros ->]. intros [= H]. by apply Itoa_inj.
  - apply Hl.
Qed.

Lemma prefix_app a b : String.prefix a (a +:+ b) = true.
Proof.
  induction a as [|ch a IH]; [by destruct b|].
  change (String ch a +:+ b) with (String ch (a +:+ b)). cbn [String.prefix].
  by destruct (ascii_dec ch ch).
Qed.

Lemma skip_all pairs a b : ReplacerReplace pairs (String.length a) (a +:+ b) = ReplacerReplace pairs 0 b.
Proof.
  induction a as [|ch a IH]; [done|].
  change (String ch a +:+ b) with (String ch (a +:+ b)). cbn [String.length ReplacerReplace]. exact IH.
Qed.

Lemma replace_match pairs ch old new b :
  matchAt pairs (String ch old +:+ b) = Some (String ch old, new) ->
  ReplacerReplace pairs 0 (String ch old +:+ b) = new +:+ ReplacerReplace pairs 0 b.
Proof.
  intros H. change (String ch old +:+ b) with (String ch (old +:+ b)) in *.
  cbn [ReplacerReplace]. rewrite H.
  replace (String.length (String ch old) - 1)%nat with (String.length old)
    by (cbn [String.length]; lia).
  by rewrite skip_all.
Qed.

Lemma replace_plain ip host a b :
  Naming.contains dollar a = false ->
  ReplacerReplace (placeholders ip host) 0 (a +:+ b) = a +:+ ReplacerReplace (placeholders ip host) 0 b.
Proof.
  induction a as [|ch a IH]; [done|].
  cbn [Naming.contains]. intros [Hch Ha]%orb_false_iff.
  change (String ch a +:+ b) with (String ch (a +:+ b)).
  cbn [ReplacerReplace]. unfold matchAt, placeholders at 1. cbn [List.find fst String.prefix].
  destruct (ascii_dec "$" ch) as [<-|_]; [discriminate Hch|].
  rewrite IH by done. reflexivity.
Qed.

Lemma replace_ip ip host b :
  ReplacerReplace (placeholders ip host) 0 ("$FDB_PUBLIC_IP" +:+ b)
  = ip +:+ ReplacerReplace (placeholders ip host) 0 b.
Proof.
  apply replace_match. unfold matchAt, placeholders. cbn [List.find fst].
  by rewrite (prefix_app "$FDB_PUBLIC_IP").
Qed.

Lemma replace_host ip host b :
  ReplacerReplace (placeholders ip host) 0 ("$HOSTNAME" +:+ b)
  = host +:+ ReplacerReplace (placeholders ip host) 0 b.
Proof.
  apply replace_match. unfold matchAt, placeholders. cbn [List.find fst].
  rewrite (prefix_app "$HOSTNAME").
  change ("$HOSTNAME" +:+ b) with (String "$" (String "H" ("OSTNAME" +:+ b))).
  reflexivity.
Qed.

(** X3: when the version, the pod's process-class label and the cluster
    name contain no dollar sign, GetPodMonitorConf is the template of
    GetMonitorConf with the pod's IP in place of $FDB_PUBLIC_IP and the
    pod's name in place of both occurrences of $HOSTNAME; the inserted
    IP and name are not scanned again.  A pod without the label gets an
    empty class. *)
Theorem pod_monitor_conf_fills_the_placeholders (c : FoundationDBCluster) (pod : Pod) :
  let processClass := default "" (Labels (PodMeta pod) !! "fdb-process-class") in
  Naming.contains dollar (Version (Spec c)) = false ->
  Naming.contains dollar processClass = false ->
  Naming.contains dollar (Name (ClusterMeta c)) = false ->
  GetPodMonitorConf c pod
  = Join [ "[general]";
           "kill_on_configuration_change = false";
           "restart_delay = 60";
           "[fdbserver.1]";
           "command = /var/dynamic-conf/bin/" +:+ Version (Spec c) +:+ "/fdbserver";
           "cluster_file = /var/fdb/data/fdb.cluster";
           "seed_cluster_file = /var/dynamic-conf/fdb.cluster";
           "public_address = " +:+ PodIP pod +:+ ":4500";
           "class = " +:+ processClass;
           "datadir = /var/fdb/data";
           "logdir = /var/log/fdb-trace-logs";
           "loggroup = " +:+ Name (ClusterMeta c);
           "locality_machineid = " +:+ Name (PodMeta pod);
           "locality_zoneid = " +:+ Name (PodMeta pod) ] newline.
Proof.
  intros processClass Hv Hc Hn.
  unfold GetPodMonitorConf, GetMonitorConf. fold processClass. cbn [app Join].
  fold (placeholders (PodIP pod) (Name (PodMeta pod))).
  change "public_address = $FDB_PUBLIC_IP:4500"
    with ("public_address = " +:+ "$FDB_PUBLIC_IP" +:+ ":4500").
  change "locality_machineid = $HOSTNAME" with ("locality_machineid = " +:+ "$HOSTNAME").
  change "locality_zoneid = $HOSTNAME" with ("locality_zoneid = " +:+ "$HOSTNAME" +:+ "").
  fold newline.
  rewrite !append_assoc.
  repeat first
    [ rewrite replace_plain by (first [reflexivity | assumption])
    | rewrite replace_ip
    | rewrite replace_host ].
  cbn [ReplacerReplace Join]. rewrite ?append_assoc, ?append_nil_r.
  reflexivity.
Qed.

Lemma pod_monitor_conf_fills_the_placeholders_witness :
  GetPodMonitorConf Scenario.myCluster (Scenario.storagePod 1 "10.0.0.1")
  = Join [ "[general]";
           "kill_on_configuration_change = false";
           "restart_delay = 60";
           "[fdbserver.1]";
           "command = /var/dynamic-conf/bin/6.1.8/fdbserver";
           "cluster_file = /var/fdb/data/fdb.cluster";
           "seed_cluster_file = /var/dynamic-conf/fdb.cluster";
           "public_address = 10.0.0.1:4500";
           "class = storage";
           "datadir = /var/fdb/data";
           "logdir = /var/log/fdb-trace-logs";
           "loggroup = my-cluster";
           "locality_machineid = my-cluster-1";
           "locality_zoneid = my-cluster-1" ] newline.
Proof.
  apply (pod_monitor_conf_fills_the_placeholders Scenario.myCluster (Scenario.storagePod 1 "10.0.0.1"));
    reflexivity.
Defined.

(** X4: GetConfigMap never fails; the config map is named after the
    cluster with the suffix "-config", in the cluster's namespace, owned
    by the cluster and labelled with its name; its data has exactly the
    keys "cluster-file", "fdbmonitor-conf-storage" and "sidecar-conf":
    the connection string, the monitor conf of the storage class (empty
    as long as the connection string is empty), and the fixed sidecar
    configuration. *)
Theorem config_map_contents (c : FoundationDBCluster) :
  exists m,
    GetConfigMap c = (Some m, None)
    /\ keyOf (ConfigMapMeta m)
       = {| nnNamespace := Namespace (ClusterMeta c); nnName := Name (ClusterMeta c) +:+ "-config" |}
    /\ Labels (ConfigMapMeta m) = {[ "fdb-cluster-name" := Name (ClusterMeta c) ]}
    /\ OwnerReferences (ConfigMapMeta m) = buildOwnerReference c
    /\ dom (Data m) = ({[ "cluster-file"; "fdbmonitor-conf-storage"; "sidecar-conf" ]} : gset string)
    /\ Data m !! "cluster-file" = Some (ConnectionString (Spec c))
    /\ Data m !! "fdbmonitor-conf-storage"
       = Some (if decide (ConnectionString (Spec c) = "") then "" else GetMonitorConf c "storage")
    /\ Data m !! "sidecar-conf" = Some sidecarConfJSON.
Proof.
  destruct (BuildersFacts.GetConfigMap_data c) as (m & Hm & Hd).
  exists m. split; [exact Hm|].
  assert (Hmeta : ConfigMapMeta m
                  = {| Namespace := Namespace (ClusterMeta c);
                       Name := Name (ClusterMeta c) +:+ "-config";
                       UID := "";
                       Labels := {[ "fdb-cluster-name" := Name (ClusterMeta c) ]};
                       OwnerReferences := buildOwnerReference c |}).
  { unfold GetConfigMap, jsonMarshal in Hm. cbn [fst snd] in Hm. by injection Hm as <-. }
  rewrite Hmeta. cbn [keyOf Name Namespace Labels OwnerReferences].
  rewrite Hd. split_and!; [done|done|done|..].
  - rewrite !dom_insert_L, dom_empty_L.
    apply set_eq. intros k. rewrite !elem_of_union, !elem_of_singleton.
    rewrite elem_of_empty. tauto.
  - rewrite !lookup_insert_ne by done. by rewrite lookup_insert_eq.
  - rewrite lookup_insert_ne by done. by rewrite lookup_insert_eq.
  - rewrite lookup_insert_eq. by f_equal.
Qed.

End PodFacts.

(* ===================================================================== *)
(** * The steps of the reconciler, one by one *)
(* ===================================================================== *)

Module StepFacts.
Import Legacy Conditions Bootstrap Observations Pipeline.

Section Facts.
Context {W FdbPodClient AdminClient : Type}.
Context {platform : Platform W FdbPodClient AdminClient}.
Variable patience : nat.

Abbreviation State := (Legacy.State W FdbPodClient AdminClient).
Abbreviation Call := (Legacy.Call FdbPodClient AdminClient).

(** The receiving loop only appends to the string it was given. *)
Lemma recruitCoordinators_extends n i c waiting acc (s : State) :
  match (recruitCoordinators patience n i c waiting acc s).2 with
  | Next cs => exists addresses, cs = acc +:+ addresses
  | _ => True
  end.
Proof.
  revert i waiting acc s. induction n as [|n IH]; intros i waiting acc s; cbn [recruitCoordinators].
  - unfold_go. cbn [snd]. exists "". by rewrite append_nil_r.
  - unfold schedule, spawn. unfold_go.
    destruct (nextReady (length waiting) (world s)) as [w k]. cbn [fst snd].
    destruct (takeOut k waiting) as [[pod waiting']|]; [|done].
    match goal with |- context [run ?m ?st] => destruct (run m st) as [s1 [[p [client|err]]|msg|]] end;
      cbn [fst snd]; try done.
    match goal with |- context [recruitCoordinators patience n ?j c waiting' ?a s1] =>
      specialize (IH j waiting' a s1);
      destruct (recruitCoordinators patience n j c waiting' a s1) as [s2 [cs|r|msg|]] end;
      cbn [fst snd] in *; try done.
    destruct IH as [addresses ->].
    destruct (decide (i = 0%nat)); rewrite !append_assoc; eauto.
Qed.

(** X7: generateInitialClusterFile either leaves the cluster object as it
    was, writing neither the cluster nor a pod, or it sets the
    ConnectionString of a cluster that had none and sends, in one
    update, exactly the cluster object it then holds; the calls before
    and after that update write neither the cluster nor a pod, and the
    string starts with the sanitized cluster name followed by ":init".
    This holds also when the update, or the refresh of the config map
    after it, fails: the string stays in the object in memory. *)
Theorem connection_string_is_set_and_sent_together (s : State) :
  let c := cluster s in
  let r := run (generateInitialClusterFile patience) s in
  exists calls,
    log r.1 = log s ++ calls
    /\ ((cluster r.1 = c /\ Forall quiet calls)
        \/ (exists cs before after,
              ConnectionString (Spec c) = ""
              /\ cluster r.1 = setConnectionString cs c
              /\ calls = before ++ ClientUpdate (ClusterObject (setConnectionString cs c)) :: after
              /\ Forall quiet before /\ Forall quiet after
              /\ exists addresses,
                   cs = sanitizedClusterName (Name (ClusterMeta c)) +:+ ":init" +:+ addresses)).
Proof.
  intros c r. subst r.
  unfold run at 1 2 3, generateInitialClusterFile, perform, orReturn, assign, check. unfold_go.
  cbn [fst snd world cluster log]. fold c.
  destruct (decide (ConnectionString (Spec c) = "")) as [Hcs|Hcs].
  2:{ exists []. rewrite app_nil_r. split; [done|]. left. done. }
  destruct (listPods (getPodListOptions c "storage") (world s)) as [w [pods|e]];
    cbn [fst snd world cluster log].
  2:{ eexists [_]. split; [done|]. left. split; [done|]. by repeat constructor. }
  destruct (Z.of_nat (length pods) <? DesiredCoordinatorCount c); cbn [fst snd world cluster log].
  { eexists [_]. split; [done|]. left. split; [done|]. by repeat constructor. }
  destruct (DesiredCoordinatorCount c <? 0); cbn [fst snd world cluster log].
  { eexists [_]. split; [done|]. left. split; [done|]. by repeat constructor. }
  match goal with |- context [recruitCoordinators patience ?n ?i c ?wt ?acc ?st] =>
    pose proof (recruitCoordinators_extends n i c wt acc st) as Hext;
    destruct (LegacyFacts.recruitCoordinators_quiet patience n i c wt acc st)
      as (Hcl & calls & Hlog & Hquiet);
    destruct (recruitCoordinators patience n i c wt acc st) as [s1 [cs|r|msg|]] end;
    cbn [fst snd world cluster log] in *.
  2,3,4: exists (ClientList (getPodListOptions c "storage") :: calls);
         rewrite Hlog, <- app_assoc; (split; [done|]); left; (split; [done|]);
         by constructor.
  destruct Hext as [addresses Hadd].
  rewrite LegacyFacts.ReplaceAllString_sanitized in Hadd.
  rewrite Hcl.
  destruct (update _ (world s1)) as [w2 [e|]]; cbn [fst snd world cluster log].
  - eexists. split; [rewrite Hlog, <- !app_assoc; reflexivity|]. right.
    exists cs, (ClientList (getPodListOptions c "storage") :: calls), [].
    split; [done|]. split; [done|]. split; [done|]. split; [by constructor|].
    split; [done|]. exists addresses. by rewrite Hadd, append_assoc.
  - match goal with |- context [run (updateConfigMap patience) ?st] =>
      destruct (LegacyFacts.appends_run quiet (updateConfigMap patience) st
                  (LegacyFacts.updateConfigMap_quiet patience))
        as (Hcl2 & calls2 & Hlog2 & Hquiet2);
      destruct (run (updateConfigMap patience) st) as [s3 [res|msg|]] end;
      cbn [fst snd world cluster log] in *.
    all: eexists; (split; [rewrite Hlog2, Hlog, <- !app_assoc; reflexivity|]); right.
    all: exists cs, (ClientList (getPodListOptions c "storage") :: calls), calls2.
    all: rewrite Hcl2.
    all: split; [done|]; split; [done|]; split; [done|]; split; [by constructor|].
    all: split; [done|]; exists addresses; by rewrite Hadd, append_assoc.
Qed.

(** X6: addPods either leaves the cluster object as it was and sends no
    update, or it has listed the pods, asked for the creation of at
    least one pod, and ended with one update that carries exactly the
    cluster object it then holds, which differs from the one before in
    NextInstanceID only; the step then returns nil or the error of that
    update, and the advanced counter stays in memory in both cases. *)
Theorem add_pods_advances_the_counter_with_the_update (s : State) :
  let c := cluster s in
  let r := run addPods s in
  exists calls,
    log r.1 = log s ++ calls
    /\ ((cluster r.1 = c /\ Forall (fun call => ~ isUpdate call) calls)
        \/ (exists creates id,
              calls = ClientList (getPodListOptions c "storage") :: creates
                        ++ [ClientUpdate (ClusterObject (cluster r.1))]
              /\ Forall isCreatePod creates /\ creates <> []
              /\ cluster r.1 = setNextInstanceID id c
              /\ (r.2 = Returned None \/ exists e w, snd (update (ClusterObject (cluster r.1)) w) = Some e
                                                      /\ r.2 = Returned (Some e)))).
Proof.
  intros c r. subst r.
  unfold run, addPods, processClasses, for_range.
  unfold perform, orReturn, check, assign. unfold_go. cbn [fst snd world cluster log].
  fold c.
  destruct (listPods (getPodListOptions c "storage") (world s)) as [w [pods|err]];
    cbn [fst snd world cluster log].
  2:{ eexists [_]. split; [done|]. left. split; [done|]. repeat constructor. by intros []. }
  destruct (0 <? int_sub (DesiredProcessCount c "storage") (Z.of_nat (length pods))) eqn:Hnew;
    cbn [fst snd world cluster log].
  2:{ eexists [_]. split; [done|]. left. split; [done|]. repeat constructor. by intros []. }
  apply Z.ltb_lt in Hnew.
  match goal with |- context [createPods ?n c ?pc ?i ?st] =>
    destruct (LegacyFacts.createPods_any n c pc i st) as (Hcl & calls & Hlog & Hall & Hne & Hout);
    destruct (createPods n c pc i st) as [s1 [id1|[e|]| |]] eqn:Hcp end;
    cbn [fst snd world cluster log] in *; try done.
  - assert (Hcalls : calls <> []) by (apply Hne; lia).
    rewrite Hcl. fold c.
    destruct (update _ (world s1)) as [w2 [e|]] eqn:Hup; cbn [fst snd world cluster log].
    + eexists. split; [rewrite Hlog, <- !app_assoc; reflexivity|]. right.
      exists calls, id1. split; [done|]. split; [done|]. split; [done|].
      split; [done|]. right. exists e, (world s1). rewrite Hup. done.
    + eexists. split; [rewrite Hlog, <- !app_assoc; reflexivity|]. right.
      exists calls, id1. split; [done|]. split; [done|]. split; [done|].
      split; [done|]. by left.
  - exists (ClientList (getPodListOptions c "storage") :: calls).
    rewrite Hlog, <- app_assoc. split; [done|]. left. split; [done|].
    constructor; [by intros []|]. eapply Forall_impl; [exact Hall|].
    intros call Hcreate Hupdate. destruct call; simpl in *; done.
Qed.




(** X8: updateDatabaseConfiguration does nothing for a cluster already
    marked Configured.  Otherwise it either returns an error with the
    cluster object as it was and without any update, or ConfigureDatabase
    has succeeded with the replication mode and storage engine of the
    spec and the flag for a new database, and the step has marked the
    cluster Configured and sent that object in one update: the flag is
    never set without a successful configuration. *)
Theorem database_is_marked_configured_after_configuring (s : State) :
  let c := cluster s in
  let r := run updateDatabaseConfiguration s in
  let conf := {| confReplicationMode := ReplicationMode (Spec c);
                 confStorageEngine := StorageEngine (Spec c) |} in
  (Configured (Spec c) = true -> r = (s, Returned None))
  /\ (Configured (Spec c) = false ->
      exists calls,
        log r.1 = log s ++ calls
        /\ ((cluster r.1 = c /\ (exists e, r.2 = Returned (Some e))
             /\ Forall (fun call => ~ isUpdate call) calls)
            \/ (exists client w,
                  snd (ConfigureDatabase client conf true w) = None
                  /\ cluster r.1 = setConfigured true c
                  /\ calls = [AdminClientProvider c; ConfigureDatabaseCall client conf true;
                              ClientUpdate (ClusterObject (setConfigured true c))]))).
Proof.
  intros c r conf. subst r.
  unfold run, updateDatabaseConfiguration, perform, orReturn, check, assign. unfold_go.
  cbn [fst snd world cluster log]. fold c. fold conf.
  destruct (Configured (Spec c)); cbn [negb].
  - split; [intros _; by destruct s|done].
  - split; [done|]. intros _.
    destruct (adminClientProvider c (world s)) as [w1 [client|e]]; cbn [fst snd world cluster log].
    2:{ eexists [_]. split; [done|]. left. split; [done|]. split; [eauto|].
        repeat constructor. by intros []. }
    fold conf.
    destruct (ConfigureDatabase client conf true w1) as [w2 [e|]] eqn:Hconf;
      cbn [fst snd world cluster log].
    { eexists [_; _]. rewrite <- app_assoc. split; [done|]. left. split; [done|]. split; [eauto|].
      repeat constructor; by intros []. }
    destruct (update _ w2) as [w3 [e|]]; cbn [fst snd world cluster log].
    all: eexists [_; _; _]; rewrite <- !app_assoc; (split; [done|]); right.
    all: exists client, w1; rewrite Hconf; done.
Qed.

(** X5: setDefaultValues fills the replication mode with "double" and
    the storage engine with "ssd" exactly where the spec leaves them
    empty, and never overwrites a value that is set.  With both set it
    makes no call and changes nothing.  Otherwise it sends one update
    with the filled object; when that fails it returns the error and
    keeps the filled object in memory; when it succeeds it fetches the
    cluster again under its namespace and name and continues with the
    fetched object, or returns the error of the fetch. *)
Theorem set_default_values_fills_only_the_blanks (s : State) :
  let c := cluster s in
  let r := run setDefaultValues s in
  let key := keyOf (ClusterMeta c) in
  let filled :=
    setStorageEngine (if decide (StorageEngine (Spec c) = "") then "ssd" else StorageEngine (Spec c))
      (setReplicationMode
         (if decide (ReplicationMode (Spec c) = "") then "double" else ReplicationMode (Spec c)) c) in
  (ReplicationMode (Spec c) <> "" /\ StorageEngine (Spec c) <> "" -> r = (s, Returned None))
  /\ (ReplicationMode (Spec c) = "" \/ StorageEngine (Spec c) = "" ->
      exists w1 err,
        update (ClusterObject filled) (world s) = (w1, err)
        /\ match err with
           | Some e =>
               r = ({| world := w1; cluster := filled;
                       log := log s ++ [ClientUpdate (ClusterObject filled)] |}, Returned (Some e))
           | None =>
               exists w2 got,
                 getCluster key w1 = (w2, got)
                 /\ r = ({| world := w2;
                            cluster := match got with inl c' => c' | inr _ => filled end;
                            log := log s ++ [ClientUpdate (ClusterObject filled);
                                             ClientGet ClusterKind key] |},
                         Returned (match got with inl _ => None | inr e => Some e end))
           end).
Proof.
  destruct s as [w [api kind meta [v pc cs nid rm se cf]] lg].
  cbv zeta.
  unfold run, setDefaultValues, perform, orReturn, check, assign. unfold_go.
  cbn [fst snd world cluster log].
  cbn [Spec ReplicationMode StorageEngine ClusterMeta setReplicationMode setStorageEngine withSpec
       APIVersion Kind Version ProcessCounts ConnectionString NextInstanceID Configured].
  destruct (decide (rm = "")) as [->|Hr]; destruct (decide (se = "")) as [->|He];
    unfold setStorageEngine, setReplicationMode, withSpec;
    cbn [fst snd world cluster log Spec ReplicationMode StorageEngine ClusterMeta setReplicationMode
         setStorageEngine withSpec APIVersion Kind Version ProcessCounts ConnectionString
         NextInstanceID Configured];
    rewrite ?decide_True by done; rewrite ?decide_False by done;
    unfold setStorageEngine, setReplicationMode, withSpec;
    cbn [fst snd world cluster log Spec ReplicationMode StorageEngine ClusterMeta setReplicationMode
         setStorageEngine withSpec APIVersion Kind Version ProcessCounts ConnectionString
         NextInstanceID Configured].
  4:{ split; [done|]. by intros [|]. }
  all: split; [by intros [? ?]|]; intros _.
  all: match goal with |- context [update ?o ?w0] => destruct (update o w0) as [w1 [e|]] eqn:Hup end;
       cbn [fst snd world cluster log]; exists w1; eexists; (split; [reflexivity|]);
       cbn [fst snd world cluster log]; try done.
  all: match goal with |- context [getCluster ?k ?w0] => destruct (getCluster k w0) as [w2 [c'|e']] eqn:Hg end;
       cbn [fst snd world cluster log]; exists w2; eexists; (split; [reflexivity|]);
       cbn [fst snd world cluster log]; by rewrite <- app_assoc.
Qed.



End Facts.


End StepFacts.

(* ===================================================================== *)
(** * The steps of controllers/, as wholes *)
(* ===================================================================== *)

Module StepFrames.
Import Controllers Rule.

Section Facts.
Context {PendingRemovalState Pod W : Type}.
Context {reconciler : Reconciler PendingRemovalState Pod W}.

Abbreviation Cluster := (FoundationDBCluster PendingRemovalState).
Abbreviation Instance := (FdbInstance Pod).
Abbreviation State := (Controllers.State PendingRemovalState Pod W).
Abbreviation Call := (Controllers.Call PendingRemovalState Pod).
Abbreviation Locals := (Controllers.Locals PendingRemovalState).

(** X11: the loop over the claims of ReplaceMisconfiguredPods stops only
    with an error of ParseInstanceID or of GetJSONHash for one of the
    listed claims, or with a nil-pointer panic for a claim whose desired
    claim GetPvc answered as nil; an error GetPvc returns beside a claim
    is never returned. *)
Theorem claim_loop_stops_on_parse_or_hash_errors (pvcs : list PersistentVolumeClaim) (l : Locals)
    (s : State) :
  match (forRange pvcs claimBody l s).2 with
  | Next _ => True
  | Return r =>
      exists pvc e,
        In pvc pvcs /\ r = (false, Some e)
        /\ (snd (ParseInstanceID (GetInstanceIDFromMeta (ClaimMeta pvc))) = Some e
            \/ exists desired,
                 fst (GetPvc (cluster s) (GetProcessClassFromMeta (ClaimMeta pvc))
                        (snd (fst (ParseInstanceID (GetInstanceIDFromMeta (ClaimMeta pvc))))))
                 = Some desired
                 /\ snd (GetJSONHash (ClaimSpec desired)) = Some e)
  | Panic msg =>
      msg = "nil pointer dereference"
      /\ exists pvc,
           In pvc pvcs
           /\ fst (GetPvc (cluster s) (GetProcessClassFromMeta (ClaimMeta pvc))
                     (snd (fst (ParseInstanceID (GetInstanceIDFromMeta (ClaimMeta pvc))))))
              = None
  | Blocked => False
  end.
Proof.
  induction pvcs as [|pvc pvcs IH]; cbn [forRange]; [done|].
  unfold_go. destruct (ControllersFacts.claimBody_inert pvc l s) as [Hs Ho].
  assert (Hbody : match (claimBody pvc l s).2 with
                  | Next _ => True
                  | Return r =>
                      exists e, r = (false, Some e)
                        /\ (snd (ParseInstanceID (GetInstanceIDFromMeta (ClaimMeta pvc))) = Some e
                            \/ exists desired,
                                 fst (GetPvc (cluster s) (GetProcessClassFromMeta (ClaimMeta pvc))
                                        (snd (fst (ParseInstanceID (GetInstanceIDFromMeta (ClaimMeta pvc))))))
                                 = Some desired
                                 /\ snd (GetJSONHash (ClaimSpec desired)) = Some e)
                  | Panic msg =>
                      msg = "nil pointer dereference"
                      /\ fst (GetPvc (cluster s) (GetProcessClassFromMeta (ClaimMeta pvc))
                                (snd (fst (ParseInstanceID (GetInstanceIDFromMeta (ClaimMeta pvc))))))
                         = None
                  | Blocked => False
                  end).
  { unfold claimBody, check. unfold_go. cbn [fst snd].
    destruct (ownedByCluster (cluster s) pvc); cbn [negb]; [|done].
    case_decide; [done|].
    destruct (ParseInstanceID (GetInstanceIDFromMeta (ClaimMeta pvc))) as [[class idNum] [e|]];
      cbn [fst snd]; [eauto|].
    destruct (GetPvc (cluster s) (GetProcessClassFromMeta (ClaimMeta pvc)) idNum)
      as [[desired|] err'] eqn:Hpvc; cbn [fst snd]; [|done].
    destruct (GetJSONHash (ClaimSpec desired)) as [pvcHash [e|]] eqn:Hhash; cbn [fst snd];
      rewrite andb_false_r; cbn [fst snd]; [|done].
    exists e. split; [done|]. right. exists desired. by rewrite Hhash. }
  destruct (claimBody pvc l s) as [s1 [l1|r|msg|]]; cbn [fst snd] in *; subst; try done.
  - destruct (forRange pvcs claimBody l s) as [s2 [l2|r|msg|]]; cbn [fst snd] in *; try done.
    + destruct IH as (pvc' & e & Hin & Hr & Hwhy). exists pvc', e. split; [by right|done].
    + destruct IH as (Hmsg & pvc' & Hin & Hnil). split; [done|]. exists pvc'. split; [by right|done].
  - destruct Hbody as (e & Hr & Hwhy). exists pvc, e. split; [by left|done].
  - destruct Hbody as (Hmsg & Hnil). split; [done|]. exists pvc. split; [by left|done].
Qed.

(** X12: ReplaceMisconfiguredPods changes at most the status of the
    cluster object, never its metadata or spec.  It returns (true, nil)
    or (false, an error); it never waits, and when it panics it has
    only listed the claims and the cluster object is as it was.  For a
    cluster whose PendingRemovals map is nil the object is unchanged
    unless the run ends with a status update that carries the changed
    object. *)
Theorem replace_misconfigured_pods_frame (s : State) :
  let c := cluster s in
  let opts := getPodListOptions c "" "" in
  let r := run ReplaceMisconfiguredPods_Reconcile s in
  sameSpec (cluster r.1) c
  /\ match r.2 with
     | Returned (true, None) | Returned (false, Some _) => True
     | Returned _ => False
     | Panicked msg => cluster r.1 = c /\ log r.1 = log s ++ [ClientListClaims opts]
     | Waiting => False
     end
  /\ (PendingRemovals (Status c) = None ->
      cluster r.1 = c
      \/ log r.1 = log s ++ [ClientListClaims opts; GetInstances c opts; StatusUpdate (cluster r.1)]).
Proof.
  intros c opts r. subst r.
  unfold run, ReplaceMisconfiguredPods_Reconcile, perform, orReturn, check, assign. unfold_go.
  cbn [fst snd world cluster log]. fold c. fold opts.
  assert (Hrefl : sameSpec c c) by done.
  destruct (listClaims opts (world s)) as [w1 [pvcs|e]]; cbn [fst snd world cluster log].
  2:{ split; [done|]. split; [done|]. intros _. by left. }
  match goal with |- context [forRange pvcs claimBody ?l ?st] =>
    destruct (ControllersFacts.claimLoop_inert pvcs l st) as [Hs1 Ho1];
    destruct (forRange pvcs claimBody l st) as [s1 [l1|r1|msg|]] end;
    cbn [fst snd] in *; subst; cbn [fst snd world cluster log]; try done.
  2:{ destruct Ho1 as [e ->]. split; [done|]. split; [done|]. intros _. by left. }
  2:{ split; [done|]. split; [done|]. intros _. by left. }
  fold c. fold opts.
  destruct (getInstances c opts w1) as [w2 [instances|e]]; cbn [fst snd world cluster log].
  2:{ split; [done|]. split; [done|]. intros _. by left. }
  rewrite <- app_assoc. cbn [app].
  match goal with |- context [forRange instances instanceBody ?l ?st] =>
    set (s2 := st);
    destruct (ControllersFacts.instanceLoop_frame instances l s2)
      as (Hw & Hlog & Hsame & Hnil & Hsome & _ & Hout);
    destruct (forRange instances instanceBody l s2) as [s3 [l'|r3|msg|]] end;
    cbn [fst snd] in *; try done.
  2:{ destruct Hout as [e ->]. split; [exact Hsame|]. split; [done|].
      intros Hn. left. by rewrite (Hnil Hn). }
  destruct (hasNewRemovals l'); cbn [fst snd world cluster log].
  - assert (Hsame' : sameSpec (setPendingRemovals (Some (removals l')) (cluster s3)) c).
    { destruct Hsame as [Hm Hsp]. by split. }
    destruct (statusUpdate _ (world s3)) as [w4 [e|]]; cbn [fst snd world cluster log].
    all: split; [exact Hsame'|]; split; [done|]; intros _; right.
    all: rewrite Hlog; unfold s2; cbn [log]; by rewrite <- app_assoc.
  - split; [exact Hsame|]. split; [done|]. intros Hn. left. by rewrite (Hnil Hn).
Qed.

(** The loop of UpdateConfigMap never waits, returns (false, _) only,
    and panics only on a nil annotation map. *)
Lemma syncLoop_outcome (c : Cluster) (configMapHash : string) (instances : list Instance)
    (s : State) :
  cluster (forRange instances (syncInstance c configMapHash) tt s).1 = cluster s
  /\ match (forRange instances (syncInstance c configMapHash) tt s).2 with
     | Next _ => True
     | Return r => r.1 = false
     | Panic msg => msg = "assignment to entry in nil map"
     | Blocked => False
     end.
Proof.
  revert s. induction instances as [|instance instances IH]; intros s; cbn [forRange].
  - by unfold_go.
  - unfold_go. destruct (UpdateFacts.syncInstance_step c configMapHash instance s) as [Hc Hout].
    destruct (syncInstance c configMapHash instance tt s) as [s1 [[]|r|msg|]];
      cbn [fst snd] in *; try done.
    + destruct (IH s1) as [Hc1 Hout1].
      destruct (forRange instances (syncInstance c configMapHash) tt s1) as [s2 [[]|r|msg|]];
        cbn [fst snd] in *; (split; [congruence|done]).
    + split; [done|]. by destruct Hout as (_ & ? & _).
    + split; [done|]. by destruct Hout as (? & _).
Qed.

(** X13: UpdateConfigMap never changes the cluster object and never
    waits; it panics only on the write to a nil annotation map; and it
    never reports done together with an error: a result (true, err) has
    err = nil, although updatePodDynamicConf may answer (true, err) and
    the creation of the config map returns its error beside the
    flag. *)
Theorem update_config_map_is_done_only_without_error (s : State) :
  let r := run UpdateConfigMap_Reconcile s in
  cluster r.1 = cluster s
  /\ match r.2 with
     | Returned (done, err) => done = true -> err = None
     | Panicked msg => msg = "assignment to entry in nil map"
     | Waiting => False
     end.
Proof.
  intros r. subst r.
  unfold run, UpdateConfigMap_Reconcile, perform, orReturn, check. unfold_go.
  cbn [fst snd world cluster log].
  destruct (GetConfigMap (cluster s) (world s)) as [w1 [configMap|e]];
    cbn [fst snd world cluster log]; [|done].
  destruct (getConfigMap _ w1) as [w2 [existing|e]]; cbn [fst snd world cluster log].
  2:{ destruct (IsNotFound e); [|done]. cbn [fst snd world cluster log].
      destruct (create configMap w2) as [w3 [e'|]]; cbn [fst snd world cluster log]; [|done].
      split; [done|]. by rewrite bool_decide_eq_false_2. }
  destruct (decide (Labels (ConfigMapMeta existing) ≠ Labels (ConfigMapMeta configMap)));
    destruct (mergeAnnotations _ (ConfigMapMeta configMap)) as [existingMeta [|]];
    destruct (bool_decide (Data existing ≠ Data configMap));
    cbn [fst snd world cluster log orb negb];
    repeat match goal with
    | |- context [update ?o ?w] => destruct (update o w) as [? [?|]]; cbn [fst snd world cluster log]
    | |- context [GetDynamicConfHash ?m] =>
        destruct (GetDynamicConfHash m) as [? [?|]]; cbn [fst snd world cluster log]
    | |- context [getInstances ?c ?o ?w] =>
        destruct (getInstances c o w) as [? [?|?]]; cbn [fst snd world cluster log]
    end; try done.
  all: match goal with |- context [forRange ?l (syncInstance ?c ?h) tt ?st] =>
         destruct (syncLoop_outcome c h l st) as [Hc Hout];
         destruct (forRange l (syncInstance c h) tt st) as [s3 [[]|[done err]|msg|]]
       end; cbn [fst snd world cluster log] in *; try done.
  all: split; [done|]; intros ->; done.
Qed.

Lemma syncLoop_calls (c : Cluster) (configMapHash : string) (instances : list Instance)
    (s : State) :
  exists calls,
    log (forRange instances (syncInstance c configMapHash) tt s).1 = log s ++ calls
    /\ Forall (fun call : Call => match call with
                           | UpdatePodDynamicConf _ _ | UpdateMetadata _ _ => True
                           | _ => False
                           end) calls.
Proof.
  revert s. induction instances as [|instance instances IH]; intros s; cbn [forRange].
  - unfold_go. exists []. by rewrite app_nil_r.
  - unfold_go. destruct (UpdateFacts.syncInstance_step c configMapHash instance s) as [Hc Hout].
    assert (Hsync : Forall (fun call : Call => match call with
                           | UpdatePodDynamicConf _ _ | UpdateMetadata _ _ => True
                           | _ => False
                           end) (syncCalls c configMapHash instance)).
    { unfold syncCalls. destruct (upToDate configMapHash instance); by repeat constructor. }
    destruct (syncInstance c configMapHash instance tt s) as [s1 [[]|r|msg|]];
      cbn [fst snd] in *; try done.
    + destruct (IH s1) as (calls & Hlog & Hall).
      destruct (forRange instances (syncInstance c configMapHash) tt s1) as [s2 [[]|r|msg|]];
        cbn [fst snd] in *.
      all: exists (syncCalls c configMapHash instance ++ calls).
      all: rewrite Hlog, Hout, <- app_assoc; split; [done|]; by apply Forall_app.
    + destruct Hout as (_ & _ & [[Hlog _]|[Hlog _]]); eexists; (split; [exact Hlog|done || by repeat constructor]).
    + destruct Hout as (_ & _ & _ & Hlog & _). eexists. split; [exact Hlog|]. by repeat constructor.
Qed.

(** X14: the first part of UpdateConfigMap.  An error of GetConfigMap
    or of the fetch of the existing config map (other than not-found)
    is returned at once.  A config map that is not found is created and
    the step returns without looking at the instances, done exactly
    when the creation succeeded.  An existing config map is updated
    exactly when its data or labels differ from the desired ones or
    the merge of the annotations changed something; the update follows
    the event UpdatingConfigMap and carries the desired data and
    labels with the merged metadata of the existing object; when it
    fails the step returns its error; all further calls list, push to
    or stamp instances. *)
Theorem config_map_is_created_or_brought_up_to_date (s : State) :
  let c := cluster s in
  let r := run UpdateConfigMap_Reconcile s in
  match GetConfigMap c (world s) with
  | (w1, inr e) =>
      r = ({| world := w1; cluster := c; log := log s ++ [GetConfigMapCall c] |},
           Returned (false, Some e))
  | (w1, inl configMap) =>
      let key := {| nnNamespace := Namespace (ConfigMapMeta configMap);
                    nnName := Name (ConfigMapMeta configMap) |} in
      let head := [GetConfigMapCall c; ClientGet key] in
      match getConfigMap key w1 with
      | (w2, inr e) =>
          if IsNotFound e then
            r = ({| world := (create configMap w2).1; cluster := c;
                    log := log s ++ head ++ [ClientCreate configMap] |},
                 Returned (bool_decide ((create configMap w2).2 = None), (create configMap w2).2))
          else r = ({| world := w2; cluster := c; log := log s ++ head |}, Returned (false, Some e))
      | (w2, inl existing) =>
          let relabel :=
            bool_decide (Labels (ConfigMapMeta existing) ≠ Labels (ConfigMapMeta configMap)) in
          let labelled :=
            if relabel then setLabels (Labels (ConfigMapMeta configMap)) (ConfigMapMeta existing)
            else ConfigMapMeta existing in
          let merged := mergeAnnotations labelled (ConfigMapMeta configMap) in
          let differs := bool_decide (Data existing ≠ Data configMap) || relabel || merged.2 in
          let desired := {| ConfigMapMeta := merged.1; Data := Data configMap |} in
          let event := RecorderEvent c "Normal" "UpdatingConfigMap" "" in
          exists rest,
            log r.1 = log s ++ head ++ (if differs then [event; ClientUpdate desired] else []) ++ rest
            /\ Forall (fun call : Call => match call with
                                   | GetInstances _ _ | UpdatePodDynamicConf _ _
                                   | UpdateMetadata _ _ => True
                                   | _ => False
                                   end) rest
            /\ (differs = true ->
                forall e, (update desired (recordEvent c "Normal" "UpdatingConfigMap" "" w2)).2 = Some e ->
                          rest = [] /\ r.2 = Returned (false, Some e))
      end
  end.
Proof.
  intros c r. subst r.
  unfold run, UpdateConfigMap_Reconcile, perform, orReturn, check. unfold_go.
  cbn [fst snd world cluster log]. fold c.
  destruct (GetConfigMap c (world s)) as [w1 [configMap|e]];
    cbn [fst snd world cluster log]; [|done].
  destruct (getConfigMap _ w1) as [w2 [existing|e]]; cbn [fst snd world cluster log].
  2:{ destruct (IsNotFound e); [|by rewrite <- app_assoc]. cbn [fst snd world cluster log].
      destruct (create configMap w2) as [w3 e']. cbn [fst snd world cluster log].
      by rewrite <- !app_assoc. }
  destruct (decide (Labels (ConfigMapMeta existing) ≠ Labels (ConfigMapMeta configMap))) as [Hl|Hl];
    [rewrite (bool_decide_eq_true_2 _ Hl)|rewrite (bool_decide_eq_false_2 _ Hl)].
  all: destruct (mergeAnnotations _ (ConfigMapMeta configMap)) as [existingMeta [|]];
    destruct (bool_decide (Data existing ≠ Data configMap));
    cbn [fst snd world cluster log orb negb].
  all: repeat match goal with
    | |- context [update ?o ?w] => destruct (update o w) as [? [?|]] eqn:Hupd; cbn [fst snd world cluster log]
    | |- context [GetDynamicConfHash ?m] =>
        destruct (GetDynamicConfHash m) as [? [?|]]; cbn [fst snd world cluster log]
    | |- context [getInstances ?c ?o ?w] =>
        destruct (getInstances c o w) as [? [?|?]]; cbn [fst snd world cluster log]
    end.
  all: try match goal with |- context [forRange ?l (syncInstance ?c ?h) tt ?st] =>
         destruct (syncLoop_calls c h l st) as (calls & Hlog & Hall);
         destruct (forRange l (syncInstance c h) tt st) as [s3 [[]|[done err]|msg|]]
       end; cbn [fst snd world cluster log] in *.
  all: rewrite ?Hlog; cbn [log]; rewrite <- ?app_assoc; cbn [app].
  all: first
    [ exists []; split; [reflexivity|]; split; [apply Forall_nil|];
      first [done | intros _ e' [= ->]; done | intros _ e' [=]]
    | exists [GetInstances c (getPodListOptions c "" "")]; split; [reflexivity|];
      split; [by repeat constructor|]; first [done | intros _ e' [=]]
    | exists (GetInstances c (getPodListOptions c "" "") :: calls); split; [reflexivity|];
      split; [constructor; [done|]; eapply Forall_impl; [exact Hall|]; by intros []|];
      first [done | intros _ e' [=]] ].
Qed.

End Facts.
End StepFrames.
